(** * PDF-Scraper: the extraction pipeline and its two recognizers

    A shallow embedding of [PDFReader] as it is written in
    [pdf_reader_new.py] (images through PyMuPDF, the full-fidelity variant)
    and [pdf_reader_program.py] (images through pdfplumber's page metadata,
    the lightweight variant), the properties of it that the specification
    states, and further properties of the recognizers, of [extract_all] and
    of the reports.

    Page text is a [string]: a sequence of characters with code points below
    256.  On such text the class [\d] of Python's [re] is exactly [0-9].

    The PDF libraries, PIL and the file system are collaborators: a [world]
    says what each of their calls returns or raises, and the program is a
    function of it.  A statement is a state transformer that returns or
    raises; the state holds the dictionaries of the instances, the file
    system, the standard output, the documents that are open, and the calls
    made so far. *)

From Stdlib Require Import Ascii String ZArith Floats.SpecFloat.
From stdpp Require Import gmap strings list pretty sorting.

Local Open Scope string_scope.
Local Open Scope list_scope.

(** ** Strings *)

Module Str.

(** [s[:n]] *)
Fixpoint take (n : nat) (s : string) : string :=
  match n, s with
  | S n', String a s' => String a (take n' s')
  | _, _ => ""
  end.

(** [c in s] *)
Fixpoint mem (c : ascii) (s : string) : bool :=
  match s with
  | "" => false
  | String a s' => Ascii.eqb a c || mem c s'
  end.

(** [all(p(c) for c in s)] *)
Fixpoint forallb (p : ascii → bool) (s : string) : bool :=
  match s with
  | "" => true
  | String a s' => p a && forallb p s'
  end.

(** [not s]: the empty string is the only falsy one. *)
Definition is_empty (s : string) : bool :=
  match s with "" => true | _ => false end.

End Str.

(** ** The fragment of Python's [re] that the two patterns use *)

Module Re.

(** One item of a bracket class: a character or an inclusive range. *)
Inductive class_item : Type :=
| One (c : ascii)
| Range (lo hi : ascii).

Inductive regex : Type :=
| Chr (c : ascii)                    (* a literal character *)
| Class (items : list class_item)   (* [...] *)
| Cat (r1 r2 : regex)               (* r1 r2 *)
| Alt (r1 r2 : regex)               (* r1|r2, the left branch first *)
| Opt (r : regex)                   (* r?, greedy *)
| Star (r : regex)                  (* r*, greedy *)
| Plus (r : regex).                 (* r+, greedy *)

Definition in_item (a : ascii) (i : class_item) : bool :=
  match i with
  | One c => Ascii.eqb a c
  | Range lo hi =>
      (N_of_ascii lo <=? N_of_ascii a)%N && (N_of_ascii a <=? N_of_ascii hi)%N
  end.

Definition in_class (items : list class_item) (a : ascii) : bool :=
  existsb (in_item a) items.

(** A literal word, character by character. *)
Fixpoint word (w : string) (r : regex) : regex :=
  match w with
  | "" => r
  | String c w' => Cat (Chr c) (word w' r)
  end.

Section Backtracking.
Context {A : Type}.

(** The loop of a greedy repetition: try one more iteration of the body
    [step], and only when everything after it fails, leave the loop.
    An iteration has to consume input; [n] bounds the iterations by the
    length of the text that is left. *)
Fixpoint repeat_greedy (step : string → (string → option A) → option A)
    (k : string → option A) (n : nat) (s : string) : option A :=
  match n with
  | 0 => k s
  | S n' =>
      match step s (λ s',
              if (String.length s' <? String.length s)%nat
              then repeat_greedy step k n' s' else None) with
      | Some x => Some x
      | None => k s
      end
  end.

(** The backtracking matcher in continuation-passing style: [bt r s k]
    matches [r] at the start of [s] and hands what is left to [k]; when
    [k] refuses, the next alternative is tried. *)
Fixpoint bt (r : regex) (s : string) (k : string → option A) : option A :=
  match r with
  | Chr c =>
      match s with
      | String a s' => if Ascii.eqb a c then k s' else None
      | "" => None
      end
  | Class items =>
      match s with
      | String a s' => if in_class items a then k s' else None
      | "" => None
      end
  | Cat r1 r2 => bt r1 s (λ s1, bt r2 s1 k)
  | Alt r1 r2 =>
      match bt r1 s k with
      | Some x => Some x
      | None => bt r2 s k
      end
  | Opt r1 =>
      match bt r1 s k with
      | Some x => Some x
      | None => k s
      end
  | Star r1 => repeat_greedy (bt r1) k (String.length s) s
  | Plus r1 =>
      bt r1 s (λ s1, repeat_greedy (bt r1) k (String.length s1) s1)
  end.
End Backtracking.

(** One match attempt at the start of [s]; the matched text is returned.
    With [must_advance] an empty match is refused (the engine's flag after
    an empty match at the same position). *)
Definition match_at (r : regex) (s : string) (must_advance : bool)
    : option string :=
  bt r s (λ rest,
    if must_advance && (String.length rest =? String.length s)%nat then None
    else Some (Str.take (String.length s - String.length rest) s)).

(** [re.findall(r, s)] for a pattern without groups: scan left to right,
    resume after each match, step over one character where nothing
    matches.  [skip] counts the characters of the last match that are still
    ahead. *)
Fixpoint findall_go (r : regex) (s : string) (skip : nat) : list string :=
  match skip with
  | S n =>
      match s with
      | String _ s' => findall_go r s' n
      | "" => []
      end
  | 0 =>
      let advance :=
        match s with
        | String _ s' => findall_go r s' 0
        | "" => []
        end in
      let resume (tok : string) :=
        match s with
        | String _ s' => findall_go r s' (String.length tok - 1)
        | "" => []
        end in
      match match_at r s false with
      | None => advance
      | Some "" =>
          "" :: match match_at r s true with
                | Some tok => tok :: resume tok
                | None => advance
                end
      | Some tok => tok :: resume tok
      end
  end.

Definition findall (r : regex) (s : string) : list string := findall_go r s 0.

(** The two ways in which the scan goes on: one character further, or
    after the match [tok] found at the start of [s]. *)
Definition advance (r : regex) (s : string) : list string :=
  match s with
  | String _ s' => findall_go r s' 0
  | "" => []
  end.

Definition resume (r : regex) (s tok : string) : list string :=
  match s with
  | String _ s' => findall_go r s' (String.length tok - 1)
  | "" => []
  end.

(** The language of a pattern, independently of the engine. *)
Inductive matches : regex → string → Prop :=
| M_Chr c : matches (Chr c) (String c "")
| M_Class items a : in_class items a = true → matches (Class items) (String a "")
| M_Cat r1 r2 s1 s2 :
    matches r1 s1 → matches r2 s2 → matches (Cat r1 r2) (s1 +:+ s2)
| M_AltL r1 r2 s : matches r1 s → matches (Alt r1 r2) s
| M_AltR r1 r2 s : matches r2 s → matches (Alt r1 r2) s
| M_OptNone r : matches (Opt r) ""
| M_OptSome r s : matches r s → matches (Opt r) s
| M_StarNil r : matches (Star r) ""
| M_StarCons r s1 s2 :
    matches r s1 → matches (Star r) s2 → matches (Star r) (s1 +:+ s2)
| M_Plus r s1 s2 :
    matches r s1 → matches (Star r) s2 → matches (Plus r) (s1 +:+ s2).

(** The matches that [findall] may report on a text: successive,
    non-overlapping occurrences, left to right. *)
Inductive occurrences (r : regex) : string → list string → Prop :=
| occ_end s : occurrences r s []
| occ_skip a s toks : occurrences r s toks → occurrences r (String a s) toks
| occ_match tok s toks :
    matches r tok → occurrences r s toks →
    occurrences r (tok +:+ s) (tok :: toks).

End Re.

(** ** Python values and exceptions *)

(** An exception, by its message.  Only subclasses of [Exception] are
    modelled: these are what the collaborators raise on damaged input and what
    an [except Exception] clause catches. *)
Definition exn : Type := string.

Inductive outcome (A : Type) : Type :=
| Returns (a : A)
| Raises (e : exn).
Arguments Returns {A} a.
Arguments Raises {A} e.

(** An [int] is unbounded; a [float] is a binary64 number. *)
Inductive pynum : Type :=
| PyInt (z : Z)
| PyFloat (f : spec_float).

Module Num.

Definition is_digit (a : ascii) : bool :=
  (48 <=? N_of_ascii a)%N && (N_of_ascii a <=? 57)%N.

Definition digit_val (a : ascii) : Z := Z.of_N (N_of_ascii a) - 48.

(** The value of a run of decimal digits, most significant first. *)
Fixpoint digits_val (acc : Z) (s : string) : Z :=
  match s with
  | "" => acc
  | String a s' => digits_val (10 * acc + digit_val a) s'
  end.

(** The longest prefix of digits, and what follows it. *)
Fixpoint span_digits (s : string) : string * string :=
  match s with
  | String a s' =>
      if is_digit a
      then let '(ds, rest) := span_digits s' in (String a ds, rest)
      else ("", s)
  | "" => ("", "")
  end.

(** What follows the longest run of digits does not start with a digit. *)
Definition no_digit_ahead (s : string) : Prop :=
  match s with
  | String a _ => is_digit a = false
  | "" => True
  end.

Definition strip_point (s : string) : string :=
  match s with String "." s' => s' | _ => s end.

Definition strip_minus (s : string) : string :=
  match s with String "-" s' => s' | _ => s end.

Definition split_sign (s : string) : bool * string :=
  match s with
  | String "-" s' => (true, s')
  | String "+" s' => (false, s')
  | _ => (false, s)
  end.

(** [int(s)] on a sign and decimal digits; anything else is a
    [ValueError].  (Blanks and underscores, which [int] also accepts, do not
    occur in what the recognizer passes.  The interpreter's adjustable cap on
    the number of digits that [int] converts is taken as lifted.) *)
Definition py_int (s : string) : outcome Z :=
  let '(neg, body) := split_sign s in
  if negb (Str.is_empty body) && Str.forallb is_digit body
  then Returns (if neg then - digits_val 0 body else digits_val 0 body)%Z
  else Raises "ValueError: invalid literal for int()".

Definition prec : Z := 53.
Definition emax : Z := 1024.

(** The binary64 number nearest to [m / 10^k] (ties to even), signed. *)
Definition float_of_decimal (neg : bool) (m : Z) (k : nat) : spec_float :=
  match m with
  | Zpos p =>
      SFdiv prec emax (S754_finite neg p 0)
        (S754_finite false (Z.to_pos (10 ^ Z.of_nat k)) 0)
  | _ => S754_zero neg
  end.

(** [float(s)] on a sign, digits, and an optional point with more digits,
    at least one digit in all; anything else is a [ValueError].
    (Exponents and the words inf and nan do not occur in what the
    recognizer passes.) *)
Definition py_float (s : string) : outcome spec_float :=
  let '(neg, body) := split_sign s in
  let '(ip, rest) := span_digits body in
  let '(fp, ok) :=
    match rest with
    | "" => ("", true)
    | String "." r => let '(fp, r') := span_digits r in (fp, Str.is_empty r')
    | _ => ("", false)
    end in
  if ok && negb (Str.is_empty (ip +:+ fp))
  then Returns (float_of_decimal neg (digits_val 0 (ip +:+ fp)) (String.length fp))
  else Raises "ValueError: could not convert string to float".

End Num.

(** ** The two patterns *)

(** [r'http[s]?://(?:[a-zA-Z]|[0-9]|[$-_@.&+]|[!*\\(\\),]|(?:%[0-9a-fA-F][0-9a-fA-F]))+']

    In the third class [$-_] is a range, from code point 36 to code point
    95; in the fourth, each [\\] of the raw string is an escaped
    backslash. *)
Definition hex : Re.regex :=
  Re.Class [Re.Range "0" "9"; Re.Range "a" "f"; Re.Range "A" "F"].

(** The group that is repeated: one character of a class, or a percent sign
    and two hex digits. *)
Definition url_item : Re.regex :=
  Re.Alt (Re.Class [Re.Range "a" "z"; Re.Range "A" "Z"])
  (Re.Alt (Re.Class [Re.Range "0" "9"])
  (Re.Alt (Re.Class [Re.Range "$" "_"; Re.One "@"; Re.One "."; Re.One "&";
                     Re.One "+"])
  (Re.Alt (Re.Class [Re.One "!"; Re.One "*"; Re.One "\"; Re.One "(";
                     Re.One "\"; Re.One ")"; Re.One ","])
          (Re.Cat (Re.Chr "%") (Re.Cat hex hex))))).

Definition url_pattern : Re.regex :=
  Re.word "http"
    (Re.Cat (Re.Opt (Re.Class [Re.One "s"]))
       (Re.word "://" (Re.Plus url_item))).

(** [r'-?\d+\.?\d*'] *)
Definition number_pattern : Re.regex :=
  let d := Re.Class [Re.Range "0" "9"] in
  Re.Cat (Re.Opt (Re.Chr "-"))
    (Re.Cat (Re.Plus d) (Re.Cat (Re.Opt (Re.Chr ".")) (Re.Star d))).

(** ** The documents, as the collaborators present them *)

(** A table of pdfplumber: rows of cells, a cell a text or [None]. *)
Definition table : Type := list (list (option string)).

(** An entry of [page.images]: placement only. *)
Record plumber_image : Type := {
  img_x0 : Z; img_top : Z; img_x1 : Z; img_bottom : Z
}.

Record plumber_page : Type := {
  page_extract_text : outcome (option string);
  page_extract_tables : outcome (list table);
  page_images : outcome (list plumber_image)
}.

(** What [extract_image] returns: the keys ["image"] and ["ext"]. *)
Record base_image : Type := {
  image_bytes : list Byte.byte;
  image_ext : string
}.

(** A PyMuPDF document: for each page what [get_images(full=True)] yields
    (of each entry only the first component, the cross-reference number, is
    read), and [extract_image] by cross-reference number. *)
Record fitz_document : Type := {
  fitz_pages : list (outcome (list Z));
  fitz_extract_image : Z → outcome base_image
}.

(** Everything outside the program: the two libraries' view of the file at a
    path, PIL's decoding of image bytes to a size, and the order in which the
    interpreter iterates over a set of strings. *)
Record world : Type := {
  fitz_open : string → outcome fitz_document;
  pdfplumber_open : string → outcome (list plumber_page);
  pil_size : list Byte.byte → outcome (nat * nat);
  set_order : gset string → list string
}.

(** Iterating over a set yields each of its elements exactly once. *)
Definition set_order_ok (w : world) : Prop :=
  ∀ X, set_order w X ≡ₚ elements X.

(** ** The recognizers *)

(** [list(set(re.findall(url_pattern, text)))] *)
Definition _extract_urls (w : world) (text : string) : list string :=
  set_order w (list_to_set (Re.findall url_pattern text)).

(** [float(n) if '.' in n else int(n)] *)
Definition number_of_token (n : string) : outcome pynum :=
  if Str.mem "." n
  then match Num.py_float n with
       | Returns f => Returns (PyFloat f)
       | Raises e => Raises e
       end
  else match Num.py_int n with
       | Returns z => Returns (PyInt z)
       | Raises e => Raises e
       end.

(** A list comprehension whose element expression may raise. *)
Fixpoint comprehension {A B : Type} (f : A → outcome B) (l : list A)
    : outcome (list B) :=
  match l with
  | [] => Returns []
  | x :: l' =>
      match f x with
      | Raises e => Raises e
      | Returns y =>
          match comprehension f l' with
          | Raises e => Raises e
          | Returns ys => Returns (y :: ys)
          end
      end
  end.

(** [[float(n) if '.' in n else int(n) for n in numbers if n]] *)
Definition _extract_numbers (text : string) : outcome (list pynum) :=
  comprehension number_of_token
    (List.filter (λ n, negb (Str.is_empty n)) (Re.findall number_pattern text)).

(** ** The instance data *)

Record text_entry : Type := { text_page : nat; text_content : string }.
Record url_entry : Type := { url_page : nat; url_url : string }.
Record numbers_entry : Type := {
  numbers_page : nat; numbers_numbers : list pynum
}.
Record table_entry : Type := {
  table_page : nat; table_number : nat; table_data : table
}.

(** An image entry; the keys that a variant or a branch does not set are
    [None].  [image_file_size] is [len(image_bytes)], which the source renders
    in KB with two decimals. *)
Record image_entry : Type := {
  image_page : nat;
  image_number : nat;
  image_saved_as : option string;
  image_format : option string;
  image_size : option string;
  image_file_size : option nat
}.

(** [self.data] *)
Record pdf_data : Type := {
  data_text : list text_entry;
  data_tables : list table_entry;
  data_images : list image_entry;
  data_urls : list url_entry;
  data_numbers : list numbers_entry
}.

Definition empty_data : pdf_data :=
  {| data_text := []; data_tables := []; data_images := [];
     data_urls := []; data_numbers := [] |}.

Record PDFReader : Type := {
  pdf_path : string;
  data : nat        (* the address of the dictionary [self.data] *)
}.

(** ** The state that a run reads and changes *)

Inductive handle : Type :=
| FitzDocument (path : string)
| PlumberPDF (path : string).

Global Instance handle_eq_dec : EqDecision handle.
Proof. solve_decision. Defined.

(** The calls that a run makes, in the order it makes them; pages and images
    are numbered from 1. *)
Inductive event : Type :=
| EvMakedirs (dir : string)
| EvFitzOpen (path : string)
| EvFitzClose (path : string)
| EvGetImages (page : nat)
| EvExtractImage (page img : nat)
| EvWriteFile (name : string)
| EvImageOpen (page img : nat)
| EvPlumberOpen (path : string)
| EvPlumberClose (path : string)
| EvExtractText (page : nat)
| EvExtractUrls (page : nat)
| EvExtractNumbers (page : nat)
| EvExtractTables (page : nat)
| EvPageImages (page : nat).

Record state : Type := {
  heap : gmap nat pdf_data;        (* the dictionaries of the instances *)
  dirs : gset string;              (* directories on disk *)
  files : gmap string (list Byte.byte); (* files on disk *)
  stdout : list string;            (* the printed lines *)
  open_handles : list handle;      (* documents opened and not yet closed *)
  trace : list event
}.

Definition initial_state : state :=
  {| heap := ∅; dirs := ∅; files := ∅; stdout := [];
     open_handles := []; trace := [] |}.

Definition set_heap (f : gmap nat pdf_data → gmap nat pdf_data) (st : state) : state :=
  {| heap := f (heap st); dirs := dirs st; files := files st;
     stdout := stdout st; open_handles := open_handles st; trace := trace st |}.
Definition set_dirs (f : gset string → gset string) (st : state) : state :=
  {| heap := heap st; dirs := f (dirs st); files := files st;
     stdout := stdout st; open_handles := open_handles st; trace := trace st |}.
Definition set_files (f : gmap string (list Byte.byte) → gmap string (list Byte.byte))
    (st : state) : state :=
  {| heap := heap st; dirs := dirs st; files := f (files st);
     stdout := stdout st; open_handles := open_handles st; trace := trace st |}.
Definition set_stdout (f : list string → list string) (st : state) : state :=
  {| heap := heap st; dirs := dirs st; files := files st;
     stdout := f (stdout st); open_handles := open_handles st; trace := trace st |}.
Definition set_open_handles (f : list handle → list handle) (st : state) : state :=
  {| heap := heap st; dirs := dirs st; files := files st;
     stdout := stdout st; open_handles := f (open_handles st); trace := trace st |}.
Definition set_trace (f : list event → list event) (st : state) : state :=
  {| heap := heap st; dirs := dirs st; files := files st;
     stdout := stdout st; open_handles := open_handles st; trace := f (trace st) |}.

(** ** Statements: state passing with exceptions *)

Definition M (A : Type) : Type := state → outcome A * state.

Global Instance M_ret : MRet M := λ A a st, (Returns a, st).
Global Instance M_bind : MBind M := λ A B f m st,
  match m st with
  | (Returns a, st') => f a st'
  | (Raises e, st') => (Raises e, st')
  end.

(** An expression that returns or raises, without touching the state. *)
Definition lift {A : Type} (o : outcome A) : M A := λ st, (o, st).

(** [try: body  except Exception as e: handler(e)] *)
Definition try_except {A : Type} (body : M A) (handler : exn → M A) : M A :=
  λ st,
    match body st with
    | (Returns a, st') => (Returns a, st')
    | (Raises e, st') => handler e st'
    end.

(** [try: body  finally: cleanup], which is what leaving a [with] block
    does. *)
Definition try_finally {A : Type} (body : M A) (cleanup : M unit) : M A :=
  λ st,
    match body st with
    | (Returns a, st') =>
        match cleanup st' with
        | (Returns _, st'') => (Returns a, st'')
        | (Raises e, st'') => (Raises e, st'')
        end
    | (Raises e, st') =>
        match cleanup st' with
        | (Returns _, st'') => (Raises e, st'')
        | (Raises e', st'') => (Raises e', st'')
        end
    end.

(** [for x in l: body(x)] *)
Fixpoint for_each {A : Type} (body : A → M unit) (l : list A) : M unit :=
  match l with
  | [] => mret tt
  | x :: l' => body x ;; for_each body l'
  end.

(** [enumerate(l, start)] *)
Fixpoint enumerate {A : Type} (start : nat) (l : list A) : list (nat * A) :=
  match l with
  | [] => []
  | x :: l' => (start, x) :: enumerate (S start) l'
  end.

Definition when (b : bool) (m : M unit) : M unit := if b then m else mret tt.

(** A step that changes the state and returns nothing. *)
Definition modify (f : state → state) : M unit := λ st, (Returns tt, f st).

Definition log (e : event) : M unit := modify (set_trace (λ t, t ++ [e])).
Definition print (line : string) : M unit := modify (set_stdout (λ o, o ++ [line])).

(** [os.makedirs(dir, exist_ok=True)] *)
Definition makedirs (dir : string) : M unit :=
  log (EvMakedirs dir) ;;
  modify (set_dirs (λ d, {[dir]} ∪ d)).

(** [with open(name, "wb") as f: f.write(content)] *)
Definition write_file (name : string) (content : list Byte.byte) : M unit :=
  log (EvWriteFile name) ;;
  modify (set_files (λ fs, <[name := content]> fs)).

Definition open_handle (h : handle) : M unit :=
  modify (set_open_handles (λ hs, hs ++ [h])).
Definition close_handle (h : handle) : M unit :=
  modify (set_open_handles (List.filter (λ h', bool_decide (h' ≠ h)))).

(** [self.data[key].append(x)] and [.extend(xs)], through the address. *)
Definition update_data (self : PDFReader) (f : pdf_data → pdf_data) : M unit :=
  modify (set_heap (alter f (data self))).

Definition extend_text (xs : list text_entry) (d : pdf_data) : pdf_data :=
  {| data_text := data_text d ++ xs; data_tables := data_tables d;
     data_images := data_images d; data_urls := data_urls d;
     data_numbers := data_numbers d |}.
Definition extend_tables (xs : list table_entry) (d : pdf_data) : pdf_data :=
  {| data_text := data_text d; data_tables := data_tables d ++ xs;
     data_images := data_images d; data_urls := data_urls d;
     data_numbers := data_numbers d |}.
Definition extend_images (xs : list image_entry) (d : pdf_data) : pdf_data :=
  {| data_text := data_text d; data_tables := data_tables d;
     data_images := data_images d ++ xs; data_urls := data_urls d;
     data_numbers := data_numbers d |}.
Definition extend_urls (xs : list url_entry) (d : pdf_data) : pdf_data :=
  {| data_text := data_text d; data_tables := data_tables d;
     data_images := data_images d; data_urls := data_urls d ++ xs;
     data_numbers := data_numbers d |}.
Definition extend_numbers (xs : list numbers_entry) (d : pdf_data) : pdf_data :=
  {| data_text := data_text d; data_tables := data_tables d;
     data_images := data_images d; data_urls := data_urls d;
     data_numbers := data_numbers d ++ xs |}.

(** [PDFReader(pdf_path)]: a new dictionary with five empty lists. *)
Definition __init__ (path : string) : M PDFReader :=
  λ st,
    let a := fresh (dom (heap st)) in
    (Returns {| pdf_path := path; data := a |},
     set_heap (λ h, <[a := empty_data]> h) st).

(** ** What a run does to the state, in one record

    Every statement above appends to lists, writes files, creates
    directories, and opens or closes documents; none reads the state back.
    The record [effects] holds what a piece of code has done, in order. *)

Inductive handle_op : Type :=
| Opened (h : handle)
| Closed (h : handle).

Record effects : Type := {
  fx_text : list text_entry;
  fx_tables : list table_entry;
  fx_images : list image_entry;
  fx_urls : list url_entry;
  fx_numbers : list numbers_entry;
  fx_dirs : list string;
  fx_files : list (string * list Byte.byte);
  fx_stdout : list string;
  fx_handles : list handle_op;
  fx_trace : list event
}.

Definition fx_empty : effects :=
  {| fx_text := []; fx_tables := []; fx_images := []; fx_urls := [];
     fx_numbers := []; fx_dirs := []; fx_files := []; fx_stdout := [];
     fx_handles := []; fx_trace := [] |}.

(** First [x], then [y]. *)
Definition fx_app (x y : effects) : effects :=
  {| fx_text := fx_text x ++ fx_text y;
     fx_tables := fx_tables x ++ fx_tables y;
     fx_images := fx_images x ++ fx_images y;
     fx_urls := fx_urls x ++ fx_urls y;
     fx_numbers := fx_numbers x ++ fx_numbers y;
     fx_dirs := fx_dirs x ++ fx_dirs y;
     fx_files := fx_files x ++ fx_files y;
     fx_stdout := fx_stdout x ++ fx_stdout y;
     fx_handles := fx_handles x ++ fx_handles y;
     fx_trace := fx_trace x ++ fx_trace y |}.

Infix "⊕" := fx_app (at level 50, left associativity).

Definition fx_concat (l : list effects) : effects := foldr fx_app fx_empty l.

Definition fx_event (e : event) : effects :=
  {| fx_text := []; fx_tables := []; fx_images := []; fx_urls := [];
     fx_numbers := []; fx_dirs := []; fx_files := []; fx_stdout := [];
     fx_handles := []; fx_trace := [e] |}.
Definition fx_print (line : string) : effects :=
  {| fx_text := []; fx_tables := []; fx_images := []; fx_urls := [];
     fx_numbers := []; fx_dirs := []; fx_files := []; fx_stdout := [line];
     fx_handles := []; fx_trace := [] |}.
Definition fx_handle (op : handle_op) : effects :=
  {| fx_text := []; fx_tables := []; fx_images := []; fx_urls := [];
     fx_numbers := []; fx_dirs := []; fx_files := []; fx_stdout := [];
     fx_handles := [op]; fx_trace := [] |}.
Definition fx_makedirs (dir : string) : effects :=
  {| fx_text := []; fx_tables := []; fx_images := []; fx_urls := [];
     fx_numbers := []; fx_dirs := [dir]; fx_files := []; fx_stdout := [];
     fx_handles := []; fx_trace := [EvMakedirs dir] |}.
Definition fx_write_file (name : string) (content : list Byte.byte) : effects :=
  {| fx_text := []; fx_tables := []; fx_images := []; fx_urls := [];
     fx_numbers := []; fx_dirs := []; fx_files := [(name, content)];
     fx_stdout := []; fx_handles := []; fx_trace := [EvWriteFile name] |}.
Definition fx_add_text (xs : list text_entry) : effects :=
  {| fx_text := xs; fx_tables := []; fx_images := []; fx_urls := [];
     fx_numbers := []; fx_dirs := []; fx_files := []; fx_stdout := [];
     fx_handles := []; fx_trace := [] |}.
Definition fx_add_tables (xs : list table_entry) : effects :=
  {| fx_text := []; fx_tables := xs; fx_images := []; fx_urls := [];
     fx_numbers := []; fx_dirs := []; fx_files := []; fx_stdout := [];
     fx_handles := []; fx_trace := [] |}.
Definition fx_add_images (xs : list image_entry) : effects :=
  {| fx_text := []; fx_tables := []; fx_images := xs; fx_urls := [];
     fx_numbers := []; fx_dirs := []; fx_files := []; fx_stdout := [];
     fx_handles := []; fx_trace := [] |}.
Definition fx_add_urls (xs : list url_entry) : effects :=
  {| fx_text := []; fx_tables := []; fx_images := []; fx_urls := xs;
     fx_numbers := []; fx_dirs := []; fx_files := []; fx_stdout := [];
     fx_handles := []; fx_trace := [] |}.
Definition fx_add_numbers (xs : list numbers_entry) : effects :=
  {| fx_text := []; fx_tables := []; fx_images := []; fx_urls := [];
     fx_numbers := xs; fx_dirs := []; fx_files := []; fx_stdout := [];
     fx_handles := []; fx_trace := [] |}.

(** The entries of [fx] appended to a dictionary. *)
Definition append_data (fx : effects) (d : pdf_data) : pdf_data :=
  {| data_text := data_text d ++ fx_text fx;
     data_tables := data_tables d ++ fx_tables fx;
     data_images := data_images d ++ fx_images fx;
     data_urls := data_urls d ++ fx_urls fx;
     data_numbers := data_numbers d ++ fx_numbers fx |}.

Definition apply_handle_op (hs : list handle) (op : handle_op) : list handle :=
  match op with
  | Opened h => hs ++ [h]
  | Closed h => List.filter (λ h', bool_decide (h' ≠ h)) hs
  end.

(** The state after the effects [fx] of code that works on the instance
    whose dictionary is at address [a]. *)
Definition apply_fx (a : nat) (fx : effects) (st : state) : state :=
  {| heap := alter (append_data fx) a (heap st);
     dirs := foldl (λ d dir, {[dir]} ∪ d) (dirs st) (fx_dirs fx);
     files := foldl (λ fs nc, <[nc.1 := nc.2]> fs) (files st) (fx_files fx);
     stdout := stdout st ++ fx_stdout fx;
     open_handles := foldl apply_handle_op (open_handles st) (fx_handles fx);
     trace := trace st ++ fx_trace fx |}.

(** [runs a m o fx]: from every state, [m] ends with the outcome [o] and
    has had the effects [fx]. *)
Definition runs {A : Type} (a : nat) (m : M A) (o : outcome A) (fx : effects)
    : Prop :=
  ∀ st, m st = (o, apply_fx a fx st).

(** The outcome and the effects of statements run one after the other, each
    given by its own outcome and effects: the first that raises ends the
    sequence. *)
Fixpoint in_sequence (l : list (outcome unit * effects))
    : outcome unit * effects :=
  match l with
  | [] => (Returns tt, fx_empty)
  | (Returns _, fx) :: l' =>
      let '(o, fx') := in_sequence l' in (o, fx ⊕ fx')
  | (Raises e, fx) :: _ => (Raises e, fx)
  end.

(** ** The two scripts *)

(** [with pdfplumber.open(path) as pdf: body(pdf.pages)] *)
Definition with_pdfplumber {A : Type} (w : world) (path : string)
    (body : list plumber_page → M A) : M A :=
  log (EvPlumberOpen path) ;;
  pdf ← lift (pdfplumber_open w path);
  open_handle (PlumberPDF path) ;;
  try_finally (body pdf)
    (log (EvPlumberClose path) ;; close_handle (PlumberPDF path)).

Definition nonempty {A : Type} (l : list A) : bool :=
  match l with [] => false | _ => true end.

(** The text, URL, number and table steps of one page: lines 47 to 79 of
    [pdf_reader_new.py], and the same statements at lines 41 to 73 of
    [pdf_reader_program.py]. *)
Definition extract_text_and_tables (w : world) (self : PDFReader)
    (page_num : nat) (page : plumber_page) : M unit :=
  log (EvExtractText page_num) ;;
  text ← lift (page_extract_text page);
  match text with
  | Some (String _ _ as text) =>
      update_data self
        (extend_text [{| text_page := page_num; text_content := text |}]) ;;
      log (EvExtractUrls page_num) ;;
      ( let urls := _extract_urls w text in
        when (nonempty urls)
          (update_data self
             (extend_urls
                ((λ url, {| url_page := page_num; url_url := url |}) <$> urls))) ) ;;
      log (EvExtractNumbers page_num) ;;
      numbers ← lift (_extract_numbers text);
      when (nonempty numbers)
        (update_data self
           (extend_numbers
              [{| numbers_page := page_num; numbers_numbers := numbers |}]))
  | _ => mret tt
  end ;;
  log (EvExtractTables page_num) ;;
  tables ← lift (page_extract_tables page);
  when (nonempty tables)
    (for_each (λ '(table_num, t),
       update_data self
         (extend_tables
            [{| table_page := page_num; table_number := table_num;
                table_data := t |}]))
       (enumerate 1 tables)).

(** What [extract_text_and_tables] comes to.  [page_text] is the text of a
    page when the [if text:] test passes. *)
Definition page_text (page : plumber_page) : option string :=
  match page_extract_text page with
  | Returns (Some (String a t)) => Some (String a t)
  | _ => None
  end.

Definition numbers_of (text : string) : list pynum :=
  match _extract_numbers text with
  | Returns ns => ns
  | Raises _ => []
  end.

Definition text_entries (p : nat) (page : plumber_page) : list text_entry :=
  match page_text page with
  | Some t => [{| text_page := p; text_content := t |}]
  | None => []
  end.

Definition url_entries (w : world) (p : nat) (page : plumber_page)
    : list url_entry :=
  match page_text page with
  | Some t => (λ u, {| url_page := p; url_url := u |}) <$> _extract_urls w t
  | None => []
  end.

Definition numbers_entries (p : nat) (page : plumber_page) : list numbers_entry :=
  match page_text page with
  | Some t =>
      if nonempty (numbers_of t)
      then [{| numbers_page := p; numbers_numbers := numbers_of t |}]
      else []
  | None => []
  end.

Definition table_entries (p : nat) (page : plumber_page) : list table_entry :=
  match page_extract_text page, page_extract_tables page with
  | Returns _, Returns ts =>
      (λ it, {| table_page := p; table_number := it.1; table_data := it.2 |})
        <$> enumerate 1 ts
  | _, _ => []
  end.

Definition text_events (p : nat) (page : plumber_page) : list event :=
  EvExtractText p ::
    match page_extract_text page with
    | Raises _ => []
    | Returns _ =>
        match page_text page with
        | Some _ => [EvExtractUrls p; EvExtractNumbers p]
        | None => []
        end ++ [EvExtractTables p]
    end.

Definition text_outcome (page : plumber_page) : outcome unit :=
  match page_extract_text page with
  | Raises e => Raises e
  | Returns _ =>
      match page_extract_tables page with
      | Raises e => Raises e
      | Returns _ => Returns tt
      end
  end.

Definition text_fx (w : world) (p : nat) (page : plumber_page) : effects :=
  {| fx_text := text_entries p page;
     fx_tables := table_entries p page;
     fx_images := [];
     fx_urls := url_entries w p page;
     fx_numbers := numbers_entries p page;
     fx_dirs := []; fx_files := []; fx_stdout := []; fx_handles := [];
     fx_trace := text_events p page |}.

(** Every text and table step of every page returns. *)
Definition pages_return (pages : list plumber_page) : Prop :=
  Forall (λ page, text_outcome page = Returns tt) pages.

(** [f] of every page with its number, counted from 1, in page order. *)
Definition per_page {X : Type} (f : nat → plumber_page → list X)
    (pages : list plumber_page) : list X :=
  concat ((λ it, f it.1 it.2) <$> enumerate 1 pages).

(** The calls made for a page on which every step returns. *)
Definition page_steps (p : nat) (page : plumber_page) : list event :=
  [EvExtractText p]
  ++ match page_text page with
     | Some _ => [EvExtractUrls p; EvExtractNumbers p]
     | None => []
     end
  ++ [EvExtractTables p].


Definition returned {A : Type} (o : outcome A) : Prop :=
  match o with Returns _ => True | Raises _ => False end.

(** *** [pdf_reader_new.py]: the full-fidelity variant *)

Module New.

Definition image_filename (output_dir : string) (page img_num : nat)
    (ext : string) : string :=
  output_dir +:+ "/page" +:+ pretty page +:+ "_img" +:+ pretty img_num
    +:+ "." +:+ ext.

Definition size_text (width height : nat) : string :=
  pretty width +:+ "x" +:+ pretty height.

Definition error_line (img_num page : nat) (e : exn) : string :=
  "Error extracting image " +:+ pretty img_num +:+ " from page "
    +:+ pretty page +:+ ": " +:+ e.

(** The body of the [try] statement for one entry of the image list. *)
Definition extract_one_image (w : world) (self : PDFReader)
    (pdf_document : fitz_document) (output_dir : string) (save_images : bool)
    (page_num img_num : nat) (xref : Z) : M unit :=
  log (EvExtractImage (page_num + 1) img_num) ;;
  base_image ← lift (fitz_extract_image pdf_document xref);
  if save_images then
    let name :=
      image_filename output_dir (page_num + 1) img_num (image_ext base_image) in
    write_file name (image_bytes base_image) ;;
    log (EvImageOpen (page_num + 1) img_num) ;;
    '(width, height) ← lift (pil_size w (image_bytes base_image));
    update_data self
      (extend_images
         [{| image_page := page_num + 1; image_number := img_num;
             image_saved_as := Some name;
             image_format := Some (image_ext base_image);
             image_size := Some (size_text width height);
             image_file_size := Some (length (image_bytes base_image)) |}])
  else
    log (EvImageOpen (page_num + 1) img_num) ;;
    '(width, height) ← lift (pil_size w (image_bytes base_image));
    update_data self
      (extend_images
         [{| image_page := page_num + 1; image_number := img_num;
             image_saved_as := None;
             image_format := Some (image_ext base_image);
             image_size := Some (size_text width height);
             image_file_size := Some (length (image_bytes base_image)) |}]).

Definition _extract_images_with_fitz (w : world) (self : PDFReader)
    (output_dir : string) (save_images : bool) : M unit :=
  print "Extracting images..." ;;
  log (EvFitzOpen (pdf_path self)) ;;
  pdf_document ← lift (fitz_open w (pdf_path self));
  open_handle (FitzDocument (pdf_path self)) ;;
  for_each (λ page_num,
    log (EvGetImages (page_num + 1)) ;;
    image_list ← lift (default (Raises "IndexError: page not in document")
                         (fitz_pages pdf_document !! page_num));
    print ("Found " +:+ pretty (length image_list) +:+ " images on page "
             +:+ pretty (page_num + 1)) ;;
    for_each (λ '(img_num, xref),
      try_except
        (extract_one_image w self pdf_document output_dir save_images
           page_num img_num xref)
        (λ e, print (error_line img_num (page_num + 1) e)))
      (enumerate 1 image_list))
    (seq 0 (length (fitz_pages pdf_document))) ;;
  log (EvFitzClose (pdf_path self)) ;;
  close_handle (FitzDocument (pdf_path self)).

(** Returns [self.data]: the dictionary of the instance itself, by its
    address. *)
Definition extract_all (w : world) (self : PDFReader) (save_images : bool)
    (output_dir : string) : M nat :=
  when save_images (makedirs output_dir) ;;
  _extract_images_with_fitz w self output_dir save_images ;;
  with_pdfplumber w (pdf_path self) (λ pages,
    for_each (λ '(page_num, page),
      print ("Processing page " +:+ pretty page_num
               +:+ " for text and tables...") ;;
      extract_text_and_tables w self page_num page)
      (enumerate 1 pages)) ;;
  mret (data self).


(** What the [try] statement for one image comes to: it never raises. *)
Definition image_result (w : world) (pdf_document : fitz_document) (xref : Z)
    : outcome (base_image * (nat * nat)) :=
  match fitz_extract_image pdf_document xref with
  | Raises e => Raises e
  | Returns bi =>
      match pil_size w (image_bytes bi) with
      | Raises e => Raises e
      | Returns sz => Returns (bi, sz)
      end
  end.

Definition image_entry_of (output_dir : string) (save_images : bool)
    (page img_num : nat) (r : base_image * (nat * nat)) : image_entry :=
  {| image_page := page; image_number := img_num;
     image_saved_as :=
       if save_images
       then Some (image_filename output_dir page img_num (image_ext r.1))
       else None;
     image_format := Some (image_ext r.1);
     image_size := Some (size_text r.2.1 r.2.2);
     image_file_size := Some (length (image_bytes r.1)) |}.

Definition image_fx (w : world) (pdf_document : fitz_document)
    (output_dir : string) (save_images : bool) (page_num img_num : nat)
    (xref : Z) : effects :=
  {| fx_text := []; fx_tables := [];
     fx_images :=
       match image_result w pdf_document xref with
       | Returns r =>
           [image_entry_of output_dir save_images (page_num + 1) img_num r]
       | Raises _ => []
       end;
     fx_urls := []; fx_numbers := []; fx_dirs := [];
     fx_files :=
       match fitz_extract_image pdf_document xref with
       | Returns bi =>
           if save_images
           then [(image_filename output_dir (page_num + 1) img_num (image_ext bi),
                  image_bytes bi)]
           else []
       | Raises _ => []
       end;
     fx_stdout :=
       match image_result w pdf_document xref with
       | Returns _ => []
       | Raises e => [error_line img_num (page_num + 1) e]
       end;
     fx_handles := [];
     fx_trace :=
       EvExtractImage (page_num + 1) img_num ::
         match fitz_extract_image pdf_document xref with
         | Returns bi =>
             (if save_images
              then [EvWriteFile (image_filename output_dir (page_num + 1)
                                   img_num (image_ext bi))]
              else [])
             ++ [EvImageOpen (page_num + 1) img_num]
         | Raises _ => []
         end |}.

(** One turn of the loop over the pages of the PyMuPDF document. *)
Definition fitz_page_outcome (images : outcome (list Z)) : outcome unit :=
  match images with
  | Returns _ => Returns tt
  | Raises e => Raises e
  end.

Definition found_line (count page : nat) : string :=
  "Found " +:+ pretty count +:+ " images on page " +:+ pretty page.

Definition fitz_page_fx (w : world) (pdf_document : fitz_document)
    (output_dir : string) (save_images : bool) (page_num : nat)
    (images : outcome (list Z)) : effects :=
  fx_event (EvGetImages (page_num + 1)) ⊕
  match images with
  | Returns image_list =>
      fx_print (found_line (length image_list) (page_num + 1)) ⊕
      fx_concat ((λ it, image_fx w pdf_document output_dir save_images
                          page_num it.1 it.2) <$> enumerate 1 image_list)
  | Raises _ => fx_empty
  end.

Definition fitz_pages_run (w : world) (pdf_document : fitz_document)
    (output_dir : string) (save_images : bool) : outcome unit * effects :=
  in_sequence
    (imap (λ page_num images,
             (fitz_page_outcome images,
              fitz_page_fx w pdf_document output_dir save_images page_num images))
       (fitz_pages pdf_document)).

Definition processing_line (page : nat) : string :=
  "Processing page " +:+ pretty page +:+ " for text and tables...".

Definition text_pages_run (w : world) (pages : list plumber_page)
    : outcome unit * effects :=
  in_sequence
    ((λ it, (text_outcome it.2,
             fx_print (processing_line it.1) ⊕ text_fx w it.1 it.2))
       <$> enumerate 1 pages).

(** The whole of [extract_all]: its outcome and its effects. *)
Definition run_outcome (w : world) (self : PDFReader) (save_images : bool)
    (output_dir : string) : outcome nat :=
  match fitz_open w (pdf_path self) with
  | Raises e => Raises e
  | Returns pdf_document =>
      match (fitz_pages_run w pdf_document output_dir save_images).1 with
      | Raises e => Raises e
      | Returns _ =>
          match pdfplumber_open w (pdf_path self) with
          | Raises e => Raises e
          | Returns pages =>
              match (text_pages_run w pages).1 with
              | Raises e => Raises e
              | Returns _ => Returns (data self)
              end
          end
      end
  end.

Definition run_fx (w : world) (self : PDFReader) (save_images : bool)
    (output_dir : string) : effects :=
  (if save_images then fx_makedirs output_dir else fx_empty) ⊕
  fx_print "Extracting images..." ⊕
  fx_event (EvFitzOpen (pdf_path self)) ⊕
  match fitz_open w (pdf_path self) with
  | Raises _ => fx_empty
  | Returns pdf_document =>
      fx_handle (Opened (FitzDocument (pdf_path self))) ⊕
      (fitz_pages_run w pdf_document output_dir save_images).2 ⊕
      match (fitz_pages_run w pdf_document output_dir save_images).1 with
      | Raises _ => fx_empty
      | Returns _ =>
          fx_event (EvFitzClose (pdf_path self)) ⊕
          fx_handle (Closed (FitzDocument (pdf_path self))) ⊕
          fx_event (EvPlumberOpen (pdf_path self)) ⊕
          match pdfplumber_open w (pdf_path self) with
          | Raises _ => fx_empty
          | Returns pages =>
              fx_handle (Opened (PlumberPDF (pdf_path self))) ⊕
              (text_pages_run w pages).2 ⊕
              fx_event (EvPlumberClose (pdf_path self)) ⊕
              fx_handle (Closed (PlumberPDF (pdf_path self)))
          end
      end
  end.


(** The calls made for one image. *)
Definition image_events (w : world) (pdf_document : fitz_document)
    (output_dir : string) (save_images : bool) (page_num img_num : nat)
    (xref : Z) : list event :=
  EvExtractImage (page_num + 1) img_num ::
    match fitz_extract_image pdf_document xref with
    | Returns bi =>
        (if save_images
         then [EvWriteFile (image_filename output_dir (page_num + 1)
                              img_num (image_ext bi))]
         else [])
        ++ [EvImageOpen (page_num + 1) img_num]
    | Raises _ => []
    end.

(** The calls made in the first pass for the page at index [page_num]
    whose image list is [image_list]. *)
Definition page_image_events (w : world) (pdf_document : fitz_document)
    (output_dir : string) (save_images : bool) (page_num : nat)
    (image_list : list Z) : list event :=
  EvGetImages (page_num + 1) ::
    concat ((λ it, image_events w pdf_document output_dir save_images
                     page_num it.1 it.2) <$> enumerate 1 image_list).

(** The entries recorded for the page at index [page_num]: one for each
    image of the list that is extracted and decoded, under its position in
    the list. *)
Definition page_recorded_images (w : world) (pdf_document : fitz_document)
    (output_dir : string) (save_images : bool) (page_num : nat)
    (image_list : list Z) : list image_entry :=
  concat ((λ it,
             match image_result w pdf_document it.2 with
             | Returns r =>
                 [image_entry_of output_dir save_images (page_num + 1) it.1 r]
             | Raises _ => []
             end) <$> enumerate 1 image_list).


(** The same over all pages of the document, in page order. *)
Definition per_fitz_page {X : Type} (f : nat → list Z → list X)
    (pdf_document : fitz_document) : list X :=
  concat (imap (λ page_num images,
                  match images with
                  | Returns image_list => f page_num image_list
                  | Raises _ => []
                  end) (fitz_pages pdf_document)).

Definition recorded_images (w : world) (pdf_document : fitz_document)
    (output_dir : string) (save_images : bool) : list image_entry :=
  per_fitz_page (page_recorded_images w pdf_document output_dir save_images)
    pdf_document.

End New.

(** *** [pdf_reader_program.py]: the lightweight variant *)

Module Program.

Definition image_filename (output_dir : string) (page img_num : nat) : string :=
  output_dir +:+ "/page" +:+ pretty page +:+ "_img" +:+ pretty img_num
    +:+ ".png".

Definition extract_all (w : world) (self : PDFReader) (save_images : bool)
    (output_dir : string) : M nat :=
  when save_images (makedirs output_dir) ;;
  with_pdfplumber w (pdf_path self) (λ pages,
    for_each (λ '(page_num, page),
      print ("Processing page " +:+ pretty page_num +:+ "...") ;;
      extract_text_and_tables w self page_num page ;;
      when save_images
        (log (EvPageImages page_num) ;;
         images ← lift (page_images page);
         for_each (λ '(img_num, _),
           update_data self
             (extend_images
                [{| image_page := page_num; image_number := img_num;
                    image_saved_as :=
                      Some (image_filename output_dir page_num img_num);
                    image_format := None; image_size := None;
                    image_file_size := None |}]))
           (enumerate 1 images)))
      (enumerate 1 pages)) ;;
  mret (data self).


(** One turn of the loop over the pages. *)
Definition page_outcome (save_images : bool) (page : plumber_page)
    : outcome unit :=
  match text_outcome page with
  | Raises e => Raises e
  | Returns _ =>
      if save_images
      then match page_images page with
           | Raises e => Raises e
           | Returns _ => Returns tt
           end
      else Returns tt
  end.

Definition image_entries (output_dir : string) (save_images : bool)
    (p : nat) (page : plumber_page) : list image_entry :=
  match text_outcome page, save_images, page_images page with
  | Returns _, true, Returns images =>
      (λ it, {| image_page := p; image_number := it.1;
                image_saved_as := Some (image_filename output_dir p it.1);
                image_format := None; image_size := None;
                image_file_size := None |})
        <$> enumerate 1 images
  | _, _, _ => []
  end.

Definition processing_line (page : nat) : string :=
  "Processing page " +:+ pretty page +:+ "...".

Definition page_fx (w : world) (output_dir : string) (save_images : bool)
    (p : nat) (page : plumber_page) : effects :=
  fx_print (processing_line p) ⊕ text_fx w p page ⊕
  match text_outcome page, save_images with
  | Returns _, true => fx_event (EvPageImages p)
  | _, _ => fx_empty
  end ⊕
  fx_add_images (image_entries output_dir save_images p page).

Definition pages_run (w : world) (output_dir : string) (save_images : bool)
    (pages : list plumber_page) : outcome unit * effects :=
  in_sequence
    ((λ it, (page_outcome save_images it.2,
             page_fx w output_dir save_images it.1 it.2))
       <$> enumerate 1 pages).

(** The whole of [extract_all]: its outcome and its effects. *)
Definition run_outcome (w : world) (self : PDFReader) (save_images : bool)
    (output_dir : string) : outcome nat :=
  match pdfplumber_open w (pdf_path self) with
  | Raises e => Raises e
  | Returns pages =>
      match (pages_run w output_dir save_images pages).1 with
      | Raises e => Raises e
      | Returns _ => Returns (data self)
      end
  end.

Definition run_fx (w : world) (self : PDFReader) (save_images : bool)
    (output_dir : string) : effects :=
  (if save_images then fx_makedirs output_dir else fx_empty) ⊕
  fx_event (EvPlumberOpen (pdf_path self)) ⊕
  match pdfplumber_open w (pdf_path self) with
  | Raises _ => fx_empty
  | Returns pages =>
      fx_handle (Opened (PlumberPDF (pdf_path self))) ⊕
      (pages_run w output_dir save_images pages).2 ⊕
      fx_event (EvPlumberClose (pdf_path self)) ⊕
      fx_handle (Closed (PlumberPDF (pdf_path self)))
  end.


(** Every step of every page returns. *)
Definition pages_return (save_images : bool) (pages : list plumber_page)
    : Prop :=
  Forall (λ page, page_outcome save_images page = Returns tt) pages.

(** The calls made for a page on which every step returns. *)
Definition page_steps (save_images : bool) (p : nat) (page : plumber_page)
    : list event :=
  page_steps p page ++ (if save_images then [EvPageImages p] else []).

End Program.

(** ** Example documents *)

Module Examples.

Definition png : base_image :=
  {| image_bytes := [Byte.x89; Byte.x50; Byte.x4e; Byte.x47];
     image_ext := "png" |}.

(** [report.pdf] has two pages.  Page 1 has a text layer, one table and
    three embedded images, of which the second cannot be extracted; page 2
    is a scan: no text, no table, one image. *)
Definition report_fitz : fitz_document :=
  {| fitz_pages := [Returns [10; 11; 12]%Z; Returns [10%Z]];
     fitz_extract_image xref :=
       if (xref =? 11)%Z then Raises "bad image object" else Returns png |}.

Definition report_pages : list plumber_page :=
  [ {| page_extract_text := Returns (Some "Total: 42 items at http://a.com/x");
       page_extract_tables := Returns [[[Some "item"; None]; [Some "42"; Some ""]]];
       page_images := Returns [ {| img_x0 := 0; img_top := 0;
                                   img_x1 := 10; img_bottom := 10 |} ] |};
    {| page_extract_text := Returns None;
       page_extract_tables := Returns [];
       page_images := Returns [ {| img_x0 := 0; img_top := 0;
                                   img_x1 := 600; img_bottom := 800 |} ] |} ].

(** [damaged.pdf] can be opened, but the image list of its only page
    cannot be read. *)
Definition damaged_fitz : fitz_document :=
  {| fitz_pages := [Raises "cannot load page"];
     fitz_extract_image _ := Raises "bad image object" |}.

Definition damaged_pages : list plumber_page :=
  [ {| page_extract_text := Returns (Some "page one");
       page_extract_tables := Returns [];
       page_images := Returns [] |} ].

(** A file system with these two documents and nothing else. *)
Definition sample : world :=
  {| fitz_open path :=
       if String.eqb path "report.pdf" then Returns report_fitz
       else if String.eqb path "damaged.pdf" then Returns damaged_fitz
       else Raises "no such file";
     pdfplumber_open path :=
       if String.eqb path "report.pdf" then Returns report_pages
       else if String.eqb path "damaged.pdf" then Returns damaged_pages
       else Raises "no such file";
     pil_size _ := Returns (640, 480);
     set_order := elements |}.


(** An instance for the file at [path], as [PDFReader(path)] makes it in a
    program that has made no other, and the state right after. *)
Definition reader (path : string) : PDFReader :=
  {| pdf_path := path; data := 0 |}.

Definition fresh : state := set_heap (λ h, <[0 := empty_data]> h) initial_state.

End Examples.

(** ** The recognizers as the specification words them *)

Module Spec.

(** A numeric token at the start of [s]: an optional leading minus, one or
    more digits, an optional decimal point, optional trailing digits, each
    part as long as it can be. *)
Definition number_token_at (s : string) : option string :=
  let '(minus, s1) :=
    match s with String "-" s' => ("-", s') | _ => ("", s) end in
  let '(ds, s2) := Num.span_digits s1 in
  if Str.is_empty ds then None
  else
    let '(point, s3) :=
      match s2 with String "." s' => (".", s') | _ => ("", s2) end in
    let '(fs, _) := Num.span_digits s3 in
    Some (minus +:+ ds +:+ point +:+ fs).

(** The tokens of a text in left-to-right order of appearance, each one
    starting where the one before it ended or later. *)
Fixpoint number_tokens_go (s : string) (skip : nat) : list string :=
  match skip with
  | S n =>
      match s with
      | String _ s' => number_tokens_go s' n
      | "" => []
      end
  | 0 =>
      match s with
      | String _ s' =>
          match number_token_at s with
          | Some tok => tok :: number_tokens_go s' (String.length tok - 1)
          | None => number_tokens_go s' 0
          end
      | "" => []
      end
  end.

Definition number_tokens (s : string) : list string := number_tokens_go s 0.

(** The characters that the specification lists for the part of a URL
    after [://]: letters, digits, and [$ - _ @ . & + ! * ( ) ,]. *)
Definition listed_char (a : ascii) : bool :=
  Re.in_class [Re.Range "a" "z"; Re.Range "A" "Z"; Re.Range "0" "9"] a
  || Str.mem a "$-_@.&+!*(),".

Definition hex_digit (a : ascii) : bool :=
  Re.in_class [Re.Range "0" "9"; Re.Range "a" "f"; Re.Range "A" "F"] a.

(** A run of listed characters and percent-encoded octets. *)
Fixpoint listed_body (s : string) : bool :=
  match s with
  | "" => true
  | String a s' =>
      (listed_char a && listed_body s')
      || match a, s' with
         | "%"%char, String h1 (String h2 s'') =>
             hex_digit h1 && hex_digit h2 && listed_body s''
         | _, _ => false
         end
  end.

(** [http] or [https], then [://], then a non-empty listed body. *)
Definition listed_url (u : string) : bool :=
  match u with
  | String "h" (String "t" (String "t" (String "p"
      (String ":" (String "/" (String "/" body)))))) =>
      negb (Str.is_empty body) && listed_body body
  | String "h" (String "t" (String "t" (String "p" (String "s"
      (String ":" (String "/" (String "/" body))))))) =>
      negb (Str.is_empty body) && listed_body body
  | _ => false
  end.

End Spec.

(** The characters that [url_pattern] accepts after [://]: the union of its
    four classes (the two hex digits of a percent-encoded octet, and the
    percent sign, belong to them as well). *)
Definition url_char (a : ascii) : bool :=
  Re.in_class [Re.Range "a" "z"; Re.Range "A" "Z"] a
  || Re.in_class [Re.Range "0" "9"] a
  || Re.in_class [Re.Range "$" "_"; Re.One "@"; Re.One "."; Re.One "&"; Re.One "+"] a
  || Re.in_class [Re.One "!"; Re.One "*"; Re.One "\"; Re.One "("; Re.One "\";
                  Re.One ")"; Re.One ","] a.

(** ** The recognizers as scans

    What [re.findall] comes to on the two patterns, without the engine: at
    each position a token function says whether a token starts there; the
    scan reports it and goes on behind it, or moves one character on. *)

Module Scan.

(** The longest prefix of [s] whose characters satisfy [p], and what follows
    it. *)
Fixpoint span (p : ascii → bool) (s : string) : string * string :=
  match s with
  | String a s' =>
      if p a then let '(run, rest) := span p s' in (String a run, rest)
      else ("", s)
  | "" => ("", "")
  end.

(** [s] behind the prefix [p], when [s] starts with [p]. *)
Fixpoint strip_prefix (p s : string) : option string :=
  match p, s with
  | "", _ => Some s
  | String c p', String a s' =>
      if Ascii.eqb a c then strip_prefix p' s' else None
  | String _ _, "" => None
  end.

Fixpoint tokens_go (token_at : string → option string) (s : string)
    (skip : nat) : list string :=
  match skip with
  | S n =>
      match s with
      | String _ s' => tokens_go token_at s' n
      | "" => []
      end
  | 0 =>
      match s with
      | String _ s' =>
          match token_at s with
          | Some tok => tok :: tokens_go token_at s' (String.length tok - 1)
          | None => tokens_go token_at s' 0
          end
      | "" => []
      end
  end.

Definition tokens (token_at : string → option string) (s : string)
    : list string :=
  tokens_go token_at s 0.

(** A URL at the start of [s], and what follows it: [http], an [s] when
    there is one, [://], and the longest run of accepted characters, which
    is not empty. *)
Definition url_split_at (s : string) : option (string * string) :=
  match strip_prefix "http" s with
  | None => None
  | Some s1 =>
      let '(scheme, s2) :=
        match s1 with String "s" s' => ("https", s') | _ => ("http", s1) end in
      match strip_prefix "://" s2 with
      | None => None
      | Some s3 =>
          let '(body, rest) := span url_char s3 in
          if Str.is_empty body then None
          else Some (scheme +:+ "://" +:+ body, rest)
      end
  end.

Definition url_token_at (s : string) : option string :=
  fst <$> url_split_at s.

(** No character of [s] is a digit. *)
Definition no_digit (s : string) : bool :=
  Str.forallb (λ a, negb (Num.is_digit a)) s.

End Scan.

(** ** The reports

    [print_summary], [save_text_to_file] and [save_tables_to_csv] read the
    dictionary of the instance and write to the standard output and to files.
    The two scripts have the same text for them, except for the lines about
    images in [print_summary].

    A line that the scripts print is a [string]; where a literal of the source
    has a character beyond code point 255 (the pictographs in front of the
    headings), the line holds the bytes of its UTF-8 form.  The standard
    output accepts every line, and a file can always be opened for
    writing. *)

(** [x[key]] for a key that an entry may lack. *)
Definition getitem {A : Type} (key : string) (x : option A) : outcome A :=
  match x with
  | Some a => Returns a
  | None => Raises ("KeyError: '" +:+ key +:+ "'")
  end.

(** [self.data], read through the address of the instance. *)
Definition read_data (self : PDFReader) : M pdf_data :=
  λ st,
    match heap st !! data self with
    | Some d => (Returns d, st)
    | None =>
        (Raises "AttributeError: 'PDFReader' object has no attribute 'data'", st)
    end.

(** The line feed, ["\n"]. *)
Definition nl : string := String "010" "".

(** [s * n] *)
Fixpoint times (s : string) (n : nat) : string :=
  match n with
  | O => ""
  | S n' => s +:+ times s n'
  end.

(** [''.join(l)] *)
Definition join (l : list string) : string := foldr String.append "" l.

(** [sum(l)] *)
Definition sum (l : list nat) : nat := foldr Nat.add O l.

(** *** Text files *)

Module Text.

(** What writing in text mode does to a text when [newline] is not given:
    each line feed becomes the line separator of the platform. *)
Fixpoint translate (linesep : string) (s : string) : string :=
  match s with
  | "" => ""
  | String a s' =>
      (if Ascii.eqb a "010" then linesep else String a "")
        +:+ translate linesep s'
  end.

(** UTF-8 of a character below code point 256: one byte below 128, two
    bytes from there on. *)
Definition utf8_char (a : ascii) : list Byte.byte :=
  let n := N_of_ascii a in
  if (n <? 128)%N then [byte_of_ascii a]
  else [byte_of_ascii (ascii_of_N (192 + n / 64));
        byte_of_ascii (ascii_of_N (128 + n mod 64))].

Fixpoint utf8 (s : string) : list Byte.byte :=
  match s with
  | "" => []
  | String a s' => utf8_char a ++ utf8 s'
  end.

End Text.

(** [with open(name, 'w', encoding='utf-8') as f:] and in it the calls
    [f.write(x)] for the texts [x] of [writes], in this order: the file is
    made anew, and when it is closed it holds what was written. *)
Definition with_open_w (linesep : string) (name : string)
    (writes : list string) : M unit :=
  write_file name (Text.utf8 (Text.translate linesep (join writes))).

(** *** [csv.writer(f).writerows(rows)] in the dialect [excel]

    Fields are separated by commas and records end in a carriage return and
    a line feed.  [None] is written as the empty field.  A field that holds a
    comma, a double quote, a carriage return or a line feed is put between
    double quotes, with every double quote in it doubled.  A record of one
    empty field is written as two double quotes. *)

Module Csv.









End Csv.


(** *** [save_text_to_file] *)

(** ["=" * 60] *)
Definition rule : string := times "=" 60.

(** The five [f.write] calls for one entry of [self.data['text']]. *)
Definition text_writes (item : text_entry) : list string :=
  [ nl +:+ rule +:+ nl;
    "PAGE " +:+ pretty (text_page item) +:+ nl;
    rule +:+ nl;
    text_content item;
    nl ].

Definition text_saved_line (output_file : string) : string :=
  nl +:+ "✅ Text saved to: " +:+ output_file.

Definition save_text_to_file (linesep : string) (self : PDFReader)
    (output_file : string) : M unit :=
  d ← read_data self;
  with_open_w linesep output_file (data_text d ≫= text_writes) ;;
  print (text_saved_line output_file).

(** *** [save_tables_to_csv] *)




(** *** [print_summary] *)

(** [f"{n / 1024:.2f}"] for a byte count [n] below [2^53], where the
    quotient is exact: [n / 1024] in hundredths, rounded to the nearest and
    on a tie to the even one, with two digits behind the point. *)
Definition hundredths_of_kb (n : nat) : nat :=
  let q := (n * 25 / 256)%nat in
  let r := (n * 25 mod 256)%nat in
  if (128 <? r)%nat || ((r =? 128)%nat && Nat.odd q) then S q else q.

Definition two_decimals (h : nat) : string :=
  pretty (h / 100)%nat +:+ "." +:+ (if (h mod 100 <? 10)%nat then "0" else "")
    +:+ pretty (h mod 100)%nat.

Definition kb_text (n : nat) : string := two_decimals (hundredths_of_kb n).

(** [len(table['data'][0]) if table['data'] else 0] *)
Definition columns (t : table) : nat :=
  match t with
  | [] => O
  | row :: _ => length row
  end.

Definition table_line (t : table_entry) : string :=
  "   - Page " +:+ pretty (table_page t) +:+ ", Table "
    +:+ pretty (table_number t) +:+ ": " +:+ pretty (length (table_data t))
    +:+ "x" +:+ pretty (columns (table_data t)).

(** The lines up to the heading for images. *)
Definition summary_head (d : pdf_data) : M unit :=
  print (nl +:+ rule) ;;
  print "PDF EXTRACTION SUMMARY" ;;
  print rule ;;
  ( let total_text := sum ((λ item, String.length (text_content item))
                             <$> data_text d) in
    print (nl +:+ "📄 TEXT:") ;;
    print ("   Pages with text: " +:+ pretty (length (data_text d))) ;;
    print ("   Total characters: " +:+ pretty total_text) ) ;;
  print (nl +:+ "📊 TABLES:") ;;
  print ("   Total tables found: " +:+ pretty (length (data_tables d))) ;;
  for_each (λ t, print (table_line t)) (data_tables d) ;;
  print (nl +:+ "🖼️  IMAGES:").

(** [set(item['url'] for item in self.data['urls'])] *)
Definition unique_urls (d : pdf_data) : gset string :=
  list_to_set (url_url <$> data_urls d).

(** The lines from the heading for URLs on. *)
Definition summary_tail (w : world) (d : pdf_data) : M unit :=
  print (nl +:+ "🔗 URLs:") ;;
  print ("   Total URLs found: " +:+ pretty (length (data_urls d))) ;;
  for_each (λ url, print ("   - " +:+ url))
    (take 5 (set_order w (unique_urls d))) ;;
  when (bool_decide (5 < size (unique_urls d))%nat)
    (print ("   ... and " +:+ pretty (size (unique_urls d) - 5)%nat +:+ " more")) ;;
  ( let total_numbers := sum ((λ item, length (numbers_numbers item))
                                <$> data_numbers d) in
    print (nl +:+ "🔢 NUMBERS:") ;;
    print ("   Total numbers found: " +:+ pretty total_numbers) ) ;;
  print (nl +:+ rule).

(** The effects of statements that only print. *)
Definition fx_prints (lines : list string) : effects :=
  {| fx_text := []; fx_tables := []; fx_images := []; fx_urls := [];
     fx_numbers := []; fx_dirs := []; fx_files := []; fx_stdout := lines;
     fx_handles := []; fx_trace := [] |}.

(** [pdf_reader_new.py], lines 151 to 194. *)
Module NewReport.

Definition image_line (img : image_entry) : M unit :=
  match image_saved_as img with
  | Some saved_as =>
      size ← lift (getitem "size" (image_size img));
      file_size ← lift (getitem "file_size" (image_file_size img));
      print ("   - Page " +:+ pretty (image_page img) +:+ ": " +:+ saved_as
               +:+ " (" +:+ size +:+ ", " +:+ kb_text file_size +:+ " KB)")
  | None =>
      size ← lift (getitem "size" (image_size img));
      file_size ← lift (getitem "file_size" (image_file_size img));
      print ("   - Page " +:+ pretty (image_page img) +:+ ": Image "
               +:+ pretty (image_number img)
               +:+ " (" +:+ size +:+ ", " +:+ kb_text file_size +:+ " KB)")
  end.

Definition print_summary (w : world) (self : PDFReader) : M unit :=
  d ← read_data self;
  summary_head d ;;
  print ("   Total images extracted: " +:+ pretty (length (data_images d))) ;;
  for_each image_line (data_images d) ;;
  summary_tail w d.

End NewReport.

(** [pdf_reader_program.py], lines 99 to 137. *)
Module ProgramReport.

Definition print_summary (w : world) (self : PDFReader) : M unit :=
  d ← read_data self;
  summary_head d ;;
  print ("   Total images found: " +:+ pretty (length (data_images d))) ;;
  summary_tail w d.

End ProgramReport.

(** * Facts *)

Local Open Scope nat_scope.

(** ** Strings *)

Module StrFacts.

Lemma app_cons a s t : String a s +:+ t = String a (s +:+ t).
Proof. reflexivity. Qed.

Lemma app_nil_l s : "" +:+ s = s.
Proof. reflexivity. Qed.

Lemma app_nil_r s : s +:+ "" = s.
Proof.
  induction s as [|a s IH]; [reflexivity|]. rewrite app_cons. by f_equal.
Qed.

Lemma app_assoc s t u : (s +:+ t) +:+ u = s +:+ (t +:+ u).
Proof.
  induction s as [|a s IH]; [reflexivity|]. rewrite !app_cons. by f_equal.
Qed.

Lemma app_length s t :
  String.length (s +:+ t) = String.length s + String.length t.
Proof.
  induction s as [|a s IH]; [reflexivity|]. rewrite app_cons. simpl. lia.
Qed.

Lemma app_eq_nil s t : s +:+ t = "" → s = "" ∧ t = "".
Proof. destruct s; [rewrite app_nil_l; by intros ->|]. by rewrite app_cons. Qed.

Lemma take_app s t : Str.take (String.length s) (s +:+ t) = s.
Proof.
  induction s as [|a s IH]; [by destruct t|].
  rewrite app_cons. simpl. by f_equal.
Qed.

Lemma forallb_app p s t :
  Str.forallb p (s +:+ t) = Str.forallb p s && Str.forallb p t.
Proof.
  induction s as [|a s IH]; [reflexivity|].
  rewrite app_cons. simpl. rewrite IH. by rewrite andb_assoc.
Qed.

Lemma mem_app c s t : Str.mem c (s +:+ t) = Str.mem c s || Str.mem c t.
Proof.
  induction s as [|a s IH]; [reflexivity|].
  rewrite app_cons. simpl. rewrite IH. by rewrite orb_assoc.
Qed.

Lemma is_empty_false s : Str.is_empty s = false ↔ s ≠ "".
Proof. by destruct s. Qed.

End StrFacts.

(** ** The engine reports only matches of the pattern *)

Module ReFacts.
Import Re StrFacts.

Lemma repeat_greedy_sound {A} (r : regex)
    (step : string → (string → option A) → option A) :
  (∀ s k x, step s k = Some x →
     ∃ s1 s2, s = s1 +:+ s2 ∧ matches r s1 ∧ k s2 = Some x) →
  ∀ n s k x, repeat_greedy step k n s = Some x →
    ∃ s1 s2, s = s1 +:+ s2 ∧ matches (Star r) s1 ∧ k s2 = Some x.
Proof.
  intros Hstep n. induction n as [|n IH]; intros s k x H; simpl in H.
  - exists "", s. split_and!; [done|constructor|done].
  - destruct (step s _) as [y|] eqn:E.
    + injection H as ->.
      apply Hstep in E as (s1 & s2 & -> & Hm & Hk).
      destruct (_ <? _)%nat; [|done].
      apply IH in Hk as (t1 & t2 & -> & Hm' & Hk).
      exists (s1 +:+ t1), t2. rewrite app_assoc.
      split_and!; [done|by constructor|done].
    + exists "", s. split_and!; [done|constructor|done].
Qed.

Lemma bt_sound {A} (r : regex) :
  ∀ s (k : string → option A) x, bt r s k = Some x →
    ∃ s1 s2, s = s1 +:+ s2 ∧ matches r s1 ∧ k s2 = Some x.
Proof.
  induction r as [c|items|r1 IH1 r2 IH2|r1 IH1 r2 IH2|r IH|r IH|r IH];
    intros s k x H; simpl in H.
  - destruct s as [|a s]; [done|].
    destruct (Ascii.eqb a c) eqn:E; [|done]. apply Ascii.eqb_eq in E as ->.
    exists (String c ""), s. split_and!; [done|constructor|done].
  - destruct s as [|a s]; [done|].
    destruct (in_class items a) eqn:E; [|done].
    exists (String a ""), s. split_and!; [done|by constructor|done].
  - apply IH1 in H as (s1 & s2 & -> & Hm1 & H).
    apply IH2 in H as (t1 & t2 & -> & Hm2 & H).
    exists (s1 +:+ t1), t2. rewrite app_assoc.
    split_and!; [done|by constructor|done].
  - destruct (bt r1 s k) as [y|] eqn:E.
    + injection H as ->. apply IH1 in E as (s1 & s2 & -> & Hm & Hk).
      exists s1, s2. split_and!; [done|by apply M_AltL|done].
    + apply IH2 in H as (s1 & s2 & -> & Hm & Hk).
      exists s1, s2. split_and!; [done|by apply M_AltR|done].
  - destruct (bt r s k) as [y|] eqn:E.
    + injection H as ->. apply IH in E as (s1 & s2 & -> & Hm & Hk).
      exists s1, s2. split_and!; [done|by apply M_OptSome|done].
    + exists "", s. split_and!; [done|constructor|done].
  - by apply (repeat_greedy_sound r (bt r) IH) in H.
  - apply IH in H as (s1 & s2 & -> & Hm1 & H).
    apply (repeat_greedy_sound r (bt r) IH) in H as (t1 & t2 & -> & Hm2 & H).
    exists (s1 +:+ t1), t2. rewrite app_assoc.
    split_and!; [done|by constructor|done].
Qed.

Lemma match_at_sound r s adv tok :
  match_at r s adv = Some tok → ∃ rest, s = tok +:+ rest ∧ matches r tok.
Proof.
  unfold match_at. intros H.
  apply bt_sound in H as (s1 & s2 & -> & Hm & H).
  destruct (_ && _); [done|]. injection H as <-.
  rewrite app_length.
  replace (String.length s1 + String.length s2 - String.length s2)
    with (String.length s1) by lia.
  rewrite take_app. by exists s2.
Qed.

Lemma findall_go_skip r tok rest :
  findall_go r (tok +:+ rest) (String.length tok) = findall_go r rest 0.
Proof.
  induction tok as [|a tok IH]; [done|]. by rewrite app_cons.
Qed.

Lemma findall_go_0 r s :
  findall_go r s 0 =
    match match_at r s false with
    | None => advance r s
    | Some "" =>
        "" :: match match_at r s true with
              | Some tok => tok :: resume r s tok
              | None => advance r s
              end
    | Some tok => tok :: resume r s tok
    end.
Proof. by destruct s. Qed.

(** What [findall] does once a match [tok] has been found at the start of
    [tok +:+ rest]. *)
Lemma resume_app r tok rest :
  resume r (tok +:+ rest) tok
  = match tok with
    | "" => advance r rest
    | _ => findall_go r rest 0
    end.
Proof.
  destruct tok as [|a tok]; [by destruct rest|].
  unfold resume. rewrite app_cons. simpl. rewrite Nat.sub_0_r.
  apply findall_go_skip.
Qed.

Lemma findall_occurrences_aux r n :
  ∀ s, String.length s ≤ n → occurrences r s (findall_go r s 0).
Proof.
  induction n as [|n IH]; intros s Hn.
  - destruct s; [|simpl in Hn; lia]. rewrite findall_go_0.
    destruct (match_at r "" false) as [tok|] eqn:E; [|constructor].
    apply match_at_sound in E as (rest & Hs & Hm).
    symmetry in Hs. apply app_eq_nil in Hs as [-> ->].
    apply (occ_match r "" ""); [done|].
    destruct (match_at r "" true) as [tok|] eqn:E'; [|constructor].
    apply match_at_sound in E' as (rest & Hs & Hm').
    symmetry in Hs. apply app_eq_nil in Hs as [-> ->].
    apply (occ_match r "" ""); [done|constructor].
  - assert (Hadv : ∀ s, String.length s ≤ S n → occurrences r s (advance r s)).
    { intros [|a s'] Hs; [constructor|]. apply occ_skip, IH. simpl in Hs. lia. }
    assert (Hres : ∀ tok rest, String.length (tok +:+ rest) ≤ S n →
              matches r tok →
              occurrences r (tok +:+ rest)
                (tok :: resume r (tok +:+ rest) tok)).
    { intros tok rest Hs Hm. rewrite resume_app.
      apply occ_match; [done|].
      destruct tok as [|a tok].
      - destruct rest as [|b rest]; [constructor|].
        apply occ_skip, IH. simpl in Hs. lia.
      - apply IH. rewrite app_cons in Hs. simpl in Hs.
        rewrite app_length in Hs. lia. }
    rewrite findall_go_0.
    destruct (match_at r s false) as [tok|] eqn:E; [|by apply Hadv].
    apply match_at_sound in E as (rest & Hs & Hm).
    destruct tok as [|b tok].
    + apply (occ_match r "" s); [done|].
      destruct (match_at r s true) as [tok|] eqn:E'; [|by apply Hadv].
      apply match_at_sound in E' as (rest' & Hs' & Hm').
      assert (H := Hres tok rest'). rewrite <- Hs' in H. by apply H.
    + assert (H := Hres (String b tok) rest). rewrite <- Hs in H. by apply H.
Qed.

Lemma findall_occurrences r s : occurrences r s (findall r s).
Proof. by apply (findall_occurrences_aux r (String.length s)). Qed.

Lemma occurrences_matches r s toks :
  occurrences r s toks → Forall (matches r) toks.
Proof. induction 1; [constructor|done|by constructor]. Qed.

Lemma findall_matches r s tok : tok ∈ findall r s → matches r tok.
Proof.
  intros H. eapply Forall_forall in H; [done|].
  eapply occurrences_matches, findall_occurrences.
Qed.

End ReFacts.

(** ** The number pattern, read off character by character *)

Module NumberFacts.
Import Re StrFacts ReFacts.

Lemma digit_class a : in_class [Range "0" "9"] a = Num.is_digit a.
Proof. unfold in_class, Num.is_digit. simpl. by rewrite orb_false_r. Qed.

Lemma span_digits_app s :
  s = (Num.span_digits s).1 +:+ (Num.span_digits s).2.
Proof.
  induction s as [|a s IH]; [done|]. simpl.
  destruct (Num.is_digit a); [|done].
  destruct (Num.span_digits s) as [ds rest]. simpl in *.
  rewrite app_cons. by f_equal.
Qed.

Lemma span_digits_digits s :
  Str.forallb Num.is_digit (Num.span_digits s).1 = true.
Proof.
  induction s as [|a s IH]; [done|]. simpl.
  destruct (Num.is_digit a) eqn:E; [|done].
  destruct (Num.span_digits s) as [ds rest]. simpl in *. by rewrite E.
Qed.

Lemma span_digits_rest s : Num.no_digit_ahead (Num.span_digits s).2.
Proof.
  induction s as [|a s IH]; [done|]. simpl.
  destruct (Num.is_digit a) eqn:E; [|done].
  by destruct (Num.span_digits s) as [ds rest].
Qed.

Lemma span_digits_stop s : Num.no_digit_ahead s → Num.span_digits s = ("", s).
Proof. destruct s as [|a s]; [done|]. simpl. by intros ->. Qed.

Lemma span_digits_exact ds rest :
  Str.forallb Num.is_digit ds = true → Num.no_digit_ahead rest →
  Num.span_digits (ds +:+ rest) = (ds, rest).
Proof.
  intros Hds Hrest. induction ds as [|a ds IH].
  - by apply span_digits_stop.
  - rewrite app_cons. simpl in *. apply andb_true_iff in Hds as [-> Hds].
    by rewrite IH.
Qed.

(** A greedy repetition of [\d] in front of a continuation that always
    accepts takes the longest run of digits and never comes back. *)
Lemma repeat_digits {A} (k : string → option A) n s :
  (∀ t, is_Some (k t)) → String.length s ≤ n →
  repeat_greedy (bt (Class [Range "0" "9"])) k n s = k (Num.span_digits s).2.
Proof.
  intros Hk. revert s. induction n as [|n IH]; intros s Hn.
  - destruct s; [done|simpl in Hn; lia].
  - destruct s as [|a s]; [done|].
    cbn [repeat_greedy bt Num.span_digits]. rewrite digit_class.
    destruct (Num.is_digit a); [|done].
    assert ((String.length s <? String.length (String a s)) = true) as ->
      by (apply Nat.ltb_lt; simpl; lia).
    rewrite IH by (simpl in Hn; lia).
    destruct (Num.span_digits s) as [ds rest]. simpl.
    by destruct (Hk rest) as [x ->].
Qed.

Local Abbreviation digit := (Class [Range "0" "9"]).
Local Abbreviation point_digits := (Cat (Opt (Chr ".")) (Star digit)).

(** [\.?\d*] in front of a continuation that always accepts. *)
Lemma bt_point_digits {A} (k : string → option A) s :
  (∀ t, is_Some (k t)) →
  bt point_digits s k = k (Num.span_digits (Num.strip_point s)).2.
Proof.
  intros Hk.
  assert (Hstar : ∀ t, bt (Star digit) t k = k (Num.span_digits t).2).
  { intros t. change (bt (Star digit) t k)
      with (repeat_greedy (bt digit) k (String.length t) t).
    by apply repeat_digits. }
  change (bt point_digits s k)
    with (match match s with
                | String a s' =>
                    if Ascii.eqb a "." then bt (Star digit) s' k else None
                | "" => None
                end with
          | Some x => Some x
          | None => bt (Star digit) s k
          end).
  destruct s as [|a s']; [by rewrite Hstar|].
  destruct (Ascii.eqb a ".") eqn:E.
  - apply Ascii.eqb_eq in E as ->. rewrite Hstar. cbn [Num.strip_point].
    by destruct (Hk (Num.span_digits s').2) as [x ->].
  - rewrite Hstar. apply Ascii.eqb_neq in E.
    by destruct a as [[] [] [] [] [] [] [] []].
Qed.

(** [\d+\.?\d*] in front of a continuation that always accepts. *)
Lemma bt_digits_point_digits {A} (k : string → option A) s :
  (∀ t, is_Some (k t)) →
  bt (Cat (Plus digit) point_digits) s k =
    (if Str.is_empty (Num.span_digits s).1 then None
     else k (Num.span_digits (Num.strip_point (Num.span_digits s).2)).2).
Proof.
  intros Hk.
  change (bt (Cat (Plus digit) point_digits) s k)
    with (match s with
          | String a s' =>
              if in_class [Range "0" "9"] a
              then repeat_greedy (bt digit) (λ t, bt point_digits t k)
                     (String.length s') s'
              else None
          | "" => None
          end).
  destruct s as [|a s']; [done|]. rewrite digit_class.
  cbn [Num.span_digits].
  destruct (Num.is_digit a); [|done].
  rewrite repeat_digits;
    [|intros t; rewrite bt_point_digits by done; apply Hk|done].
  rewrite bt_point_digits by done.
  by destruct (Num.span_digits s').
Qed.

(** The engine on [number_pattern], with a continuation that always
    accepts. *)
Lemma bt_number_pattern {A} (k : string → option A) s :
  (∀ t, is_Some (k t)) →
  bt number_pattern s k =
    (if Str.is_empty (Num.span_digits (Num.strip_minus s)).1 then None
     else k (Num.span_digits
               (Num.strip_point (Num.span_digits (Num.strip_minus s)).2)).2).
Proof.
  intros Hk.
  change (bt number_pattern s k)
    with (match match s with
                | String a s' =>
                    if Ascii.eqb a "-"
                    then bt (Cat (Plus digit) point_digits) s' k else None
                | "" => None
                end with
          | Some x => Some x
          | None => bt (Cat (Plus digit) point_digits) s k
          end).
  destruct s as [|a s']; [done|].
  destruct (Ascii.eqb a "-") eqn:E.
  - apply Ascii.eqb_eq in E as ->. rewrite !bt_digits_point_digits by done.
    cbn [Num.strip_minus].
    destruct (Str.is_empty (Num.span_digits s').1); [done|].
    by destruct (Hk (Num.span_digits
                       (Num.strip_point (Num.span_digits s').2)).2) as [x ->].
  - rewrite bt_digits_point_digits by done.
    apply Ascii.eqb_neq in E.
    by destruct a as [[] [] [] [] [] [] [] []].
Qed.

Lemma match_at_number s :
  match_at number_pattern s false = Spec.number_token_at s.
Proof.
  unfold match_at. rewrite bt_number_pattern by (intros t; by eexists).
  unfold Spec.number_token_at. cbn [andb].
  assert (Htake : ∀ tok rest,
            Str.take (String.length (tok +:+ rest) - String.length rest)
              (tok +:+ rest) = tok).
  { intros tok rest. rewrite app_length.
    replace (String.length tok + String.length rest - String.length rest)
      with (String.length tok) by lia.
    apply take_app. }
  assert (∃ minus,
            s = minus +:+ Num.strip_minus s ∧
            match s with String "-" s' => ("-", s') | _ => ("", s) end
            = (minus, Num.strip_minus s)) as (minus & Hs & ->).
  { destruct s as [|a s']; [by exists ""|].
    destruct (Ascii.eqb a "-") eqn:E.
    - apply Ascii.eqb_eq in E as ->. by exists "-".
    - exists "". apply Ascii.eqb_neq in E.
      by destruct a as [[] [] [] [] [] [] [] []]. }
  pose proof (span_digits_app (Num.strip_minus s)) as H1.
  destruct (Num.span_digits (Num.strip_minus s)) as [ds s2]. simpl in H1 |- *.
  destruct (Str.is_empty ds); [done|].
  assert (∃ point,
            s2 = point +:+ Num.strip_point s2 ∧
            match s2 with String "." s' => (".", s') | _ => ("", s2) end
            = (point, Num.strip_point s2)) as (point & Hs2 & ->).
  { destruct s2 as [|a s']; [by exists ""|].
    destruct (Ascii.eqb a ".") eqn:E.
    - apply Ascii.eqb_eq in E as ->. by exists ".".
    - exists "". apply Ascii.eqb_neq in E.
      by destruct a as [[] [] [] [] [] [] [] []]. }
  pose proof (span_digits_app (Num.strip_point s2)) as H3.
  destruct (Num.span_digits (Num.strip_point s2)) as [fs rest]. simpl in H3 |- *.
  f_equal.
  assert (s = (minus +:+ ds +:+ point +:+ fs) +:+ rest) as Hall.
  { rewrite !app_assoc. by rewrite <- H3, <- Hs2, <- H1. }
  rewrite Hall at 1 2. apply Htake.
Qed.

(** A token is a sign, digits, and either a point with more digits or
    nothing. *)
Lemma number_token_at_shape s tok :
  Spec.number_token_at s = Some tok →
  ∃ minus ds point fs,
    tok = minus +:+ ds +:+ point +:+ fs ∧
    (minus = "" ∨ minus = "-") ∧
    ds ≠ "" ∧ Str.forallb Num.is_digit ds = true ∧
    (point = "." ∨ point = "" ∧ fs = "") ∧
    Str.forallb Num.is_digit fs = true.
Proof.
  unfold Spec.number_token_at. intros H.
  assert (∃ minus s1, (minus = "" ∨ minus = "-") ∧
            match s with String "-" s' => ("-", s') | _ => ("", s) end
            = (minus, s1)) as (minus & s1 & Hminus & E).
  { destruct s as [|a s']; [by exists "", ""; auto|].
    destruct (Ascii.eqb a "-") eqn:E.
    - apply Ascii.eqb_eq in E as ->. exists "-", s'. auto.
    - exists "", (String a s'). split; [auto|]. apply Ascii.eqb_neq in E.
      by destruct a as [[] [] [] [] [] [] [] []]. }
  rewrite E in H. clear E.
  pose proof (span_digits_digits s1) as Hds.
  pose proof (span_digits_rest s1) as Hrest.
  destruct (Num.span_digits s1) as [ds s2]. simpl in Hds, Hrest.
  destruct (Str.is_empty ds) eqn:Hne; [done|].
  apply is_empty_false in Hne.
  assert (∃ point s3, (point = "." ∨ point = "" ∧ Num.no_digit_ahead s3) ∧
            match s2 with String "." s' => (".", s') | _ => ("", s2) end
            = (point, s3)) as (point & s3 & Hpoint & E).
  { destruct s2 as [|a s']; [by exists "", ""; auto|].
    destruct (Ascii.eqb a ".") eqn:E.
    - apply Ascii.eqb_eq in E as ->. exists ".", s'. auto.
    - exists "", (String a s'). split; [auto|]. apply Ascii.eqb_neq in E.
      by destruct a as [[] [] [] [] [] [] [] []]. }
  rewrite E in H. clear E.
  pose proof (span_digits_digits s3) as Hfs.
  pose proof (span_digits_stop s3) as Hstop.
  destruct (Num.span_digits s3) as [fs rest]. simpl in Hfs.
  injection H as <-. exists minus, ds, point, fs.
  split_and!; [done..| |done].
  destruct Hpoint as [->|[-> Hno]]; [by left|right].
  split; [done|]. specialize (Hstop Hno). by injection Hstop.
Qed.

Lemma number_token_at_nonempty s : Spec.number_token_at s ≠ Some "".
Proof.
  intros H. apply number_token_at_shape in H
    as (minus & ds & point & fs & Htok & _ & Hds & _).
  symmetry in Htok. apply app_eq_nil in Htok as [_ Htok].
  by apply app_eq_nil in Htok as [? _].
Qed.

(** The engine on [number_pattern] finds the tokens that the specification
    describes. *)
Lemma findall_go_number s :
  ∀ skip, findall_go number_pattern s skip = Spec.number_tokens_go s skip.
Proof.
  induction s as [|a s IH]; intros [|n]; [|done| |by apply IH].
  - rewrite findall_go_0, match_at_number. done.
  - rewrite findall_go_0, match_at_number.
    pose proof (number_token_at_nonempty (String a s)) as Hne.
    cbn [Spec.number_tokens_go].
    destruct (Spec.number_token_at (String a s)) as [[|b tok]|];
      [done| |by apply IH].
    unfold resume. by rewrite IH.
Qed.

Lemma findall_number s : findall number_pattern s = Spec.number_tokens s.
Proof. apply findall_go_number. Qed.

Lemma number_tokens_shape s :
  Forall (λ tok, ∃ t, Spec.number_token_at t = Some tok) (Spec.number_tokens s).
Proof.
  unfold Spec.number_tokens. generalize 0.
  induction s as [|a s IH]; intros [|n]; simpl; [done..| |by apply IH].
  destruct (Spec.number_token_at (String a s)) as [tok|] eqn:E; [|by apply IH].
  constructor; [by eexists|by apply IH].
Qed.

(** *** The conversions succeed on every token *)

Lemma digits_no_point ds :
  Str.forallb Num.is_digit ds = true → Str.mem "." ds = false.
Proof.
  induction ds as [|a ds IH]; [done|]. simpl.
  intros [Ha Hds]%andb_true_iff. rewrite IH by done.
  by destruct a as [[] [] [] [] [] [] [] []].
Qed.

Lemma split_sign_digit a s :
  Num.is_digit a = true → Num.split_sign (String a s) = (false, String a s).
Proof. by destruct a as [[] [] [] [] [] [] [] []]. Qed.

Lemma split_sign_token minus ds rest :
  (minus = "" ∨ minus = "-") → ds ≠ "" → Str.forallb Num.is_digit ds = true →
  Num.split_sign (minus +:+ ds +:+ rest)
  = (bool_decide (minus = "-"), ds +:+ rest).
Proof.
  intros [-> | ->] Hne Hds; [|done].
  destruct ds as [|a ds]; [done|]. simpl in Hds.
  apply andb_true_iff in Hds as [Ha _].
  rewrite app_nil_l, app_cons. by rewrite split_sign_digit.
Qed.

Lemma number_of_token_float minus ds fs :
  (minus = "" ∨ minus = "-") → ds ≠ "" →
  Str.forallb Num.is_digit ds = true → Str.forallb Num.is_digit fs = true →
  Str.mem "." (minus +:+ ds +:+ "." +:+ fs) = true ∧
  Num.py_float (minus +:+ ds +:+ "." +:+ fs)
  = Returns (Num.float_of_decimal (bool_decide (minus = "-"))
               (Num.digits_val 0 (ds +:+ fs)) (String.length fs)).
Proof.
  intros Hminus Hne Hds Hfs. split.
  - rewrite !mem_app. simpl. by rewrite !orb_true_r.
  - unfold Num.py_float. rewrite split_sign_token by done.
    rewrite span_digits_exact by done.
    change ("." +:+ fs) with (String "." fs). cbn iota.
    rewrite <- (app_nil_r fs) at 1. rewrite span_digits_exact by done.
    cbn [Str.is_empty andb].
    destruct ds as [|a ds]; [done|]. by rewrite app_cons.
Qed.

Lemma number_of_token_int minus ds :
  (minus = "" ∨ minus = "-") → ds ≠ "" →
  Str.forallb Num.is_digit ds = true →
  Str.mem "." (minus +:+ ds +:+ "" +:+ "") = false ∧
  Num.py_int (minus +:+ ds +:+ "" +:+ "")
  = Returns (if bool_decide (minus = "-")
             then - Num.digits_val 0 ds else Num.digits_val 0 ds)%Z.
Proof.
  intros Hminus Hne Hds. split.
  - rewrite !mem_app. rewrite (digits_no_point ds) by done.
    by destruct Hminus as [-> | ->].
  - unfold Num.py_int. rewrite split_sign_token by done.
    rewrite !app_nil_r, Hds.
    destruct ds as [|a ds]; [done|]. done.
Qed.

Lemma comprehension_Forall2 {A B} (f : A → outcome B) l ys :
  Forall2 (λ x y, f x = Returns y) l ys → comprehension f l = Returns ys.
Proof. induction 1 as [|x y l ys Hx _ IH]; simpl; [done|]. by rewrite Hx, IH. Qed.

Lemma filter_nonempty_tokens s :
  List.filter (λ n, negb (Str.is_empty n)) (Spec.number_tokens s)
  = Spec.number_tokens s.
Proof.
  pose proof (number_tokens_shape s) as H.
  induction H as [|tok toks [t Ht] _ IH]; [done|]. simpl. rewrite IH.
  destruct tok; [|done]. by apply number_token_at_nonempty in Ht.
Qed.

(** What the conversion of one token yields. *)
Lemma number_of_token_value s tok :
  Spec.number_token_at s = Some tok →
  ∃ n, number_of_token tok = Returns n ∧ tok ≠ "" ∧
       if Str.mem "." tok
       then ∃ f, Num.py_float tok = Returns f ∧ n = PyFloat f
       else ∃ z, Num.py_int tok = Returns z ∧ n = PyInt z.
Proof.
  intros H. pose proof (number_token_at_nonempty s) as Hne.
  apply number_token_at_shape in H as Hshape.
  destruct Hshape as (minus & ds & point & fs & -> & Hminus & Hds0 & Hds & Hpoint & Hfs).
  rewrite H in Hne.
  assert (Hne' : minus +:+ ds +:+ point +:+ fs ≠ "") by congruence.
  clear H Hne. unfold number_of_token.
  destruct Hpoint as [-> | [-> ->]].
  - destruct (number_of_token_float minus ds fs) as [Hmem Hfloat]; [done..|].
    rewrite Hmem, Hfloat. eauto 10.
  - destruct (number_of_token_int minus ds) as [Hmem Hint]; [done..|].
    rewrite Hmem, Hint. eauto 10.
Qed.

Lemma Forall_exists_Forall2 {A B} (R : A → B → Prop) l :
  Forall (λ x, ∃ y, R x y) l → ∃ ys, Forall2 R l ys.
Proof.
  induction 1 as [|x l [y Hy] _ [ys IH]]; [by exists []|].
  exists (y :: ys). by constructor.
Qed.

(** The recognizer never raises. *)
Lemma extract_numbers_returns text :
  _extract_numbers text = Returns (numbers_of text).
Proof.
  unfold numbers_of.
  destruct (Forall_exists_Forall2
              (λ tok n, number_of_token tok = Returns n)
              (Spec.number_tokens text)) as [nums Hnums].
  { eapply Forall_impl; [apply number_tokens_shape|].
    intros tok [t Ht]. apply number_of_token_value in Ht as (n & Hn & _).
    by exists n. }
  unfold _extract_numbers.
  rewrite findall_number, filter_nonempty_tokens.
  by rewrite (comprehension_Forall2 _ _ _ Hnums).
Qed.

End NumberFacts.

(** ** The URL pattern: what a match looks like *)

Module UrlFacts.
Import Re StrFacts ReFacts.

Ltac inv_clear H := inversion H; subst; clear H.

Ltac inv_matches :=
  repeat match goal with
    | H : matches (Cat _ _) _ |- _ => inv_clear H
    | H : matches (Chr _) _ |- _ => inv_clear H
    | H : matches (Class _) _ |- _ => inv_clear H
    | H : matches (Opt _) _ |- _ => inv_clear H
    | H : matches (Alt _ _) _ |- _ => inv_clear H
    | H : matches (Plus _) _ |- _ => inv_clear H
    end.

Lemma star_forallb (p : ascii → bool) r s :
  (∀ t, matches r t → Str.forallb p t = true) →
  matches (Star r) s → Str.forallb p s = true.
Proof.
  intros Hr H. remember (Star r) as r' eqn:E.
  induction H as [| | | | | | | |r0 s1 s2 H1 _ H2 IH|]; try done.
  injection E as ->. rewrite forallb_app, (Hr s1 H1). by apply IH.
Qed.

Lemma hex_url_char a :
  in_class [Range "0" "9"; Range "a" "f"; Range "A" "F"] a = true →
  url_char a = true.
Proof. by destruct a as [[] [] [] [] [] [] [] []]. Qed.

(** The characters of [url_char], as ranges of code points. *)
Lemma url_char_ranges a :
  url_char a = in_class [Range "$" "_"; Range "a" "z"; One "!"] a.
Proof. by destruct a as [[] [] [] [] [] [] [] []]. Qed.

Lemma url_item_chars t :
  matches url_item t → t ≠ "" ∧ Str.forallb url_char t = true.
Proof.
  unfold url_item, hex. intros H. inv_matches.
  5: { rewrite !app_cons, !app_nil_l. cbn [Str.forallb].
       repeat match goal with
              | H : in_class _ _ = true |- _ => apply hex_url_char in H; rewrite H
              end.
       done. }
  all: split; [done|]; cbn [Str.forallb]; unfold url_char.
  all: match goal with H : in_class _ _ = true |- _ => rewrite H end.
  all: by rewrite ?orb_true_r.
Qed.

Lemma class_s a : in_class [One "s"] a = true → a = "s"%char.
Proof. by destruct a as [[] [] [] [] [] [] [] []]. Qed.

Lemma url_pattern_shape u :
  matches url_pattern u →
  ∃ scheme body,
    u = scheme +:+ "://" +:+ body ∧ (scheme = "http" ∨ scheme = "https") ∧
    body ≠ "" ∧ Str.forallb url_char body = true.
Proof.
  unfold url_pattern. cbn [word]. intros H. inv_matches.
  all: repeat match goal with
         | H : in_class [One "s"] _ = true |- _ => apply class_s in H as ->
         end.
  all: match goal with
       | Hi : matches url_item ?s1, Hs : matches (Star url_item) ?s2 |- _ =>
           apply url_item_chars in Hi as [Hne Hi];
           apply (star_forallb url_char) in Hs;
             [|by intros t [_ ?]%url_item_chars];
           assert (s1 +:+ s2 ≠ "") by (by intros [? _]%app_eq_nil);
           assert (Str.forallb url_char (s1 +:+ s2) = true)
             by (by rewrite forallb_app, Hi, Hs)
       end.
  - exists "http", (s1 +:+ s2). split_and!; [reflexivity|auto|done..].
  - exists "https", (s1 +:+ s2). split_and!; [reflexivity|auto|done..].
Qed.

End UrlFacts.

(** * The claims about the recognizers *)


Lemma sample_set_order_ok : set_order_ok Examples.sample.
Proof. by intros X. Qed.

Lemma elem_of_extract_urls (w : world) (text u : string) :
  set_order_ok w →
  u ∈ _extract_urls w text ↔ u ∈ Re.findall url_pattern text.
Proof.
  intros Hw. unfold _extract_urls. rewrite (Hw _).
  by rewrite elem_of_elements, elem_of_list_to_set.
Qed.

(** C2, as the code has it.  Every URL that the recognizer reports is [http]
    or [https], then [://], then one or more characters each of which the
    pattern's classes accept: a letter, a digit, a character of the range
    from [$] to [_] (code points 36 to 95, so also [/ : ; < = > ? [ \ ] ^ %]
    and the like), or one of [@ . & + ! * \ ( ) ,].  In all these are the
    code points 36 to 95, the lower-case letters and [!]. *)
Theorem C2_url_characters (w : world) (text u : string) :
  set_order_ok w →
  u ∈ _extract_urls w text →
  (∃ scheme body,
     u = scheme +:+ "://" +:+ body ∧ (scheme = "http" ∨ scheme = "https") ∧
     body ≠ "" ∧ Str.forallb url_char body = true) ∧
  (∀ a, url_char a
        = Re.in_class [Re.Range "$" "_"; Re.Range "a" "z"; Re.One "!"] a).
Proof.
  intros Hw Hu. split; [|apply UrlFacts.url_char_ranges].
  apply elem_of_extract_urls in Hu; [|done].
  by apply UrlFacts.url_pattern_shape, ReFacts.findall_matches with text.
Qed.

Lemma C2_url_characters_witness :
  set_order_ok Examples.sample ∧
  "http://a.com/x" ∈ _extract_urls Examples.sample "at http://a.com/x now" ∧
  (∃ scheme body,
     "http://a.com/x" = scheme +:+ "://" +:+ body ∧
     (scheme = "http" ∨ scheme = "https") ∧
     body ≠ "" ∧ Str.forallb url_char body = true).
Proof.
  assert (H : "http://a.com/x" ∈ _extract_urls Examples.sample "at http://a.com/x now")
    by (vm_compute; apply list_elem_of_here).
  split; [apply sample_set_order_ok|]. split; [exact H|].
  exact (proj1 (C2_url_characters Examples.sample "at http://a.com/x now"
                  "http://a.com/x" sample_set_order_ok H)).
Defined.

(** C2 as the specification states it fails: the URL reported on
    ["at http://a.com/x now"] contains [/], which is outside the listed
    characters. *)
Lemma C2_counterexample :
  _extract_urls Examples.sample "at http://a.com/x now" = ["http://a.com/x"] ∧
  Spec.listed_url "http://a.com/x" = false ∧
  Spec.listed_url "http://a.com" = true.
Proof. by vm_compute. Qed.

(** C3, as the code has it.  The URL recognizer returns the distinct URL
    substrings found in the text, each once, in an order that is the
    interpreter's; on ["see http://a.com, and http://a.com again"] these are
    two: ["http://a.com,"], where the comma is captured, and
    ["http://a.com"], where a blank follows. *)
Theorem C3_url_set (w : world) (text : string) :
  set_order_ok w →
  NoDup (_extract_urls w text) ∧
  (∀ u, u ∈ _extract_urls w text ↔ u ∈ Re.findall url_pattern text) ∧
  _extract_urls w "see http://a.com, and http://a.com again"
    ≡ₚ ["http://a.com,"; "http://a.com"].
Proof.
  intros Hw. split_and!.
  - unfold _extract_urls. rewrite (Hw _). apply NoDup_elements.
  - intros u. by apply elem_of_extract_urls.
  - unfold _extract_urls. rewrite (Hw _).
    by vm_compute.
Qed.

Lemma C3_url_set_witness :
  set_order_ok Examples.sample ∧
  NoDup (_extract_urls Examples.sample "x http://b.org y http://b.org") ∧
  _extract_urls Examples.sample "see http://a.com, and http://a.com again"
    ≡ₚ ["http://a.com,"; "http://a.com"].
Proof.
  split; [apply sample_set_order_ok|].
  destruct (C3_url_set Examples.sample "x http://b.org y http://b.org"
              sample_set_order_ok) as (H1 & _ & H3).
  by split.
Defined.

(** C3 as the specification states it fails: on the example the recognizer
    reports two URLs, not one. *)
Lemma C3_counterexample :
  _extract_urls Examples.sample "see http://a.com, and http://a.com again"
  = ["http://a.com,"; "http://a.com"].
Proof. by vm_compute. Qed.

(** * The pipeline: outcome and effects of every piece *)

Module FxFacts.

(** The recognizers and the rendering of numbers are taken as they are
    from here on. *)
Global Opaque _extract_urls _extract_numbers numbers_of pretty.

Lemma fx_app_empty_l fx : fx_empty ⊕ fx = fx.
Proof. by destruct fx. Qed.

Lemma fx_app_empty_r fx : fx ⊕ fx_empty = fx.
Proof. destruct fx. unfold fx_app. simpl. by rewrite !app_nil_r. Qed.

Lemma fx_app_assoc x y z : (x ⊕ y) ⊕ z = x ⊕ (y ⊕ z).
Proof. unfold fx_app. simpl. by rewrite <- !app_assoc. Qed.

Lemma append_data_empty d : append_data fx_empty d = d.
Proof. destruct d. unfold append_data. simpl. by rewrite !app_nil_r. Qed.

Lemma append_data_app x y d :
  append_data y (append_data x d) = append_data (x ⊕ y) d.
Proof. unfold append_data. simpl. by rewrite !app_assoc. Qed.

Lemma apply_fx_empty a st : apply_fx a fx_empty st = st.
Proof.
  destruct st. unfold apply_fx. simpl. rewrite !app_nil_r. f_equal.
  apply alter_id. intros d _. apply append_data_empty.
Qed.

Lemma apply_fx_app a x y st :
  apply_fx a y (apply_fx a x st) = apply_fx a (x ⊕ y) st.
Proof.
  unfold apply_fx. simpl. rewrite !foldl_app, !app_assoc. f_equal.
  rewrite alter_alter_eq. apply alter_ext. intros d _.
  apply append_data_app.
Qed.

(** A projection that turns [⊕] into [++] does so for [fx_concat]. *)
Lemma fx_concat_proj {X} (π : effects → list X) l :
  π fx_empty = [] → (∀ x y, π (x ⊕ y) = π x ++ π y) →
  π (fx_concat l) = concat (π <$> l).
Proof.
  intros H0 Happ. induction l as [|x l IH]; [done|].
  simpl. by rewrite Happ, IH.
Qed.

(** ** Sequences of statements *)

Lemma in_sequence_returns l :
  (in_sequence l).1 = Returns tt ↔ Forall (λ d, d.1 = Returns tt) l.
Proof.
  induction l as [|[[[]|e] fx] l IH]; simpl.
  - split; [constructor|done].
  - destruct (in_sequence l) as [o fx']. simpl in *. rewrite IH.
    split; [by constructor|by inversion 1].
  - split; [done|by inversion 1].
Qed.

Lemma in_sequence_returns_any l u :
  (in_sequence l).1 = Returns u → Forall (λ d, d.1 = Returns tt) l.
Proof. destruct u. apply in_sequence_returns. Qed.

Lemma in_sequence_fx l :
  Forall (λ d, d.1 = Returns tt) l →
  (in_sequence l).2 = fx_concat (snd <$> l).
Proof.
  induction 1 as [|[o fx] l Ho _ IH]; [done|]. simpl in *. subst o.
  destruct (in_sequence l) as [o' fx']. simpl in *. by rewrite IH.
Qed.

(** ** The rules of [runs] *)

Section Rules.
Context (a : nat).

Lemma runs_eq {A} (m : M A) o fx fx' :
  runs a m o fx' → fx' = fx → runs a m o fx.
Proof. by intros H <-. Qed.

Lemma runs_det {A} (m : M A) o fx st o' st' :
  runs a m o fx → m st = (o', st') → o' = o ∧ st' = apply_fx a fx st.
Proof. intros H E. rewrite H in E. by injection E as <- <-. Qed.

Lemma runs_ret {A} (x : A) : runs a (mret x) (Returns x) fx_empty.
Proof. intros st. by rewrite apply_fx_empty. Qed.

Lemma runs_lift {A} (o : outcome A) : runs a (lift o) o fx_empty.
Proof. intros st. by rewrite apply_fx_empty. Qed.

Lemma runs_bind {A B} (m : M A) (k : A → M B) x o fx1 fx2 :
  runs a m (Returns x) fx1 → runs a (k x) o fx2 →
  runs a (m ≫= k) o (fx1 ⊕ fx2).
Proof.
  intros Hm Hk st. unfold mbind, M_bind.
  by rewrite Hm, Hk, apply_fx_app.
Qed.

Lemma runs_bind_raises {A B} (m : M A) (k : A → M B) e fx :
  runs a m (Raises e) fx → runs a (m ≫= k) (Raises e) fx.
Proof. intros Hm st. unfold mbind, M_bind. by rewrite Hm. Qed.

Lemma runs_try_except {A} (body : M A) handler x fx :
  runs a body (Returns x) fx → runs a (try_except body handler) (Returns x) fx.
Proof. intros H st. unfold try_except. by rewrite H. Qed.

Lemma runs_try_except_caught {A} (body : M A) handler e o fx1 fx2 :
  runs a body (Raises e) fx1 → runs a (handler e) o fx2 →
  runs a (try_except body handler) o (fx1 ⊕ fx2).
Proof.
  intros Hb Hh st. unfold try_except. by rewrite Hb, Hh, apply_fx_app.
Qed.

Lemma runs_try_finally {A} (body : M A) cleanup o fx1 fx2 :
  runs a body o fx1 → runs a cleanup (Returns tt) fx2 →
  runs a (try_finally body cleanup) o (fx1 ⊕ fx2).
Proof.
  intros Hb Hc st. unfold try_finally. rewrite Hb, Hc, apply_fx_app.
  by destruct o.
Qed.

Lemma runs_when_true (m : M unit) o fx :
  runs a m o fx → runs a (when true m) o fx.
Proof. done. Qed.

Lemma runs_when_false (m : M unit) :
  runs a (when false m) (Returns tt) fx_empty.
Proof. apply runs_ret. Qed.

Lemma runs_for_each {X} (body : X → M unit)
    (den : X → outcome unit * effects) l :
  (∀ x, x ∈ l → runs a (body x) (den x).1 (den x).2) →
  runs a (for_each body l) (in_sequence (den <$> l)).1
    (in_sequence (den <$> l)).2.
Proof.
  induction l as [|x l IH]; intros H; [apply runs_ret|].
  assert (Hx := H x (list_elem_of_here _ _)).
  assert (Hl : runs a (for_each body l) (in_sequence (den <$> l)).1
                 (in_sequence (den <$> l)).2)
    by (apply IH; intros y Hy; apply H; by apply list_elem_of_further).
  cbn [for_each fmap list_fmap in_sequence].
  change (list_fmap X _ den l) with (den <$> l).
  destruct (den x) as [[[]|e] fx]; simpl in Hx.
  - destruct (in_sequence (den <$> l)) as [o fx']. simpl in *.
    by eapply runs_bind.
  - by apply runs_bind_raises.
Qed.

(** *** The primitive statements *)

Ltac primitive :=
  intros [? ? ? ? ? ?];
  cbv [log print open_handle close_handle makedirs write_file modify
       mbind M_bind set_heap set_dirs set_files set_stdout
       set_open_handles set_trace apply_fx
       heap dirs files stdout open_handles trace
       fx_event fx_print fx_handle fx_makedirs fx_write_file
       fx_dirs fx_files fx_stdout fx_handles fx_trace foldl
       apply_handle_op fst snd];
  rewrite ?app_nil_r; do 2 f_equal;
  symmetry; apply alter_id; intros ? _; apply append_data_empty.

Lemma runs_log e : runs a (log e) (Returns tt) (fx_event e).
Proof. primitive. Qed.

Lemma runs_print line : runs a (print line) (Returns tt) (fx_print line).
Proof. primitive. Qed.

Lemma runs_open_handle h :
  runs a (open_handle h) (Returns tt) (fx_handle (Opened h)).
Proof. primitive. Qed.

Lemma runs_close_handle h :
  runs a (close_handle h) (Returns tt) (fx_handle (Closed h)).
Proof. primitive. Qed.

Lemma runs_makedirs dir : runs a (makedirs dir) (Returns tt) (fx_makedirs dir).
Proof. primitive. Qed.

Lemma runs_write_file name content :
  runs a (write_file name content) (Returns tt) (fx_write_file name content).
Proof. primitive. Qed.

Lemma runs_update_data self (f : pdf_data → pdf_data) fx :
  data self = a →
  (∀ d, f d = append_data fx d) →
  fx_dirs fx = [] → fx_files fx = [] → fx_stdout fx = [] →
  fx_handles fx = [] → fx_trace fx = [] →
  runs a (update_data self f) (Returns tt) fx.
Proof.
  intros <- Hf H1 H2 H3 H4 H5 [? ? ? ? ? ?].
  cbv [update_data modify set_heap apply_fx heap dirs files stdout
       open_handles trace].
  rewrite H1, H2, H3, H4, H5. cbv [foldl]. rewrite !app_nil_r.
  do 2 f_equal. apply alter_ext. intros ? _. apply Hf.
Qed.

End Rules.

(** ** The pieces of the two scripts *)

Section Pieces.
Context (w : world) (self : PDFReader).
Let a := data self.

(** Both sides of an equation between effects, field by field. *)
Ltac fx_record :=
  cbv [fx_app fx_empty fx_event fx_print fx_handle fx_makedirs
       fx_write_file fx_add_text fx_add_tables fx_add_images fx_add_urls
       fx_add_numbers fx_text fx_tables fx_images fx_urls fx_numbers
       fx_dirs fx_files fx_stdout fx_handles fx_trace];
  cbn [app].

Ltac run1 :=
  lazy beta iota;
  eapply runs_bind;
  [ first [ apply runs_log | apply runs_print | apply runs_lift
          | apply runs_open_handle | apply runs_close_handle
          | apply runs_makedirs | apply runs_write_file ] | ];
  lazy beta iota.

Lemma runs_for_each_returns {X} (body : X → M unit) (f : X → effects) l :
  (∀ x, x ∈ l → runs a (body x) (Returns tt) (f x)) →
  runs a (for_each body l) (Returns tt) (fx_concat (f <$> l)).
Proof.
  induction l as [|x l IH]; intros H; [apply runs_ret|].
  cbn [for_each]. eapply runs_bind.
  - apply H, list_elem_of_here.
  - apply IH. intros y Hy. by apply H, list_elem_of_further.
Qed.

Lemma runs_when_nonempty {X} (l : list X) (m : M unit) fx :
  runs a m (Returns tt) fx → (l = [] → fx = fx_empty) →
  runs a (when (nonempty l) m) (Returns tt) fx.
Proof.
  intros Hm Hnil. destruct l; [|done].
  rewrite Hnil by done. apply runs_when_false.
Qed.

Lemma runs_extend_text xs :
  runs a (update_data self (extend_text xs)) (Returns tt) (fx_add_text xs).
Proof.
  apply runs_update_data; try done.
  intros d. unfold extend_text, append_data. simpl. by rewrite !app_nil_r.
Qed.

Lemma runs_extend_tables xs :
  runs a (update_data self (extend_tables xs)) (Returns tt) (fx_add_tables xs).
Proof.
  apply runs_update_data; try done.
  intros d. unfold extend_tables, append_data. simpl. by rewrite !app_nil_r.
Qed.

Lemma runs_extend_images xs :
  runs a (update_data self (extend_images xs)) (Returns tt) (fx_add_images xs).
Proof.
  apply runs_update_data; try done.
  intros d. unfold extend_images, append_data. simpl. by rewrite !app_nil_r.
Qed.

Lemma runs_extend_urls xs :
  runs a (update_data self (extend_urls xs)) (Returns tt) (fx_add_urls xs).
Proof.
  apply runs_update_data; try done.
  intros d. unfold extend_urls, append_data. simpl. by rewrite !app_nil_r.
Qed.

Lemma runs_extend_numbers xs :
  runs a (update_data self (extend_numbers xs)) (Returns tt)
    (fx_add_numbers xs).
Proof.
  apply runs_update_data; try done.
  intros d. unfold extend_numbers, append_data. simpl. by rewrite !app_nil_r.
Qed.

Lemma fx_concat_add_tables {X} (g : X → table_entry) l :
  fx_concat ((λ x, fx_add_tables [g x]) <$> l) = fx_add_tables (g <$> l).
Proof.
  induction l as [|x l IH]; [done|].
  change (fx_add_tables [g x] ⊕ fx_concat ((λ x, fx_add_tables [g x]) <$> l)
          = fx_add_tables (g <$> x :: l)).
  by rewrite IH.
Qed.

Lemma fx_concat_add_images {X} (g : X → image_entry) l :
  fx_concat ((λ x, fx_add_images [g x]) <$> l) = fx_add_images (g <$> l).
Proof.
  induction l as [|x l IH]; [done|].
  change (fx_add_images [g x] ⊕ fx_concat ((λ x, fx_add_images [g x]) <$> l)
          = fx_add_images (g <$> x :: l)).
  by rewrite IH.
Qed.

(** The text, URL, number and table steps of one page. *)
Lemma runs_extract_text_and_tables p page :
  runs a (extract_text_and_tables w self p page)
    (text_outcome page) (text_fx w p page).
Proof.
  unfold extract_text_and_tables, text_outcome.
  assert (Htables : ∀ o,
    runs a (log (EvExtractTables p) ;;
            tables ← lift o;
            when (nonempty tables)
              (for_each (λ '(table_num, t),
                 update_data self
                   (extend_tables
                      [{| table_page := p; table_number := table_num;
                          table_data := t |}]))
                 (enumerate 1 tables)))
      match o with Returns _ => Returns tt | Raises e => Raises e end
      (fx_event (EvExtractTables p) ⊕
       fx_add_tables
         match o with
         | Returns ts =>
             (λ it, {| table_page := p; table_number := it.1;
                       table_data := it.2 |}) <$> enumerate 1 ts
         | Raises _ => []
         end)).
  { intros [ts|e].
    - eapply runs_eq.
      + run1. run1.
        apply runs_when_nonempty with
          (fx := fx_add_tables
                   ((λ it, {| table_page := p; table_number := it.1;
                              table_data := it.2 |}) <$> enumerate 1 ts));
          [|by intros ->].
        eapply runs_eq.
        * apply (runs_for_each_returns _
                   (λ it, fx_add_tables
                            [{| table_page := p; table_number := it.1;
                                table_data := it.2 |}])).
          intros [i t] _. apply runs_extend_tables.
        * apply fx_concat_add_tables.
      + by rewrite fx_app_empty_l.
    - eapply runs_eq; [run1; apply runs_bind_raises, runs_lift|done]. }
  destruct (page_extract_text page) as [text|e] eqn:Etext.
  2: { eapply runs_eq; [run1; apply runs_bind_raises, runs_lift|].
       unfold text_fx, text_entries, url_entries, numbers_entries,
         table_entries, text_events, page_text.
       by rewrite Etext. }
  eapply runs_eq.
  { run1. run1. eapply runs_bind; [|apply Htables].
    instantiate (1 :=
      fx_add_text (text_entries p page) ⊕
      (match page_text page with
       | Some _ => fx_event (EvExtractUrls p)
       | None => fx_empty
       end ⊕
       (fx_add_urls (url_entries w p page) ⊕
        (match page_text page with
         | Some _ => fx_event (EvExtractNumbers p)
         | None => fx_empty
         end ⊕ fx_add_numbers (numbers_entries p page))))).
    unfold text_entries, url_entries, numbers_entries, page_text.
    rewrite Etext.
    destruct text as [[|c t]|]; [apply runs_ret..| |apply runs_ret].
    eapply runs_bind; [apply runs_extend_text|].
    run1.
    eapply runs_bind.
    { apply runs_when_nonempty; [apply runs_extend_urls|].
      by intros ->. }
    run1. rewrite NumberFacts.extract_numbers_returns.
    destruct (numbers_of (String c t)) as [|n ns].
    - eapply runs_eq; [run1; apply runs_when_false|done].
    - eapply runs_eq;
        [run1; apply runs_when_true, runs_extend_numbers|done]. }
  unfold text_fx, text_entries, url_entries, numbers_entries,
    table_entries, text_events, page_text.
  rewrite Etext.
  destruct text as [[|c t]|], (page_extract_tables page);
    fx_record; by rewrite ?app_nil_r.
Qed.

(** The [try] statement for one image of the PyMuPDF document. *)
Lemma runs_image doc out save page_num img_num xref :
  runs a
    (try_except
       (New.extract_one_image w self doc out save page_num img_num xref)
       (λ e, print (New.error_line img_num (page_num + 1) e)))
    (Returns tt) (New.image_fx w doc out save page_num img_num xref).
Proof.
  unfold New.extract_one_image, New.image_fx, New.image_result.
  destruct (fitz_extract_image doc xref) as [bi|e].
  - destruct save, (pil_size w (image_bytes bi)) as [[wd ht]|e] eqn:Epil.
    + eapply runs_eq.
      * apply runs_try_except. do 4 run1. rewrite Epil. run1.
        apply runs_extend_images.
      * fx_record. reflexivity.
    + eapply runs_eq.
      * eapply runs_try_except_caught; [|apply runs_print].
        do 4 run1. rewrite Epil. apply runs_bind_raises, runs_lift.
      * fx_record. reflexivity.
    + eapply runs_eq.
      * apply runs_try_except. do 3 run1. rewrite Epil. run1.
        apply runs_extend_images.
      * fx_record. reflexivity.
    + eapply runs_eq.
      * eapply runs_try_except_caught; [|apply runs_print].
        do 3 run1. rewrite Epil. apply runs_bind_raises, runs_lift.
      * fx_record. reflexivity.
  - eapply runs_eq.
    + eapply runs_try_except_caught; [|apply runs_print].
      run1. apply runs_bind_raises, runs_lift.
    + fx_record. reflexivity.
Qed.

(** One turn of the loop over the pages of the PyMuPDF document. *)
Lemma runs_fitz_page doc out save page_num images :
  runs a
    (log (EvGetImages (page_num + 1)) ;;
     image_list ← lift images;
     print ("Found " +:+ pretty (length image_list) +:+ " images on page "
              +:+ pretty (page_num + 1)) ;;
     for_each (λ '(img_num, xref),
       try_except
         (New.extract_one_image w self doc out save page_num img_num xref)
         (λ e, print (New.error_line img_num (page_num + 1) e)))
       (enumerate 1 image_list))
    (New.fitz_page_outcome images)
    (New.fitz_page_fx w doc out save page_num images).
Proof.
  unfold New.fitz_page_fx. destruct images as [image_list|e].
  - run1. eapply runs_eq.
    + run1. run1.
      apply (runs_for_each_returns _
               (λ it, New.image_fx w doc out save page_num it.1 it.2)).
      intros [i xref] _. apply runs_image.
    + by rewrite fx_app_empty_l.
  - eapply runs_eq; [run1; apply runs_bind_raises, runs_lift|done].
Qed.

Lemma fmap_seq_lookup {X Y} (g : nat → option X → Y) (l : list X) :
  (λ i, g i (l !! i)) <$> seq 0 (length l) = imap (λ i x, g i (Some x)) l.
Proof.
  apply list_eq. intros i.
  rewrite list_lookup_fmap, list_lookup_imap.
  destruct (l !! i) as [x|] eqn:E.
  - rewrite lookup_seq_lt by (by eapply lookup_lt_Some). simpl. by rewrite E.
  - rewrite lookup_seq_ge by (by apply lookup_ge_None). done.
Qed.

(** The loop over the pages of the PyMuPDF document. *)
Lemma runs_fitz_pages doc out save :
  runs a
    (for_each (λ page_num,
       log (EvGetImages (page_num + 1)) ;;
       image_list ← lift (default (Raises "IndexError: page not in document")
                            (fitz_pages doc !! page_num));
       print ("Found " +:+ pretty (length image_list) +:+ " images on page "
                +:+ pretty (page_num + 1)) ;;
       for_each (λ '(img_num, xref),
         try_except
           (New.extract_one_image w self doc out save page_num img_num xref)
           (λ e, print (New.error_line img_num (page_num + 1) e)))
         (enumerate 1 image_list))
       (seq 0 (length (fitz_pages doc))))
    (New.fitz_pages_run w doc out save).1
    (New.fitz_pages_run w doc out save).2.
Proof.
  unfold New.fitz_pages_run.
  rewrite <- (fmap_seq_lookup
                (λ i o,
                   let images :=
                     default (Raises "IndexError: page not in document") o in
                   (New.fitz_page_outcome images,
                    New.fitz_page_fx w doc out save i images))).
  apply (runs_for_each a _
           (λ i, let images :=
                   default (Raises "IndexError: page not in document")
                     (fitz_pages doc !! i) in
                 (New.fitz_page_outcome images,
                  New.fitz_page_fx w doc out save i images))).
  intros i _. apply runs_fitz_page.
Qed.

Lemma runs_fitz doc out save :
  fitz_open w (pdf_path self) = Returns doc →
  runs a (New._extract_images_with_fitz w self out save)
    match (New.fitz_pages_run w doc out save).1 with
    | Returns _ => Returns tt
    | Raises e => Raises e
    end
    (fx_print "Extracting images..." ⊕
     (fx_event (EvFitzOpen (pdf_path self)) ⊕
      (fx_handle (Opened (FitzDocument (pdf_path self))) ⊕
       ((New.fitz_pages_run w doc out save).2 ⊕
        match (New.fitz_pages_run w doc out save).1 with
        | Returns _ =>
            fx_event (EvFitzClose (pdf_path self)) ⊕
            fx_handle (Closed (FitzDocument (pdf_path self)))
        | Raises _ => fx_empty
        end)))).
Proof.
  intros Hopen. unfold New._extract_images_with_fitz. rewrite Hopen.
  pose proof (runs_fitz_pages doc out save) as Hpages.
  destruct (New.fitz_pages_run w doc out save) as [[[]|e] fx]; simpl in *.
  - run1. run1. eapply runs_eq.
    + run1. run1. eapply runs_bind; [exact Hpages|].
      run1. apply runs_close_handle.
    + by rewrite fx_app_empty_l.
  - run1. run1. eapply runs_eq.
    + run1. run1. apply runs_bind_raises. exact Hpages.
    + by rewrite fx_app_empty_l, fx_app_empty_r.
Qed.

Lemma runs_fitz_fails out save e :
  fitz_open w (pdf_path self) = Raises e →
  runs a (New._extract_images_with_fitz w self out save) (Raises e)
    (fx_print "Extracting images..." ⊕ fx_event (EvFitzOpen (pdf_path self))).
Proof.
  intros Hopen. unfold New._extract_images_with_fitz. rewrite Hopen.
  run1. eapply runs_eq; [run1; apply runs_bind_raises, runs_lift|].
  by rewrite fx_app_empty_r.
Qed.

(** The [with] statement. *)
Lemma runs_with_pdfplumber {A} (body : list plumber_page → M A) pages o fx :
  pdfplumber_open w (pdf_path self) = Returns pages →
  runs a (body pages) o fx →
  runs a (with_pdfplumber w (pdf_path self) body) o
    (fx_event (EvPlumberOpen (pdf_path self)) ⊕
     (fx_handle (Opened (PlumberPDF (pdf_path self))) ⊕
      (fx ⊕
       (fx_event (EvPlumberClose (pdf_path self)) ⊕
        fx_handle (Closed (PlumberPDF (pdf_path self))))))).
Proof.
  intros Hopen Hbody. unfold with_pdfplumber. rewrite Hopen.
  run1. eapply runs_eq.
  - run1. run1. eapply runs_try_finally; [exact Hbody|].
    run1. apply runs_close_handle.
  - by rewrite fx_app_empty_l.
Qed.

Lemma runs_with_pdfplumber_fails {A} (body : list plumber_page → M A) e :
  pdfplumber_open w (pdf_path self) = Raises e →
  runs a (with_pdfplumber w (pdf_path self) body) (Raises e)
    (fx_event (EvPlumberOpen (pdf_path self))).
Proof.
  intros Hopen. unfold with_pdfplumber. rewrite Hopen.
  eapply runs_eq; [run1; apply runs_bind_raises, runs_lift|].
  by rewrite fx_app_empty_r.
Qed.

Lemma runs_when_makedirs save out :
  runs a (when save (makedirs out)) (Returns tt)
    (if save then fx_makedirs out else fx_empty).
Proof. destruct save; [apply runs_makedirs|apply runs_ret]. Qed.

Ltac fx_normalize :=
  rewrite ?fx_app_assoc, ?fx_app_empty_l, ?fx_app_empty_r.

(** The loop over the pages of pdfplumber, full-fidelity variant. *)
Lemma runs_text_pages pages :
  runs a
    (for_each (λ '(page_num, page),
       print ("Processing page " +:+ pretty page_num
                +:+ " for text and tables...") ;;
       extract_text_and_tables w self page_num page)
       (enumerate 1 pages))
    (New.text_pages_run w pages).1 (New.text_pages_run w pages).2.
Proof.
  apply (runs_for_each a _
           (λ it, (text_outcome it.2,
                   fx_print (New.processing_line it.1) ⊕ text_fx w it.1 it.2))).
  intros [p page] _. run1. apply runs_extract_text_and_tables.
Qed.

(** [extract_all] of [pdf_reader_new.py], in full. *)
Lemma runs_new_extract_all save out :
  runs a (New.extract_all w self save out)
    (New.run_outcome w self save out) (New.run_fx w self save out).
Proof.
  unfold New.extract_all, New.run_outcome, New.run_fx.
  destruct (fitz_open w (pdf_path self)) as [doc|e] eqn:Hfitz.
  2: { eapply runs_eq.
       - eapply runs_bind; [apply runs_when_makedirs|].
         apply runs_bind_raises. by apply runs_fitz_fails.
       - by fx_normalize. }
  pose proof (runs_fitz doc out save Hfitz) as Himages.
  destruct (New.fitz_pages_run w doc out save) as [[[]|e] fx_images];
    simpl in Himages |- *.
  2: { eapply runs_eq.
       - eapply runs_bind; [apply runs_when_makedirs|].
         apply runs_bind_raises. exact Himages.
       - by fx_normalize. }
  destruct (pdfplumber_open w (pdf_path self)) as [pages|e] eqn:Hplumber.
  2: { eapply runs_eq.
       - eapply runs_bind; [apply runs_when_makedirs|].
         eapply runs_bind; [exact Himages|].
         apply runs_bind_raises. by apply runs_with_pdfplumber_fails.
       - by fx_normalize. }
  pose proof (runs_with_pdfplumber
                (λ pages,
                   for_each (λ '(page_num, page),
                     print ("Processing page " +:+ pretty page_num
                              +:+ " for text and tables...") ;;
                     extract_text_and_tables w self page_num page)
                     (enumerate 1 pages))
                pages _ _ Hplumber (runs_text_pages pages))
    as Htext.
  destruct (New.text_pages_run w pages) as [[[]|e] fx_text];
    simpl in Htext |- *.
  - eapply runs_eq.
    + eapply runs_bind; [apply runs_when_makedirs|].
      eapply runs_bind; [exact Himages|].
      eapply runs_bind; [exact Htext|]. apply runs_ret.
    + by fx_normalize.
  - eapply runs_eq.
    + eapply runs_bind; [apply runs_when_makedirs|].
      eapply runs_bind; [exact Himages|].
      apply runs_bind_raises. exact Htext.
    + by fx_normalize.
Qed.

(** One turn of the loop over the pages, lightweight variant. *)
Lemma runs_program_page save out p page :
  runs a
    (print ("Processing page " +:+ pretty p +:+ "...") ;;
     extract_text_and_tables w self p page ;;
     when save
       (log (EvPageImages p) ;;
        images ← lift (page_images page);
        for_each (λ '(img_num, _),
          update_data self
            (extend_images
               [{| image_page := p; image_number := img_num;
                   image_saved_as :=
                     Some (Program.image_filename out p img_num);
                   image_format := None; image_size := None;
                   image_file_size := None |}]))
          (enumerate 1 images)))
    (Program.page_outcome save page) (Program.page_fx w out save p page).
Proof.
  unfold Program.page_outcome, Program.page_fx, Program.image_entries.
  pose proof (runs_extract_text_and_tables p page) as Htext.
  destruct (text_outcome page) as [[]|e].
  2: { eapply runs_eq; [run1; apply runs_bind_raises; exact Htext|].
       by fx_normalize. }
  destruct save.
  2: { eapply runs_eq;
         [run1; eapply runs_bind; [exact Htext|]; apply runs_when_false|].
       by fx_normalize. }
  destruct (page_images page) as [images|e].
  - eapply runs_eq.
    + run1. eapply runs_bind; [exact Htext|]. apply runs_when_true.
      run1. run1.
      apply (runs_for_each_returns _
               (λ it, fx_add_images
                        [{| image_page := p; image_number := it.1;
                            image_saved_as :=
                              Some (Program.image_filename out p it.1);
                            image_format := None; image_size := None;
                            image_file_size := None |}])).
      intros [i img] _. apply runs_extend_images.
    + rewrite fx_concat_add_images. by fx_normalize.
  - eapply runs_eq.
    + run1. eapply runs_bind; [exact Htext|]. apply runs_when_true.
      run1. apply runs_bind_raises, runs_lift.
    + by fx_normalize.
Qed.

(** [extract_all] of [pdf_reader_program.py], in full. *)
Lemma runs_program_extract_all save out :
  runs a (Program.extract_all w self save out)
    (Program.run_outcome w self save out) (Program.run_fx w self save out).
Proof.
  unfold Program.extract_all, Program.run_outcome, Program.run_fx.
  destruct (pdfplumber_open w (pdf_path self)) as [pages|e] eqn:Hplumber.
  2: { eapply runs_eq.
       - eapply runs_bind; [apply runs_when_makedirs|].
         apply runs_bind_raises. by apply runs_with_pdfplumber_fails.
       - by fx_normalize. }
  assert (Hpages :
    runs a
      (for_each (λ '(page_num, page),
         print ("Processing page " +:+ pretty page_num +:+ "...") ;;
         extract_text_and_tables w self page_num page ;;
         when save
           (log (EvPageImages page_num) ;;
            images ← lift (page_images page);
            for_each (λ '(img_num, _),
              update_data self
                (extend_images
                   [{| image_page := page_num; image_number := img_num;
                       image_saved_as :=
                         Some (Program.image_filename out page_num img_num);
                       image_format := None; image_size := None;
                       image_file_size := None |}]))
              (enumerate 1 images)))
         (enumerate 1 pages))
      (Program.pages_run w out save pages).1
      (Program.pages_run w out save pages).2).
  { apply (runs_for_each a _
             (λ it, (Program.page_outcome save it.2,
                     Program.page_fx w out save it.1 it.2))).
    intros [p page] _. apply runs_program_page. }
  pose proof (runs_with_pdfplumber
                (λ pages,
                   for_each (λ '(page_num, page),
                     print ("Processing page " +:+ pretty page_num +:+ "...") ;;
                     extract_text_and_tables w self page_num page ;;
                     when save
                       (log (EvPageImages page_num) ;;
                        images ← lift (page_images page);
                        for_each (λ '(img_num, _),
                          update_data self
                            (extend_images
                               [{| image_page := page_num;
                                   image_number := img_num;
                                   image_saved_as :=
                                     Some (Program.image_filename out
                                             page_num img_num);
                                   image_format := None; image_size := None;
                                   image_file_size := None |}]))
                          (enumerate 1 images)))
                     (enumerate 1 pages))
                pages _ _ Hplumber Hpages) as Hwith.
  destruct (Program.pages_run w out save pages) as [[[]|e] fx_pages];
    simpl in Hwith |- *.
  - eapply runs_eq.
    + eapply runs_bind; [apply runs_when_makedirs|].
      eapply runs_bind; [exact Hwith|]. apply runs_ret.
    + by fx_normalize.
  - eapply runs_eq.
    + eapply runs_bind; [apply runs_when_makedirs|].
      apply runs_bind_raises. exact Hwith.
    + by fx_normalize.
Qed.

End Pieces.

End FxFacts.

(** ** Runs that return *)

Module RunFacts.
Import FxFacts.

Lemma in_sequence_ok l :
  Forall (λ d, d.1 = Returns tt) l →
  in_sequence l = (Returns tt, fx_concat (snd <$> l)).
Proof.
  intros H. rewrite <- (in_sequence_fx l H).
  apply in_sequence_returns in H.
  destruct (in_sequence l) as [o fx]. simpl in *. by subst.
Qed.

Lemma enumerate_lookup {X} (l : list X) start i :
  enumerate start l !! i = (λ x, (start + i, x)) <$> l !! i.
Proof.
  revert start i. induction l as [|x l IH]; intros start [|i]; simpl; try done.
  - by rewrite Nat.add_0_r.
  - rewrite IH. replace (S start + i) with (start + S i) by lia. done.
Qed.

Lemma elem_of_enumerate {X} (l : list X) start p x :
  (p, x) ∈ enumerate start l ↔ ∃ i, p = start + i ∧ l !! i = Some x.
Proof.
  rewrite list_elem_of_lookup. split.
  - intros [i Hi]. rewrite enumerate_lookup in Hi.
    destruct (l !! i) as [y|] eqn:E; [|done]. injection Hi as <- <-. eauto.
  - intros (i & -> & Hi). exists i. by rewrite enumerate_lookup, Hi.
Qed.

(** *** The pages of pdfplumber *)

Lemma text_outcome_returns page u :
  text_outcome page = Returns u →
  returned (page_extract_text page) ∧ returned (page_extract_tables page).
Proof.
  unfold text_outcome.
  by destruct (page_extract_text page), (page_extract_tables page).
Qed.

Lemma text_events_steps p page :
  text_outcome page = Returns tt → text_events p page = page_steps p page.
Proof.
  intros [Ht _]%text_outcome_returns. unfold text_events, page_steps.
  by destruct (page_extract_text page).
Qed.

Lemma pages_in_sequence_returns (o : plumber_page → outcome unit)
    (g : nat → plumber_page → effects) pages u :
  (in_sequence ((λ it, (o it.2, g it.1 it.2)) <$> enumerate 1 pages)).1
  = Returns u →
  Forall (λ page, o page = Returns tt) pages.
Proof.
  intros H%in_sequence_returns_any.
  apply Forall_forall. intros page [i Hi]%list_elem_of_lookup.
  rewrite Forall_forall in H.
  apply (H (o page, g (1 + i) page)).
  apply (list_elem_of_fmap_2 (λ it, (o it.2, g it.1 it.2)) _ (1 + i, page)).
  apply elem_of_enumerate. eauto.
Qed.

Lemma pages_in_sequence_ok (o : plumber_page → outcome unit)
    (g : nat → plumber_page → effects) pages :
  Forall (λ page, o page = Returns tt) pages →
  in_sequence ((λ it, (o it.2, g it.1 it.2)) <$> enumerate 1 pages)
  = (Returns tt, fx_concat ((λ it, g it.1 it.2) <$> enumerate 1 pages)).
Proof.
  intros H. rewrite in_sequence_ok.
  - by rewrite <- list_fmap_compose.
  - apply Forall_fmap, Forall_forall. intros [p page] Hp. simpl.
    apply elem_of_enumerate in Hp as (i & _ & Hi).
    rewrite Forall_forall in H.
    by eapply H, list_elem_of_lookup_2.
Qed.

Lemma text_pages_run_returns w pages u :
  (New.text_pages_run w pages).1 = Returns u → pages_return pages.
Proof.
  apply (pages_in_sequence_returns text_outcome
           (λ p page, fx_print (New.processing_line p) ⊕ text_fx w p page)).
Qed.

Lemma text_pages_run_ok w pages :
  pages_return pages →
  New.text_pages_run w pages
  = (Returns tt,
     fx_concat ((λ it, fx_print (New.processing_line it.1) ⊕ text_fx w it.1 it.2)
                  <$> enumerate 1 pages)).
Proof.
  apply (pages_in_sequence_ok text_outcome
           (λ p page, fx_print (New.processing_line p) ⊕ text_fx w p page)).
Qed.

Lemma program_pages_run_returns w out save pages u :
  (Program.pages_run w out save pages).1 = Returns u →
  Program.pages_return save pages.
Proof.
  apply (pages_in_sequence_returns (Program.page_outcome save)
           (Program.page_fx w out save)).
Qed.

Lemma program_pages_run_ok w out save pages :
  Program.pages_return save pages →
  Program.pages_run w out save pages
  = (Returns tt,
     fx_concat ((λ it, Program.page_fx w out save it.1 it.2)
                  <$> enumerate 1 pages)).
Proof.
  apply (pages_in_sequence_ok (Program.page_outcome save)
           (Program.page_fx w out save)).
Qed.

Lemma program_page_outcome_text save page :
  Program.page_outcome save page = Returns tt →
  text_outcome page = Returns tt.
Proof.
  unfold Program.page_outcome. by destruct (text_outcome page) as [[]|].
Qed.

(** A projection of the effects of all pages. *)
Lemma proj_per_page {X} (π : effects → list X) (f : nat → plumber_page → list X)
    (g : nat → plumber_page → effects) pages :
  π fx_empty = [] → (∀ x y, π (x ⊕ y) = π x ++ π y) →
  (∀ p page, page ∈ pages → π (g p page) = f p page) →
  π (fx_concat ((λ it, g it.1 it.2) <$> enumerate 1 pages)) = per_page f pages.
Proof.
  intros H0 Happ Hg. rewrite fx_concat_proj by done.
  unfold per_page. f_equal. rewrite <- list_fmap_compose.
  apply list_fmap_ext. intros i [p page] Hi. simpl.
  apply Hg. rewrite enumerate_lookup in Hi.
  destruct (pages !! i) eqn:E; [|done]. injection Hi as <- <-.
  by eapply list_elem_of_lookup_2.
Qed.

(** *** The pages of PyMuPDF *)

Lemma fitz_pages_run_returns w doc out save u :
  (New.fitz_pages_run w doc out save).1 = Returns u →
  Forall returned (fitz_pages doc).
Proof.
  intros H%in_sequence_returns_any.
  apply Forall_lookup. intros i images Hi.
  rewrite Forall_lookup in H.
  specialize (H i (New.fitz_page_outcome images,
                   New.fitz_page_fx w doc out save i images)).
  rewrite list_lookup_imap, Hi in H. specialize (H eq_refl).
  by destruct images.
Qed.

Lemma fitz_pages_run_ok w doc out save :
  Forall returned (fitz_pages doc) →
  New.fitz_pages_run w doc out save
  = (Returns tt,
     fx_concat (imap (New.fitz_page_fx w doc out save) (fitz_pages doc))).
Proof.
  intros H. unfold New.fitz_pages_run. rewrite in_sequence_ok.
  - by rewrite fmap_imap.
  - apply Forall_lookup. intros i d Hi.
    apply list_lookup_imap_Some in Hi as (images & Hi & ->).
    rewrite Forall_lookup in H. specialize (H i images Hi).
    by destruct images.
Qed.

Lemma proj_per_fitz_page {X} (π : effects → list X) (f : nat → list Z → list X)
    w doc out save :
  π fx_empty = [] → (∀ x y, π (x ⊕ y) = π x ++ π y) →
  Forall returned (fitz_pages doc) →
  (∀ page_num image_list,
     π (New.fitz_page_fx w doc out save page_num (Returns image_list))
     = f page_num image_list) →
  π (fx_concat (imap (New.fitz_page_fx w doc out save) (fitz_pages doc)))
  = New.per_fitz_page f doc.
Proof.
  intros H0 Happ Hret Hf. rewrite fx_concat_proj by done.
  unfold New.per_fitz_page. f_equal. rewrite fmap_imap.
  apply imap_ext. intros i images Hi. simpl.
  rewrite Forall_lookup in Hret. specialize (Hret i images Hi).
  destruct images; [apply Hf|done].
Qed.

(** *** The whole run, full-fidelity variant *)

Ltac proj_chain :=
  cbn [fx_text fx_tables fx_images fx_urls fx_numbers fx_stdout fx_trace
       fx_handles fx_dirs fx_files fx_app fx_makedirs fx_empty fx_print
       fx_event fx_handle fx_add_images text_fx New.image_fx app fst snd].

Lemma new_run_returns w self save out r :
  New.run_outcome w self save out = Returns r →
  ∃ doc pages,
    fitz_open w (pdf_path self) = Returns doc ∧
    Forall returned (fitz_pages doc) ∧
    pdfplumber_open w (pdf_path self) = Returns pages ∧
    pages_return pages ∧ r = data self.
Proof.
  unfold New.run_outcome. intros H.
  destruct (fitz_open w (pdf_path self)) as [doc|] eqn:Hfitz; [|done].
  destruct (New.fitz_pages_run w doc out save).1 as [u|] eqn:Himages; [|done].
  destruct (pdfplumber_open w (pdf_path self)) as [pages|] eqn:Hplumber;
    [|done].
  destruct (New.text_pages_run w pages).1 as [u'|] eqn:Htext; [|done].
  injection H as <-. exists doc, pages. split_and!; try done.
  - by eapply fitz_pages_run_returns.
  - by eapply text_pages_run_returns.
Qed.

Lemma concat_fmap_nil {X Y} (f : Y → list X) (l : list Y) :
  (∀ y, f y = []) → concat (f <$> l) = [].
Proof.
  intros Hf. induction l as [|y l IH]; [done|].
  rewrite fmap_cons. simpl. by rewrite Hf.
Qed.

(** What the first pass does for one page, field by field. *)
Lemma fitz_page_fx_proj {X} (π : effects → list X) (extra : list X)
    (f : nat → Z → list X) w doc out save page_num image_list :
  π fx_empty = [] → (∀ x y, π (x ⊕ y) = π x ++ π y) →
  π (fx_event (EvGetImages (page_num + 1)))
  ++ π (fx_print (New.found_line (length image_list) (page_num + 1)))
  = extra →
  (∀ img_num xref,
     π (New.image_fx w doc out save page_num img_num xref) = f img_num xref) →
  π (New.fitz_page_fx w doc out save page_num (Returns image_list))
  = extra ++ concat ((λ it, f it.1 it.2) <$> enumerate 1 image_list).
Proof.
  intros H0 Happ Hextra Hf. unfold New.fitz_page_fx.
  rewrite !Happ, fx_concat_proj, app_assoc, Hextra by done.
  do 2 f_equal. rewrite <- list_fmap_compose.
  apply list_fmap_ext. intros i [img_num xref] _. apply Hf.
Qed.

Lemma fitz_page_fx_no {X} (π : effects → list X) w doc out save page_num
    image_list :
  π fx_empty = [] → (∀ x y, π (x ⊕ y) = π x ++ π y) →
  (∀ e, π (fx_event e) = []) → (∀ line, π (fx_print line) = []) →
  (∀ img_num xref,
     π (New.image_fx w doc out save page_num img_num xref) = []) →
  π (New.fitz_page_fx w doc out save page_num (Returns image_list)) = [].
Proof.
  intros H0 Happ Hev Hpr Hf.
  rewrite (fitz_page_fx_proj π [] (λ _ _, [])); try done.
  - by apply concat_fmap_nil.
  - by rewrite Hev, Hpr.
Qed.

Section NewRun.
Context (w : world) (self : PDFReader) (save : bool) (out : string).
Context (doc : fitz_document) (pages : list plumber_page).
Hypothesis Hfitz : fitz_open w (pdf_path self) = Returns doc.
Hypothesis Himages : Forall returned (fitz_pages doc).
Hypothesis Hplumber : pdfplumber_open w (pdf_path self) = Returns pages.
Hypothesis Hpages : pages_return pages.


Lemma concat_imap_nil {X Y} (f : nat → Y → list X) (l : list Y) :
  (∀ i y, f i y = []) → concat (imap f l) = [].
Proof.
  revert f. induction l as [|y l IH]; intros f Hf; [done|].
  rewrite imap_cons. simpl. rewrite Hf. apply IH. intros i y'. apply Hf.
Qed.

Lemma per_fitz_page_nil {X} : New.per_fitz_page (λ _ _, @nil X) doc = [].
Proof.
  unfold New.per_fitz_page. apply concat_imap_nil. by intros i [].
Qed.

Lemma per_page_nil {X} : per_page (λ _ _, @nil X) pages = [].
Proof.
  unfold per_page. induction (enumerate 1 pages) as [|x l IH]; [done|].
  by rewrite fmap_cons.
Qed.

Ltac new_run_fx :=
  unfold New.run_fx;
  rewrite Hfitz, fitz_pages_run_ok, Hplumber, text_pages_run_ok by done;
  destruct save; proj_chain;
  rewrite ?app_nil_r.

Lemma new_fx_text :
  fx_text (New.run_fx w self save out) = per_page text_entries pages.
Proof.
  new_run_fx.
  all: rewrite (proj_per_fitz_page fx_text (λ _ _, [])), per_fitz_page_nil;
    try done; [|intros; by apply fitz_page_fx_no].
  all: cbn [app].
  all: by apply (proj_per_page fx_text text_entries
                   (λ p page, fx_print (New.processing_line p)
                              ⊕ text_fx w p page)).
Qed.

Lemma new_fx_urls :
  fx_urls (New.run_fx w self save out) = per_page (url_entries w) pages.
Proof.
  new_run_fx.
  all: rewrite (proj_per_fitz_page fx_urls (λ _ _, [])), per_fitz_page_nil;
    try done; [|intros; by apply fitz_page_fx_no].
  all: cbn [app].
  all: by apply (proj_per_page fx_urls (url_entries w)
                   (λ p page, fx_print (New.processing_line p)
                              ⊕ text_fx w p page)).
Qed.

Lemma new_fx_numbers :
  fx_numbers (New.run_fx w self save out) = per_page numbers_entries pages.
Proof.
  new_run_fx.
  all: rewrite (proj_per_fitz_page fx_numbers (λ _ _, [])), per_fitz_page_nil;
    try done; [|intros; by apply fitz_page_fx_no].
  all: cbn [app].
  all: by apply (proj_per_page fx_numbers numbers_entries
                   (λ p page, fx_print (New.processing_line p)
                              ⊕ text_fx w p page)).
Qed.

Lemma new_fx_tables :
  fx_tables (New.run_fx w self save out) = per_page table_entries pages.
Proof.
  new_run_fx.
  all: rewrite (proj_per_fitz_page fx_tables (λ _ _, [])), per_fitz_page_nil;
    try done; [|intros; by apply fitz_page_fx_no].
  all: cbn [app].
  all: by apply (proj_per_page fx_tables table_entries
                   (λ p page, fx_print (New.processing_line p)
                              ⊕ text_fx w p page)).
Qed.

Lemma new_fx_images :
  fx_images (New.run_fx w self save out)
  = New.recorded_images w doc out save.
Proof.
  new_run_fx.
  all: rewrite (proj_per_page fx_images (λ _ _, [])
                  (λ p page, fx_print (New.processing_line p)
                             ⊕ text_fx w p page)),
         per_page_nil, ?app_nil_r by done.
  all: apply proj_per_fitz_page; try done.
  all: intros page_num image_list.
  all: by apply (fitz_page_fx_proj fx_images []
                   (λ img_num xref,
                      match New.image_result w doc xref with
                      | Returns r =>
                          [New.image_entry_of out _ (page_num + 1) img_num r]
                      | Raises _ => []
                      end)).
Qed.

Lemma new_fx_trace :
  fx_trace (New.run_fx w self save out)
  = (if save then [EvMakedirs out] else [])
    ++ [EvFitzOpen (pdf_path self)]
    ++ New.per_fitz_page (New.page_image_events w doc out save) doc
    ++ [EvFitzClose (pdf_path self); EvPlumberOpen (pdf_path self)]
    ++ per_page page_steps pages
    ++ [EvPlumberClose (pdf_path self)].
Proof.
  unfold New.run_fx.
  rewrite Hfitz, fitz_pages_run_ok, Hplumber, text_pages_run_ok by done.
  proj_chain.
  assert (fx_trace (if save then fx_makedirs out else fx_empty)
          = if save then [EvMakedirs out] else []) as ->
    by (by destruct save).
  rewrite (proj_per_fitz_page fx_trace
             (New.page_image_events w doc out save)); try done.
  2: { intros page_num image_list.
       by apply (fitz_page_fx_proj fx_trace [EvGetImages (page_num + 1)]
                   (New.image_events w doc out save page_num)). }
  rewrite (proj_per_page fx_trace page_steps
             (λ p page, fx_print (New.processing_line p)
                        ⊕ text_fx w p page)); try done.
  2: { intros p page Hp. cbn [fx_trace fx_app fx_print text_fx app].
       apply text_events_steps.
       unfold pages_return in Hpages. rewrite Forall_forall in Hpages.
       by apply Hpages. }
  by rewrite <- !app_assoc.
Qed.


End NewRun.

(** *** The whole run, lightweight variant *)

Lemma program_run_returns w self save out r :
  Program.run_outcome w self save out = Returns r →
  ∃ pages,
    pdfplumber_open w (pdf_path self) = Returns pages ∧
    Program.pages_return save pages ∧ r = data self.
Proof.
  unfold Program.run_outcome. intros H.
  destruct (pdfplumber_open w (pdf_path self)) as [pages|] eqn:Hplumber;
    [|done].
  destruct (Program.pages_run w out save pages).1 as [u|] eqn:Hpages; [|done].
  injection H as <-. exists pages. split_and!; try done.
  by eapply program_pages_run_returns.
Qed.

Section ProgramRun.
Context (w : world) (self : PDFReader) (save : bool) (out : string).
Context (pages : list plumber_page).
Hypothesis Hplumber : pdfplumber_open w (pdf_path self) = Returns pages.
Hypothesis Hpages : Program.pages_return save pages.

Ltac program_run_fx :=
  unfold Program.run_fx;
  rewrite Hplumber, program_pages_run_ok by done;
  proj_chain; rewrite ?app_nil_r.

Lemma program_fx_text :
  fx_text (Program.run_fx w self save out) = per_page text_entries pages.
Proof.
  program_run_fx.
  assert (fx_text (if save then fx_makedirs out else fx_empty) = []) as ->
    by (by destruct save).
  apply (proj_per_page fx_text text_entries (Program.page_fx w out save));
    try done.
  intros p page _. unfold Program.page_fx. proj_chain.
  destruct (text_outcome page), save; proj_chain; by rewrite ?app_nil_r.
Qed.

Lemma program_fx_trace :
  fx_trace (Program.run_fx w self save out)
  = (if save then [EvMakedirs out] else [])
    ++ [EvPlumberOpen (pdf_path self)]
    ++ per_page (Program.page_steps save) pages
    ++ [EvPlumberClose (pdf_path self)].
Proof.
  program_run_fx.
  rewrite (proj_per_page fx_trace (Program.page_steps save)
             (Program.page_fx w out save)); try done.
  - destruct save; proj_chain; by rewrite <- ?app_assoc.
  - intros p page Hp. unfold Program.pages_return in Hpages.
    rewrite Forall_forall in Hpages. specialize (Hpages page Hp).
    unfold Program.page_fx, Program.page_steps. proj_chain.
    rewrite (text_events_steps p page)
      by (by apply program_page_outcome_text with save).
    rewrite (program_page_outcome_text save page Hpages).
    destruct save; proj_chain; by rewrite ?app_nil_r.
Qed.

End ProgramRun.

End RunFacts.

(** ** What the lists of a run hold *)

Module EntryFacts.
Import FxFacts RunFacts.

Lemma elem_of_concat {X} (x : X) (ls : list (list X)) :
  x ∈ concat ls ↔ ∃ l, x ∈ l ∧ l ∈ ls.
Proof.
  induction ls as [|l ls IH]; simpl.
  - split; [by intros ?%elem_of_nil|].
    by intros (l & _ & ?%elem_of_nil).
  - rewrite elem_of_app, IH. split.
    + intros [H|(l' & H1 & H2)].
      * exists l. split; [done|apply list_elem_of_here].
      * exists l'. split; [done|by apply list_elem_of_further].
    + intros (l' & H1 & [->|H2]%elem_of_cons); [by left|].
      right. by exists l'.
Qed.

Lemma elem_of_per_page {X} (f : nat → plumber_page → list X) pages x :
  x ∈ per_page f pages ↔
  ∃ i page, pages !! i = Some page ∧ x ∈ f (S i) page.
Proof.
  unfold per_page. rewrite elem_of_concat. split.
  - intros (l & Hx & Hl). apply list_elem_of_fmap in Hl as ([p page] & -> & Hp).
    apply elem_of_enumerate in Hp as (i & -> & Hi). by exists i, page.
  - intros (i & page & Hi & Hx). exists (f (S i) page). split; [done|].
    apply (list_elem_of_fmap_2 (λ it, f it.1 it.2) _ (S i, page)).
    apply elem_of_enumerate. by exists i.
Qed.

Lemma elem_of_per_fitz_page {X} (f : nat → list Z → list X) doc x :
  x ∈ New.per_fitz_page f doc ↔
  ∃ page_num image_list,
    fitz_pages doc !! page_num = Some (Returns image_list) ∧
    x ∈ f page_num image_list.
Proof.
  unfold New.per_fitz_page. rewrite elem_of_concat. split.
  - intros (l & Hx & Hl).
    apply elem_of_lookup_imap in Hl as (i & [image_list|e] & -> & Hi).
    + by exists i, image_list.
    + by apply elem_of_nil in Hx.
  - intros (i & image_list & Hi & Hx). exists (f i image_list).
    split; [done|].
    by apply (elem_of_lookup_imap_2
                (λ page_num images,
                   match images with
                   | Returns image_list => f page_num image_list
                   | Raises _ => []
                   end) _ (Returns image_list) i).
Qed.

(** An element of a list read off the positions, counted from 1, of another
    list. *)
Lemma elem_of_concat_enumerate {X Y} (f : nat → Y → list X) (l : list Y) x :
  x ∈ concat ((λ it, f it.1 it.2) <$> enumerate 1 l) ↔
  ∃ i y, l !! i = Some y ∧ x ∈ f (S i) y.
Proof.
  rewrite elem_of_concat. split.
  - intros (k & Hx & Hk). apply list_elem_of_fmap in Hk as ([p y] & -> & Hp).
    apply elem_of_enumerate in Hp as (i & -> & Hi). by exists i, y.
  - intros (i & y & Hi & Hx). exists (f (S i) y). split; [done|].
    apply (list_elem_of_fmap_2 (λ it, f it.1 it.2) _ (S i, y)).
    apply elem_of_enumerate. by exists i.
Qed.

(** An image is recorded exactly when it is extracted and decoded, and
    then under its own position in the list of its page. *)
Lemma elem_of_recorded_images w doc out save entry :
  entry ∈ New.recorded_images w doc out save ↔
  ∃ page_num image_list i xref r,
    fitz_pages doc !! page_num = Some (Returns image_list) ∧
    image_list !! i = Some xref ∧
    New.image_result w doc xref = Returns r ∧
    entry = New.image_entry_of out save (page_num + 1) (S i) r.
Proof.
  unfold New.recorded_images. rewrite elem_of_per_fitz_page. split.
  - intros (page_num & image_list & Hpage & Hin).
    unfold New.page_recorded_images in Hin.
    apply (elem_of_concat_enumerate
             (λ img_num xref,
                match New.image_result w doc xref with
                | Returns r =>
                    [New.image_entry_of out save (page_num + 1) img_num r]
                | Raises _ => []
                end)) in Hin as (i & xref & Hi & Hin).
    destruct (New.image_result w doc xref) as [r|e] eqn:E.
    + apply list_elem_of_singleton in Hin as ->.
      by exists page_num, image_list, i, xref, r.
    + by apply elem_of_nil in Hin.
  - intros (page_num & image_list & i & xref & r & Hpage & Hi & Hr & ->).
    exists page_num, image_list. split; [done|].
    unfold New.page_recorded_images.
    apply (elem_of_concat_enumerate
             (λ img_num xref,
                match New.image_result w doc xref with
                | Returns r =>
                    [New.image_entry_of out save (page_num + 1) img_num r]
                | Raises _ => []
                end)).
    exists i, xref. split; [done|]. rewrite Hr. apply list_elem_of_here.
Qed.


(** The text entries of the pages: one for each page with a non-empty
    text, under the number of the page. *)
Lemma elem_of_text_entries pages e :
  e ∈ per_page text_entries pages ↔
  ∃ i page,
    pages !! i = Some page ∧
    page_extract_text page = Returns (Some (text_content e)) ∧
    text_content e ≠ "" ∧ text_page e = S i.
Proof.
  rewrite elem_of_per_page. split.
  - intros (i & page & Hi & He). exists i, page. split; [done|].
    unfold text_entries, page_text in He.
    destruct (page_extract_text page) as [[[|c t]|]|];
      try by apply elem_of_nil in He.
    by apply list_elem_of_singleton in He as ->.
  - intros (i & page & Hi & Ht & Hne & Hp). exists i, page. split; [done|].
    unfold text_entries, page_text. rewrite Ht.
    destruct e as [p [|c t]]; simpl in *; [done|]. subst p.
    apply list_elem_of_here.
Qed.

Lemma text_entries_sorted pages :
  StronglySorted lt (text_page <$> per_page text_entries pages).
Proof.
  unfold per_page. generalize 1.
  induction pages as [|page pages IH]; intros start; [constructor|].
  cbn [enumerate fmap list_fmap concat fst snd].
  change (list_fmap _ _ ?f ?l) with (f <$> l). rewrite fmap_app.
  apply StronglySorted_app. split_and!; [|..|apply IH].
  - intros p1 p2 H1 H2.
    assert (p1 = start) as ->.
    { unfold text_entries in H1. destruct (page_text page).
      - by apply list_elem_of_singleton in H1.
      - by apply elem_of_nil in H1. }
    apply list_elem_of_fmap in H2 as (e & -> & He).
    apply elem_of_concat in He as (l & He & Hl).
    apply list_elem_of_fmap in Hl as ([p page'] & -> & Hp).
    apply elem_of_enumerate in Hp as (i & -> & _).
    unfold text_entries in He. simpl in He. destruct (page_text page').
    + apply list_elem_of_singleton in He as ->. simpl. lia.
    + by apply elem_of_nil in He.
  - unfold text_entries. destruct (page_text page); repeat constructor.
Qed.

End EntryFacts.

(** ** Documents opened and closed *)

Module HandleFacts.
Import FxFacts RunFacts.






End HandleFacts.

(** * The claims about the pipeline *)

(** C4, as the code has it.  A run that returns has visited every page of
    the pdfplumber document exactly once, in ascending page order, and has
    made for each page, in this order: the text extraction; when the text is
    non-empty, the URL scan and then the number scan; the table extraction.
    In the lightweight variant the image listing of the page follows its
    table extraction, when [save_images] is set, and is not made at all
    otherwise.  In the full-fidelity variant the images of all pages are
    extracted in a first pass over the PyMuPDF document, in ascending page
    order, which ends before the text of the first page is extracted. *)
Theorem C4_page_order (w : world) (self : PDFReader) (save_images : bool)
    (output_dir : string) (st st' : state) (r : nat) :
  (Program.extract_all w self save_images output_dir st = (Returns r, st') →
   ∃ pages,
     pdfplumber_open w (pdf_path self) = Returns pages ∧
     trace st' =
       trace st
       ++ (if save_images then [EvMakedirs output_dir] else [])
       ++ [EvPlumberOpen (pdf_path self)]
       ++ per_page (Program.page_steps save_images) pages
       ++ [EvPlumberClose (pdf_path self)]) ∧
  (New.extract_all w self save_images output_dir st = (Returns r, st') →
   ∃ doc pages,
     fitz_open w (pdf_path self) = Returns doc ∧
     pdfplumber_open w (pdf_path self) = Returns pages ∧
     trace st' =
       trace st
       ++ (if save_images then [EvMakedirs output_dir] else [])
       ++ [EvFitzOpen (pdf_path self)]
       ++ New.per_fitz_page
            (New.page_image_events w doc output_dir save_images) doc
       ++ [EvFitzClose (pdf_path self); EvPlumberOpen (pdf_path self)]
       ++ per_page page_steps pages
       ++ [EvPlumberClose (pdf_path self)]).
Proof.
  split; intros Hrun.
  - apply (FxFacts.runs_det _ _ _ _ _ _ _
             (FxFacts.runs_program_extract_all w self save_images output_dir))
      in Hrun as [Hr ->].
    symmetry in Hr.
    apply RunFacts.program_run_returns in Hr as (pages & Hopen & Hpages & _).
    exists pages. split; [done|].
    cbn [apply_fx trace]. by rewrite (RunFacts.program_fx_trace _ _ _ _ pages).
  - apply (FxFacts.runs_det _ _ _ _ _ _ _
             (FxFacts.runs_new_extract_all w self save_images output_dir))
      in Hrun as [Hr ->].
    symmetry in Hr.
    apply RunFacts.new_run_returns
      in Hr as (doc & pages & Hfitz & Himages & Hopen & Hpages & _).
    exists doc, pages. split_and!; [done..|].
    cbn [apply_fx trace]. by rewrite (RunFacts.new_fx_trace _ _ _ _ doc pages).
Qed.

Lemma C4_page_order_witness :
  (Program.extract_all Examples.sample (Examples.reader "report.pdf") true "out"
     Examples.fresh
   = (Returns 0,
      (Program.extract_all Examples.sample (Examples.reader "report.pdf") true
         "out" Examples.fresh).2) ∧
   ∃ pages,
     pdfplumber_open Examples.sample "report.pdf" = Returns pages ∧
     trace (Program.extract_all Examples.sample (Examples.reader "report.pdf")
              true "out" Examples.fresh).2 =
       trace Examples.fresh
       ++ [EvMakedirs "out"] ++ [EvPlumberOpen "report.pdf"]
       ++ per_page (Program.page_steps true) pages
       ++ [EvPlumberClose "report.pdf"]) ∧
  (New.extract_all Examples.sample (Examples.reader "report.pdf") true "out"
     Examples.fresh
   = (Returns 0,
      (New.extract_all Examples.sample (Examples.reader "report.pdf") true
         "out" Examples.fresh).2) ∧
   ∃ doc pages,
     fitz_open Examples.sample "report.pdf" = Returns doc ∧
     pdfplumber_open Examples.sample "report.pdf" = Returns pages ∧
     trace (New.extract_all Examples.sample (Examples.reader "report.pdf")
              true "out" Examples.fresh).2 =
       trace Examples.fresh
       ++ [EvMakedirs "out"] ++ [EvFitzOpen "report.pdf"]
       ++ New.per_fitz_page (New.page_image_events Examples.sample doc "out" true)
            doc
       ++ [EvFitzClose "report.pdf"; EvPlumberOpen "report.pdf"]
       ++ per_page page_steps pages
       ++ [EvPlumberClose "report.pdf"]).
Proof.
  assert (H1 : Program.extract_all Examples.sample
                 (Examples.reader "report.pdf") true "out" Examples.fresh
               = (Returns 0,
                  (Program.extract_all Examples.sample
                     (Examples.reader "report.pdf") true "out"
                     Examples.fresh).2))
    by (by vm_compute).
  assert (H2 : New.extract_all Examples.sample
                 (Examples.reader "report.pdf") true "out" Examples.fresh
               = (Returns 0,
                  (New.extract_all Examples.sample
                     (Examples.reader "report.pdf") true "out"
                     Examples.fresh).2))
    by (by vm_compute).
  split.
  - split; [exact H1|].
    exact (proj1 (C4_page_order Examples.sample (Examples.reader "report.pdf")
                    true "out" Examples.fresh _ 0) H1).
  - split; [exact H2|].
    exact (proj2 (C4_page_order Examples.sample (Examples.reader "report.pdf")
                    true "out" Examples.fresh _ 0) H2).
Defined.

(** C4 as the specification states it fails in the full-fidelity variant:
    on [report.pdf] the images of page 1 and of page 2 are extracted before
    the text of page 1. *)
Lemma C4_counterexample :
  trace (New.extract_all Examples.sample (Examples.reader "report.pdf") true
           "out" Examples.fresh).2
  = [EvMakedirs "out"; EvFitzOpen "report.pdf";
     EvGetImages 1; EvExtractImage 1 1; EvWriteFile "out/page1_img1.png";
     EvImageOpen 1 1; EvExtractImage 1 2; EvExtractImage 1 3;
     EvWriteFile "out/page1_img3.png"; EvImageOpen 1 3;
     EvGetImages 2; EvExtractImage 2 1; EvWriteFile "out/page2_img1.png";
     EvImageOpen 2 1; EvFitzClose "report.pdf";
     EvPlumberOpen "report.pdf"; EvExtractText 1;
     EvExtractUrls 1; EvExtractNumbers 1; EvExtractTables 1;
     EvExtractText 2; EvExtractTables 2; EvPlumberClose "report.pdf"].
Proof. by vm_compute. Qed.

(** C5 fails in the full-fidelity variant.  On [damaged.pdf], where the image
    list of page 1 cannot be read, [extract_all] propagates the exception and
    the PyMuPDF document that it opened is still open. *)
Theorem C5_fitz_document_left_open :
  let run :=
    New.extract_all Examples.sample (Examples.reader "damaged.pdf") true "out"
      Examples.fresh in
  open_handles Examples.fresh = [] ∧
  run.1 = Raises "cannot load page" ∧
  open_handles run.2 = [FitzDocument "damaged.pdf"] ∧
  trace run.2 = [EvMakedirs "out"; EvFitzOpen "damaged.pdf"; EvGetImages 1].
Proof. by vm_compute. Qed.






(** C8, as the code has it.  A run that returns appends to [pages_text] one
    entry for each page whose text extraction returned a non-empty text, and
    no other: the appended entries have strictly ascending page numbers, which
    are exactly the numbers, counted from 1, of those pages, and a non-empty
    content.  They are all the entries of the result when the instance was
    fresh; on an instance that has run before, the entries of the earlier
    runs stand in front of them. *)
Theorem C8_pages_text (w : world) (self : PDFReader) (save_images : bool)
    (output_dir : string) (st st' : state) (r : nat) (d : pdf_data) :
  heap st !! data self = Some d →
  New.extract_all w self save_images output_dir st = (Returns r, st') ∨
  Program.extract_all w self save_images output_dir st = (Returns r, st') →
  ∃ pages d',
    pdfplumber_open w (pdf_path self) = Returns pages ∧
    heap st' !! r = Some d' ∧
    data_text d' = data_text d ++ per_page text_entries pages ∧
    (data_text d = [] → data_text d' = per_page text_entries pages) ∧
    StronglySorted lt (text_page <$> per_page text_entries pages) ∧
    (∀ e, e ∈ per_page text_entries pages ↔
          ∃ i page,
            pages !! i = Some page ∧
            page_extract_text page = Returns (Some (text_content e)) ∧
            text_content e ≠ "" ∧ text_page e = S i) ∧
    (∀ e, e ∈ per_page text_entries pages → text_content e ≠ "").
Proof.
  intros Hd Hrun.
  assert (∃ pages fx,
            pdfplumber_open w (pdf_path self) = Returns pages ∧
            r = data self ∧ st' = apply_fx (data self) fx st ∧
            fx_text fx = per_page text_entries pages)
    as (pages & fx & Hopen & -> & -> & Hfx).
  { destruct Hrun as [Hrun|Hrun].
    - apply (FxFacts.runs_det _ _ _ _ _ _ _
               (FxFacts.runs_new_extract_all w self save_images output_dir))
        in Hrun as [Hr ->].
      symmetry in Hr.
      apply RunFacts.new_run_returns
        in Hr as (doc & pages & Hfitz & Himages & Hopen & Hpages & ->).
      exists pages, (New.run_fx w self save_images output_dir).
      split_and!; try done. by apply RunFacts.new_fx_text with doc.
    - apply (FxFacts.runs_det _ _ _ _ _ _ _
               (FxFacts.runs_program_extract_all w self save_images output_dir))
        in Hrun as [Hr ->].
      symmetry in Hr.
      apply RunFacts.program_run_returns in Hr as (pages & Hopen & Hpages & ->).
      exists pages, (Program.run_fx w self save_images output_dir).
      split_and!; try done. by apply RunFacts.program_fx_text. }
  exists pages, (append_data fx d). split_and!; try done.
  - unfold apply_fx. cbn [heap]. by rewrite lookup_alter_eq, Hd.
  - cbn [append_data data_text]. by rewrite Hfx.
  - intros Hnil. cbn [append_data data_text]. by rewrite Hfx, Hnil.
  - apply EntryFacts.text_entries_sorted.
  - apply EntryFacts.elem_of_text_entries.
  - intros e He. by apply EntryFacts.elem_of_text_entries in He as (_ & _ & _ & _ & ? & _).
Qed.

Lemma C8_pages_text_witness :
  heap Examples.fresh !! 0 = Some empty_data ∧
  Program.extract_all Examples.sample (Examples.reader "report.pdf") true "out"
    Examples.fresh
  = (Returns 0,
     (Program.extract_all Examples.sample (Examples.reader "report.pdf") true
        "out" Examples.fresh).2) ∧
  ∃ pages d',
    pdfplumber_open Examples.sample "report.pdf" = Returns pages ∧
    heap (Program.extract_all Examples.sample (Examples.reader "report.pdf")
            true "out" Examples.fresh).2 !! 0 = Some d' ∧
    data_text d' = per_page text_entries pages ∧
    StronglySorted lt (text_page <$> per_page text_entries pages).
Proof.
  assert (H1 : heap Examples.fresh !! 0 = Some empty_data) by (by vm_compute).
  assert (H2 : Program.extract_all Examples.sample
                 (Examples.reader "report.pdf") true "out" Examples.fresh
               = (Returns 0,
                  (Program.extract_all Examples.sample
                     (Examples.reader "report.pdf") true "out"
                     Examples.fresh).2))
    by (by vm_compute).
  split; [exact H1|]. split; [exact H2|].
  destruct (C8_pages_text Examples.sample (Examples.reader "report.pdf") true
              "out" Examples.fresh _ 0 empty_data H1 (or_intror H2))
    as (pages & d' & Hopen & Hd' & _ & Hfresh & Hsorted & _).
  exists pages, d'. split_and!; [exact Hopen|exact Hd'|exact (Hfresh eq_refl)|exact Hsorted].
Defined.

(** C8 as the specification states it fails on an instance that has run
    before: after a second run on [report.pdf] the result holds the entry of
    page 1 twice, so that its page numbers are not strictly ascending. *)
Lemma C8_counterexample :
  (λ d, text_page <$> data_text d)
    <$> heap ((Program.extract_all Examples.sample
                 (Examples.reader "report.pdf") true "out" ;;
               Program.extract_all Examples.sample
                 (Examples.reader "report.pdf") true "out")
                Examples.fresh).2 !! 0
  = Some [1; 1] ∧
  ((Program.extract_all Examples.sample (Examples.reader "report.pdf") true "out" ;;
    Program.extract_all Examples.sample (Examples.reader "report.pdf") true "out")
     Examples.fresh).1 = Returns 0.
Proof. by vm_compute. Qed.



(** C10.  In the full-fidelity variant a run that returns appends to
    [images] one entry for each embedded image that is extracted and decoded,
    in page order and in the order of the image list of the page; the
    [image_number] of an entry is the position of its image in that list,
    counted from 1 on every page, whether or not the images before it were
    recorded.  On [report.pdf], where the second of the three images of
    page 1 fails, the numbers recorded are 1 and 3 on page 1, then 1 on
    page 2. *)
Theorem C10_image_numbers :
  (∀ (w : world) (self : PDFReader) (save_images : bool) (output_dir : string)
     (st st' : state) (r : nat) (d : pdf_data),
     heap st !! data self = Some d →
     New.extract_all w self save_images output_dir st = (Returns r, st') →
     ∃ doc d',
       fitz_open w (pdf_path self) = Returns doc ∧
       heap st' !! r = Some d' ∧
       data_images d'
       = data_images d ++ New.recorded_images w doc output_dir save_images ∧
       ∀ entry,
         entry ∈ New.recorded_images w doc output_dir save_images ↔
         ∃ page_num image_list i xref res,
           fitz_pages doc !! page_num = Some (Returns image_list) ∧
           image_list !! i = Some xref ∧
           New.image_result w doc xref = Returns res ∧
           entry = New.image_entry_of output_dir save_images (page_num + 1)
                     (S i) res) ∧
  (λ e, (image_page e, image_number e))
    <$> New.recorded_images Examples.sample Examples.report_fitz "out" true
  = [(1, 1); (1, 3); (2, 1)].
Proof.
  split; [|by vm_compute].
  intros w self save_images output_dir st st' r d Hd Hrun.
  apply (FxFacts.runs_det _ _ _ _ _ _ _
           (FxFacts.runs_new_extract_all w self save_images output_dir))
    in Hrun as [Hr ->].
  symmetry in Hr.
  apply RunFacts.new_run_returns
    in Hr as (doc & pages & Hfitz & Himages & Hopen & Hpages & ->).
  exists doc, (append_data (New.run_fx w self save_images output_dir) d).
  split_and!; try done.
  - unfold apply_fx. cbn [heap]. by rewrite lookup_alter_eq, Hd.
  - cbn [append_data data_images].
    by rewrite (RunFacts.new_fx_images w self save_images output_dir doc pages).
  - apply EntryFacts.elem_of_recorded_images.
Qed.

Lemma C10_image_numbers_witness :
  heap Examples.fresh !! 0 = Some empty_data ∧
  New.extract_all Examples.sample (Examples.reader "report.pdf") true "out"
    Examples.fresh
  = (Returns 0,
     (New.extract_all Examples.sample (Examples.reader "report.pdf") true
        "out" Examples.fresh).2) ∧
  ∃ doc d',
    fitz_open Examples.sample "report.pdf" = Returns doc ∧
    heap (New.extract_all Examples.sample (Examples.reader "report.pdf") true
            "out" Examples.fresh).2 !! 0 = Some d' ∧
    data_images d' = [] ++ New.recorded_images Examples.sample doc "out" true.
Proof.
  assert (H1 : heap Examples.fresh !! 0 = Some empty_data) by (by vm_compute).
  assert (H2 : New.extract_all Examples.sample (Examples.reader "report.pdf")
                 true "out" Examples.fresh
               = (Returns 0,
                  (New.extract_all Examples.sample
                     (Examples.reader "report.pdf") true "out"
                     Examples.fresh).2))
    by (by vm_compute).
  split; [exact H1|]. split; [exact H2|].
  destruct (proj1 C10_image_numbers Examples.sample
              (Examples.reader "report.pdf") true "out" Examples.fresh _ 0
              empty_data H1 H2)
    as (doc & d' & Hopen & Hd' & Himages & _).
  exists doc, d'. split_and!; [exact Hopen|exact Hd'|exact Himages].
Defined.
(** * Further properties of the recognizers *)

(** ** The URL pattern, read off character by character *)

Module UrlScanFacts.
Import Re StrFacts ReFacts.

Lemma strip_prefix_app p s rest :
  Scan.strip_prefix p s = Some rest → s = p +:+ rest.
Proof.
  revert s. induction p as [|c p IH]; intros s H.
  - by injection H as ->.
  - destruct s as [|a s]; [done|]. simpl in H.
    destruct (Ascii.eqb a c) eqn:E; [|done]. apply Ascii.eqb_eq in E as ->.
    rewrite app_cons. f_equal. by apply IH.
Qed.

Lemma span_app p s : s = (Scan.span p s).1 +:+ (Scan.span p s).2.
Proof.
  induction s as [|a s IH]; [done|]. simpl.
  destruct (p a); [|done].
  destruct (Scan.span p s) as [run rest]. simpl in *.
  rewrite app_cons. by f_equal.
Qed.

Lemma span_forallb p s : Str.forallb p (Scan.span p s).1 = true.
Proof.
  induction s as [|a s IH]; [done|]. simpl.
  destruct (p a) eqn:E; [|done].
  destruct (Scan.span p s) as [run rest]. simpl in *. by rewrite E.
Qed.

(** A literal word in front of a pattern. *)
Lemma bt_word {A} p r s (k : string → option A) :
  bt (word p r) s k
  = match Scan.strip_prefix p s with
    | Some s' => bt r s' k
    | None => None
    end.
Proof.
  revert s. induction p as [|c p IH]; intros s; [done|].
  change (bt (word (String c p) r) s k)
    with (match s with
          | String a s' => if Ascii.eqb a c then bt (word p r) s' k else None
          | "" => None
          end).
  destruct s as [|a s]; [done|]. cbn [Scan.strip_prefix].
  destruct (Ascii.eqb a c); [apply IH|done].
Qed.

(** One turn of the repeated group takes one accepted character; the
    alternative for a percent-encoded octet is never reached, since the
    percent sign and the hex digits are accepted characters on their own. *)
Lemma bt_url_item_nil {A} (k : string → option A) : bt url_item "" k = None.
Proof. reflexivity. Qed.

Lemma bt_url_item_no {A} a s (k : string → option A) :
  url_char a = false → bt url_item (String a s) k = None.
Proof.
  intros H.
  destruct a as [[] [] [] [] [] [] [] []]; try discriminate H; reflexivity.
Qed.

Lemma bt_url_item_yes {A} a s (k : string → option A) x :
  url_char a = true → k s = Some x → bt url_item (String a s) k = Some x.
Proof.
  intros H Hk.
  destruct a as [[] [] [] [] [] [] [] []]; try discriminate H;
    cbn; rewrite ?Hk; reflexivity.
Qed.

(** The greedy repetition of the group in front of a continuation that
    always accepts takes the longest run of accepted characters. *)
Lemma repeat_url_items {A} (k : string → option A) n s :
  (∀ t, is_Some (k t)) → String.length s ≤ n →
  repeat_greedy (bt url_item) k n s = k (Scan.span url_char s).2.
Proof.
  intros Hk. revert s. induction n as [|n IH]; intros s Hn.
  - destruct s; [done|simpl in Hn; lia].
  - destruct s as [|a s]; [done|].
    cbn [repeat_greedy Scan.span].
    destruct (url_char a) eqn:E.
    + destruct (Hk (Scan.span url_char s).2) as [x Hx].
      rewrite (bt_url_item_yes a s _ x E).
      * destruct (Scan.span url_char s) as [run rest]. simpl in *.
        by rewrite Hx.
      * assert ((String.length s <? String.length (String a s)) = true) as ->
          by (apply Nat.ltb_lt; simpl; lia).
        rewrite IH by (simpl in Hn; lia). done.
    + by rewrite bt_url_item_no.
Qed.

Lemma bt_plus_url_item {A} (k : string → option A) s :
  (∀ t, is_Some (k t)) →
  bt (Plus url_item) s k
  = match s with
    | String a s' => if url_char a then k (Scan.span url_char s').2 else None
    | "" => None
    end.
Proof.
  intros Hk.
  change (bt (Plus url_item) s k)
    with (bt url_item s
            (λ s1, repeat_greedy (bt url_item) k (String.length s1) s1)).
  destruct s as [|a s]; [done|].
  destruct (url_char a) eqn:E; [|by apply bt_url_item_no].
  destruct (Hk (Scan.span url_char s).2) as [x Hx].
  rewrite Hx. apply bt_url_item_yes; [done|].
  by rewrite repeat_url_items.
Qed.

(** [://] and the repeated group. *)
Lemma bt_url_tail {A} (k : string → option A) t :
  (∀ t, is_Some (k t)) →
  bt (word "://" (Plus url_item)) t k
  = match Scan.strip_prefix "://" t with
    | None => None
    | Some s3 =>
        let '(body, rest) := Scan.span url_char s3 in
        if Str.is_empty body then None else k rest
    end.
Proof.
  intros Hk. rewrite bt_word.
  destruct (Scan.strip_prefix "://" t) as [s3|]; [|done].
  rewrite bt_plus_url_item by done.
  destruct s3 as [|a s']; [done|]. cbn [Scan.span].
  destruct (url_char a); [|done].
  by destruct (Scan.span url_char s').
Qed.

Lemma bt_url_tail_s {A} (k : string → option A) t :
  bt (word "://" (Plus url_item)) (String "s" t) k = None.
Proof. by rewrite bt_word. Qed.

(** The engine on [url_pattern], with a continuation that always accepts. *)
Lemma bt_url_pattern {A} (k : string → option A) s :
  (∀ t, is_Some (k t)) →
  bt url_pattern s k
  = match Scan.url_split_at s with
    | Some (_, rest) => k rest
    | None => None
    end.
Proof.
  intros Hk. unfold url_pattern, Scan.url_split_at. rewrite bt_word.
  destruct (Scan.strip_prefix "http" s) as [s1|]; [|done].
  change (bt (Cat (Opt (Class [One "s"])) (word "://" (Plus url_item))) s1 k)
    with (match match s1 with
                | String a s' =>
                    if in_class [One "s"] a
                    then bt (word "://" (Plus url_item)) s' k else None
                | "" => None
                end with
          | Some x => Some x
          | None => bt (word "://" (Plus url_item)) s1 k
          end).
  assert (Htail : ∀ scheme t,
            bt (word "://" (Plus url_item)) t k
            = match match Scan.strip_prefix "://" t with
                    | None => None
                    | Some s3 =>
                        let '(body, rest) := Scan.span url_char s3 in
                        if Str.is_empty body then None
                        else Some (scheme +:+ "://" +:+ body, rest)
                    end with
              | Some (_, rest) => k rest
              | None => None
              end).
  { intros scheme t. rewrite bt_url_tail by done.
    destruct (Scan.strip_prefix "://" t) as [s3|]; [|done].
    destruct (Scan.span url_char s3) as [body rest].
    by destruct (Str.is_empty body). }
  destruct s1 as [|a s1']; [apply Htail|].
  destruct (Ascii.eqb a "s") eqn:E.
  - apply Ascii.eqb_eq in E as ->. cbn [in_class existsb in_item Ascii.eqb orb Bool.eqb].
    rewrite bt_url_tail_s, (Htail "https").
    by destruct (match Scan.strip_prefix "://" s1' with
                 | Some s3 => _ | None => None end) as [[tok rest]|];
      [destruct (Hk rest) as [x ->]|].
  - assert (in_class [One "s"] a = false) as ->.
    { unfold in_class. simpl. by rewrite E. }
    rewrite (Htail "http"). apply Ascii.eqb_neq in E.
    by destruct a as [[] [] [] [] [] [] [] []].
Qed.

Lemma url_split_at_app s tok rest :
  Scan.url_split_at s = Some (tok, rest) → s = tok +:+ rest ∧ tok ≠ "".
Proof.
  unfold Scan.url_split_at. intros H.
  destruct (Scan.strip_prefix "http" s) as [s1|] eqn:E1; [|done].
  apply strip_prefix_app in E1 as ->.
  assert (∃ scheme s2,
            match s1 with String "s" s' => ("https", s') | _ => ("http", s1) end
            = (scheme, s2) ∧ "http" +:+ s1 = scheme +:+ s2 ∧ scheme ≠ "")
    as (scheme & s2 & E & Hs & Hne).
  { destruct s1 as [|a s1']; [by exists "http", ""|].
    destruct (Ascii.eqb a "s") eqn:E.
    - apply Ascii.eqb_eq in E as ->. by exists "https", s1'.
    - exists "http", (String a s1'). apply Ascii.eqb_neq in E.
      by destruct a as [[] [] [] [] [] [] [] []]. }
  rewrite E in H. rewrite Hs. clear E Hs.
  destruct (Scan.strip_prefix "://" s2) as [s3|] eqn:E3; [|done].
  apply strip_prefix_app in E3 as ->.
  pose proof (span_app url_char s3) as H3.
  destruct (Scan.span url_char s3) as [body rest']. simpl in H3.
  destruct (Str.is_empty body); [done|]. injection H as <- <-.
  split.
  - rewrite H3 at 1. by rewrite !app_assoc.
  - intros [-> _]%app_eq_nil. done.
Qed.

Lemma match_at_url s :
  match_at url_pattern s false = Scan.url_token_at s.
Proof.
  unfold match_at, Scan.url_token_at.
  rewrite bt_url_pattern by (intros t; by eexists). cbn [andb].
  destruct (Scan.url_split_at s) as [[tok rest]|] eqn:E; [|done].
  apply url_split_at_app in E as [-> _]. cbn [fmap option_fmap option_map fst].
  f_equal. rewrite app_length.
  replace (String.length tok + String.length rest - String.length rest)
    with (String.length tok) by lia.
  apply take_app.
Qed.

Lemma url_token_at_app s tok :
  Scan.url_token_at s = Some tok → tok ≠ "" ∧ ∃ rest, s = tok +:+ rest.
Proof.
  unfold Scan.url_token_at. intros H.
  destruct (Scan.url_split_at s) as [[tok' rest]|] eqn:E; [|done].
  injection H as <-. apply url_split_at_app in E as [-> ?]. eauto.
Qed.

(** The engine on [url_pattern] finds the tokens of the scan. *)
Lemma findall_go_url s :
  ∀ skip, findall_go url_pattern s skip
          = Scan.tokens_go Scan.url_token_at s skip.
Proof.
  induction s as [|a s IH]; intros [|n]; [|done| |by apply IH].
  - rewrite findall_go_0, match_at_url. done.
  - rewrite findall_go_0, match_at_url. cbn [Scan.tokens_go].
    destruct (Scan.url_token_at (String a s)) as [tok|] eqn:E; [|by apply IH].
    apply url_token_at_app in E as [Hne _].
    destruct tok as [|b tok]; [done|]. unfold resume. by rewrite IH.
Qed.

End UrlScanFacts.

(** ** Scans, and what a separator does to them *)

Module ScanFacts.
Import Re StrFacts ReFacts NumberFacts UrlScanFacts.

Transparent _extract_urls _extract_numbers numbers_of.

(** A character that no token holds and behind which every token ends cuts
    the scan in two. *)
Lemma tokens_go_sep (token_at : string → option string) c :
  token_at "" = None →
  (∀ s t, token_at (s +:+ String c t) = token_at s) →
  (∀ s tok, token_at s = Some tok → String.length tok ≤ String.length s) →
  ∀ s t skip, skip ≤ String.length s →
    Scan.tokens_go token_at (s +:+ String c t) skip
    = Scan.tokens_go token_at s skip ++ Scan.tokens_go token_at t 0.
Proof.
  intros Hnil Hsep Hlen s t. induction s as [|a s IH]; intros skip Hskip.
  - simpl in Hskip. assert (skip = 0) as -> by lia.
    rewrite app_nil_l. cbn [Scan.tokens_go].
    specialize (Hsep "" t). rewrite app_nil_l, Hnil in Hsep. by rewrite Hsep.
  - rewrite app_cons. destruct skip as [|n].
    + cbn [Scan.tokens_go]. rewrite <- app_cons, Hsep.
      destruct (token_at (String a s)) as [tok|] eqn:E.
      * apply Hlen in E. simpl in E.
        rewrite IH by lia. done.
      * by rewrite IH by lia.
    + cbn [Scan.tokens_go]. apply IH. simpl in Hskip. lia.
Qed.



Lemma span_sep p s c t :
  p c = false →
  Scan.span p (s +:+ String c t)
  = ((Scan.span p s).1, (Scan.span p s).2 +:+ String c t).
Proof.
  intros Hc. induction s as [|a s IH].
  - rewrite app_nil_l. simpl. by rewrite Hc.
  - rewrite app_cons. simpl. destruct (p a); [|done].
    rewrite IH. by destruct (Scan.span p s).
Qed.

Lemma strip_prefix_sep p s c t :
  Str.mem c p = false →
  Scan.strip_prefix p (s +:+ String c t)
  = (λ r, r +:+ String c t) <$> Scan.strip_prefix p s.
Proof.
  revert s. induction p as [|b p IH]; intros s Hc; [done|].
  simpl in Hc. apply orb_false_iff in Hc as [Hb Hc].
  destruct s as [|a s].
  - rewrite app_nil_l. simpl. rewrite Ascii.eqb_sym in Hb. by rewrite Hb.
  - rewrite app_cons. simpl. destruct (Ascii.eqb a b); [by apply IH|done].
Qed.



Lemma url_char_sep c p :
  url_char c = false → Str.forallb url_char p = true → Str.mem c p = false.
Proof.
  intros Hc. induction p as [|b p IH]; [done|]. simpl.
  intros [Hb Hp]%andb_true_iff. rewrite IH by done.
  destruct (Ascii.eqb b c) eqn:E; [|done].
  apply Ascii.eqb_eq in E as ->. congruence.
Qed.

Lemma url_split_at_sep s c t :
  url_char c = false →
  Scan.url_split_at (s +:+ String c t)
  = (λ tr, (tr.1, tr.2 +:+ String c t)) <$> Scan.url_split_at s.
Proof.
  intros Hc. unfold Scan.url_split_at.
  rewrite strip_prefix_sep by (by apply url_char_sep).
  destruct (Scan.strip_prefix "http" s) as [s1|]; [|done].
  cbn [fmap option_fmap option_map].
  assert (match s1 +:+ String c t with
          | String "s" s' => ("https", s')
          | _ => ("http", s1 +:+ String c t)
          end
          = (let '(scheme, s2) :=
               match s1 with String "s" s' => ("https", s') | _ => ("http", s1)
               end in
             (scheme, s2 +:+ String c t))) as ->.
  { destruct s1 as [|a s'].
    - rewrite app_nil_l.
      destruct c as [[] [] [] [] [] [] [] []]; try done; discriminate Hc.
    - rewrite app_cons. by destruct a as [[] [] [] [] [] [] [] []]. }
  destruct (match s1 with String "s" s' => ("https", s') | _ => ("http", s1) end)
    as [scheme s2].
  rewrite strip_prefix_sep by (by apply url_char_sep).
  destruct (Scan.strip_prefix "://" s2) as [s3|]; [|done].
  cbn [fmap option_fmap option_map].
  rewrite span_sep by done.
  destruct (Scan.span url_char s3) as [body rest]. cbn [fst snd].
  by destruct (Str.is_empty body).
Qed.

Lemma url_token_at_sep s c t :
  url_char c = false →
  Scan.url_token_at (s +:+ String c t) = Scan.url_token_at s.
Proof.
  intros Hc. unfold Scan.url_token_at. rewrite url_split_at_sep by done.
  by destruct (Scan.url_split_at s) as [[tok rest]|].
Qed.

Lemma url_token_at_length s tok :
  Scan.url_token_at s = Some tok → String.length tok ≤ String.length s.
Proof.
  intros [_ (rest & ->)]%url_token_at_app. rewrite app_length. lia.
Qed.

(** An occurrence is a part of the text. *)
Lemma occurrences_substring r s toks tok :
  occurrences r s toks → tok ∈ toks →
  ∃ pre post, s = pre +:+ tok +:+ post.
Proof.
  induction 1 as [s|a s toks _ IH|tok' s toks Hm _ IH]; intros Hin.
  - by apply elem_of_nil in Hin.
  - destruct (IH Hin) as (pre & post & ->).
    by exists (String a pre), post.
  - apply elem_of_cons in Hin as [->|Hin].
    + by exists "", s.
    + destruct (IH Hin) as (pre & post & ->).
      exists (tok' +:+ pre), post. by rewrite app_assoc.
Qed.

Lemma extract_urls_NoDup w text :
  set_order_ok w → NoDup (_extract_urls w text).
Proof.
  intros Hw. unfold _extract_urls. rewrite (Hw _). apply NoDup_elements.
Qed.

End ScanFacts.

(** ** Numbers: tokens and values *)

Module NumberScanFacts.
Import Re StrFacts ReFacts NumberFacts ScanFacts.

Transparent _extract_urls _extract_numbers numbers_of.

Lemma extract_numbers_tokens text :
  _extract_numbers text
  = comprehension number_of_token (Spec.number_tokens text).
Proof.
  unfold _extract_numbers. by rewrite findall_number, filter_nonempty_tokens.
Qed.


Lemma comprehension_length {A B} (f : A → outcome B) l ys :
  comprehension f l = Returns ys → length ys = length l.
Proof.
  revert ys. induction l as [|x l IH]; intros ys H; simpl in H.
  - by injection H as <-.
  - destruct (f x) as [y|]; [|done].
    destruct (comprehension f l) as [ys'|]; [|done].
    injection H as <-. simpl. by rewrite (IH ys').
Qed.



(** A text without a digit has no token, and a text with a digit has one. *)
Lemma no_digit_token_at s :
  Scan.no_digit s = true → Spec.number_token_at s = None.
Proof.
  intros H. unfold Spec.number_token_at.
  assert (∃ minus s1,
            match s with String "-" s' => ("-", s') | _ => ("", s) end
            = (minus, s1) ∧ Num.no_digit_ahead s1) as (minus & s1 & -> & Hno).
  { destruct s as [|a s']; [by exists "", ""|].
    unfold Scan.no_digit in H. simpl in H.
    apply andb_true_iff in H as [Ha H']. apply negb_true_iff in Ha.
    destruct (Ascii.eqb a "-") eqn:E.
    - apply Ascii.eqb_eq in E as ->. exists "-", s'. split; [done|].
      destruct s' as [|b s'']; [done|]. simpl in H'.
      apply andb_true_iff in H' as [Hb _]. by apply negb_true_iff in Hb.
    - exists "", (String a s'). split; [|done]. apply Ascii.eqb_neq in E.
      by destruct a as [[] [] [] [] [] [] [] []]. }
  by rewrite span_digits_stop.
Qed.

Lemma no_digit_tokens s :
  Scan.no_digit s = true → ∀ skip, Spec.number_tokens_go s skip = [].
Proof.
  induction s as [|a s IH]; intros H [|n]; [done..| |].
  - cbn [Spec.number_tokens_go]. rewrite no_digit_token_at by done.
    apply IH. unfold Scan.no_digit in *. simpl in H.
    by apply andb_true_iff in H as [_ ?].
  - cbn [Spec.number_tokens_go]. apply IH.
    unfold Scan.no_digit in *. simpl in H.
    by apply andb_true_iff in H as [_ ?].
Qed.

Lemma digit_token_at a s :
  Num.is_digit a = true → is_Some (Spec.number_token_at (String a s)).
Proof.
  intros Ha. unfold Spec.number_token_at.
  assert (match String a s with
          | String "-" s' => ("-", s')
          | _ => ("", String a s)
          end = ("", String a s)) as ->.
  { destruct a as [[] [] [] [] [] [] [] []]; try done; discriminate Ha. }
  cbn [Num.span_digits]. rewrite Ha.
  destruct (Num.span_digits s) as [ds s2]. cbn [Str.is_empty].
  destruct (match s2 with String "." s' => (".", s') | _ => ("", s2) end)
    as [point s3].
  destruct (Num.span_digits s3). by eexists.
Qed.

Lemma digit_tokens s :
  Scan.no_digit s = false → Spec.number_tokens s ≠ [].
Proof.
  unfold Spec.number_tokens.
  induction s as [|a s IH]; intros H; [done|].
  cbn [Spec.number_tokens_go].
  destruct (Spec.number_token_at (String a s)) as [tok|] eqn:E; [done|].
  apply IH. unfold Scan.no_digit in *. simpl in H.
  destruct (Num.is_digit a) eqn:Ha; [|done].
  destruct (digit_token_at a s Ha) as [tok Htok]. congruence.
Qed.

(** *** Decimal numerals *)

Lemma digits_val_app acc s t :
  Num.digits_val acc (s +:+ t) = Num.digits_val (Num.digits_val acc s) t.
Proof.
  revert acc. induction s as [|a s IH]; intros acc; [done|].
  rewrite app_cons. simpl. apply IH.
Qed.

Lemma pretty_N_char_digit x :
  (x < 10)%N →
  Num.is_digit (pretty_N_char x) = true ∧
  Num.digit_val (pretty_N_char x) = Z.of_N x.
Proof.
  intros H.
  assert (x = 0 ∨ x = 1 ∨ x = 2 ∨ x = 3 ∨ x = 4 ∨ x = 5 ∨ x = 6 ∨ x = 7
          ∨ x = 8 ∨ x = 9)%N as Hx by lia.
  repeat (destruct Hx as [->|Hx]; [done|]). by subst.
Qed.

(** [str(x)] for a natural number: its decimal digits, most significant
    first. *)
Lemma pretty_N_go_digits x s :
  ∃ ds, pretty_N_go x s = ds +:+ s ∧
        Str.forallb Num.is_digit ds = true ∧
        Num.digits_val 0 ds = Z.of_N x ∧
        ((0 < x)%N → ds ≠ "").
Proof.
  revert s. induction (N.lt_wf_0 x) as [x _ IH]; intros s.
  assert (x = 0 ∨ 0 < x)%N as [->|Hx] by lia.
  - exists "". rewrite pretty_N_go_0. split_and!; [done..|lia].
  - rewrite pretty_N_go_step by done.
    destruct (IH (x `div` 10)%N (N.div_lt x 10 Hx eq_refl)
                (String (pretty_N_char (x `mod` 10)) s))
      as (ds & -> & Hds & Hval & _).
    destruct (pretty_N_char_digit (x `mod` 10)%N) as [Hd Hv];
      [by apply N.mod_lt|].
    exists (ds +:+ String (pretty_N_char (x `mod` 10)) "").
    split_and!.
    + by rewrite app_assoc.
    + rewrite forallb_app, Hds. simpl. by rewrite Hd.
    + rewrite digits_val_app, Hval. simpl. rewrite Hv.
      rewrite (N.div_mod x 10) at 3 by done. lia.
    + intros _ [_ ?]%app_eq_nil. done.
Qed.

Lemma pretty_N_digits (x : N) :
  pretty x ≠ "" ∧ Str.forallb Num.is_digit (pretty x) = true ∧
  Num.digits_val 0 (pretty x) = Z.of_N x.
Proof.
  change (pretty x) with (if decide (x = 0)%N then "0" else pretty_N_go x "").
  destruct (decide (x = 0)%N) as [->|Hx]; [done|].
  destruct (pretty_N_go_digits x "") as (ds & -> & Hds & Hval & Hne).
  rewrite app_nil_r. split_and!; [apply Hne; lia|done..].
Qed.

Lemma pretty_nat_digits (n : nat) :
  pretty n ≠ "" ∧ Str.forallb Num.is_digit (pretty n) = true ∧
  Num.digits_val 0 (pretty n) = Z.of_nat n.
Proof.
  change (pretty n) with (pretty (N.of_nat n)).
  destruct (pretty_N_digits (N.of_nat n)) as (? & ? & ->).
  split_and!; [done..|lia].
Qed.







End NumberScanFacts.

(** ** Properties of the two recognizers *)

Section RecognizerProperties.
Import StrFacts.

Transparent _extract_urls _extract_numbers numbers_of.

(** X1.  The URL recognizer without the engine.  [re.findall] on
    [url_pattern] is a scan from left to right: where the text reads [http],
    an [s] or none, [://] and at least one accepted character, it reports
    these together with the longest run of accepted characters that follows
    and goes on behind them; elsewhere it moves one character on.  The
    recognizer returns the set of what the scan reports. *)
Theorem X1_extract_urls_scan (w : world) (text : string) :
  Re.findall url_pattern text = Scan.tokens Scan.url_token_at text ∧
  _extract_urls w text
  = set_order w (list_to_set (Scan.tokens Scan.url_token_at text)).
Proof.
  assert (Re.findall url_pattern text = Scan.tokens Scan.url_token_at text)
    as H by apply UrlScanFacts.findall_go_url.
  split; [done|]. unfold _extract_urls. by rewrite H.
Qed.

(** X2.  Every URL that the recognizer reports stands in the text, as one
    piece. *)
Theorem X2_urls_occur_in_text (w : world) (text u : string) :
  set_order_ok w →
  u ∈ _extract_urls w text →
  ∃ pre post, text = pre +:+ u +:+ post.
Proof.
  intros Hw Hu. apply elem_of_extract_urls in Hu; [|done].
  eapply ScanFacts.occurrences_substring; [|done].
  apply ReFacts.findall_occurrences.
Qed.

Lemma X2_urls_occur_in_text_witness :
  set_order_ok Examples.sample ∧
  "http://a.com/x" ∈ _extract_urls Examples.sample "at http://a.com/x now" ∧
  ∃ pre post, "at http://a.com/x now" = pre +:+ "http://a.com/x" +:+ post.
Proof.
  assert (H : "http://a.com/x"
              ∈ _extract_urls Examples.sample "at http://a.com/x now")
    by (vm_compute; apply list_elem_of_here).
  split; [apply sample_set_order_ok|]. split; [exact H|].
  exact (X2_urls_occur_in_text Examples.sample "at http://a.com/x now"
           "http://a.com/x" sample_set_order_ok H).
Defined.

(** X3.  Without a colon in the text no URL is reported: a host name such
    as [www.example.com] or a mail address on its own is never taken for a
    URL. *)
Theorem X3_no_colon_no_url (w : world) (text : string) :
  set_order_ok w →
  Str.mem ":" text = false →
  _extract_urls w text = [].
Proof.
  intros Hw Hcolon.
  destruct (_extract_urls w text) as [|u l] eqn:E; [done|]. exfalso.
  assert (u ∈ _extract_urls w text) as Hu by (rewrite E; apply list_elem_of_here).
  apply elem_of_extract_urls in Hu; [|done].
  destruct (ScanFacts.occurrences_substring _ _ _ u
              (ReFacts.findall_occurrences url_pattern text) Hu)
    as (pre & post & Htext).
  apply ReFacts.findall_matches, UrlFacts.url_pattern_shape in Hu
    as (scheme & body & -> & _).
  rewrite Htext in Hcolon.
  rewrite !mem_app in Hcolon. simpl in Hcolon.
  by rewrite !orb_true_r in Hcolon.
Qed.

Lemma X3_no_colon_no_url_witness :
  set_order_ok Examples.sample ∧
  Str.mem ":" "see www.example.com or mail info@example.com" = false ∧
  _extract_urls Examples.sample "see www.example.com or mail info@example.com"
  = [].
Proof.
  split; [apply sample_set_order_ok|]. split; [reflexivity|].
  exact (X3_no_colon_no_url Examples.sample
           "see www.example.com or mail info@example.com"
           sample_set_order_ok eq_refl).
Defined.

(** X4.  A character that the pattern does not accept, such as a blank or a
    line break, separates: the URLs found in a text are those found before
    the separator followed by those found behind it, so that no URL reaches
    over it. *)
Theorem X4_urls_separator (w : world) (s t : string) (c : ascii) :
  set_order_ok w →
  url_char c = false →
  Re.findall url_pattern (s +:+ String c t)
  = Re.findall url_pattern s ++ Re.findall url_pattern t ∧
  ∀ u, u ∈ _extract_urls w (s +:+ String c t) ↔
       u ∈ _extract_urls w s ∨ u ∈ _extract_urls w t.
Proof.
  intros Hw Hc.
  assert (Re.findall url_pattern (s +:+ String c t)
          = Re.findall url_pattern s ++ Re.findall url_pattern t) as H.
  { unfold Re.findall. rewrite !UrlScanFacts.findall_go_url.
    apply ScanFacts.tokens_go_sep; [done| | |lia].
    - intros s' t'. by apply ScanFacts.url_token_at_sep.
    - apply ScanFacts.url_token_at_length. }
  split; [done|]. intros u.
  rewrite !elem_of_extract_urls by done. rewrite H. apply elem_of_app.
Qed.

Lemma X4_urls_separator_witness :
  set_order_ok Examples.sample ∧
  url_char " " = false ∧
  Re.findall url_pattern ("see http://a.com" +:+ String " " "or https://b.org/x")
  = Re.findall url_pattern "see http://a.com"
    ++ Re.findall url_pattern "or https://b.org/x".
Proof.
  split; [apply sample_set_order_ok|]. split; [reflexivity|].
  exact (proj1 (X4_urls_separator Examples.sample "see http://a.com"
                  "or https://b.org/x" " " sample_set_order_ok eq_refl)).
Defined.



(** X6.  The number recognizer returns the empty list exactly on the texts
    that hold no digit. *)
Theorem X6_no_digit_no_number (text : string) :
  _extract_numbers text = Returns [] ↔ Scan.no_digit text = true.
Proof.
  rewrite NumberScanFacts.extract_numbers_tokens. split.
  - intros H. apply NumberScanFacts.comprehension_length in H.
    destruct (Scan.no_digit text) eqn:E; [done|].
    apply NumberScanFacts.digit_tokens in E.
    destruct (Spec.number_tokens text); [done|]. simpl in H. lia.
  - intros H. unfold Spec.number_tokens.
    by rewrite NumberScanFacts.no_digit_tokens.
Qed.






End RecognizerProperties.

(** * Further properties of the pipeline *)

(** ** What a run leaves on the disk *)

Module FootprintFacts.
Import FxFacts RunFacts.

Section Projections.
Context {X : Type} (π : effects → list X) (P : X → Prop).
Hypothesis π_empty : π fx_empty = [].
Hypothesis π_app : ∀ x y, π (x ⊕ y) = π x ++ π y.





End Projections.



Lemma text_fx_files w p page : fx_files (text_fx w p page) = [].
Proof. done. Qed.









End FootprintFacts.

(** ** The entries of a run, list by list *)

Module ListFacts.
Import FxFacts RunFacts EntryFacts.

Lemma enumerate_fst {X} (l : list X) start :
  (enumerate start l).*1 = seq start (length l).
Proof.
  revert start. induction l as [|x l IH]; intros start; [done|].
  simpl. by rewrite IH.
Qed.


Lemma fmap_concat {X Y} (f : X → Y) (ls : list (list X)) :
  f <$> concat ls = concat ((λ l : list X, f <$> l) <$> ls).
Proof.
  induction ls as [|l ls IH]; [done|]. simpl. by rewrite fmap_app, IH.
Qed.


(** Lists that are told apart by a key: their concatenation has no
    duplicates when none of them has. *)
Lemma NoDup_concat_keyed {X} (key : X → nat) (ls : list (list X)) start :
  (∀ k l, ls !! k = Some l → NoDup l ∧ ∀ x, x ∈ l → key x = start + k) →
  NoDup (concat ls).
Proof.
  revert start. induction ls as [|l ls IH]; intros start H; [constructor|].
  simpl. apply NoDup_app. split_and!.
  - by apply (H 0 l).
  - intros x Hx Hx'. apply elem_of_concat in Hx' as (l' & Hx' & Hl').
    apply list_elem_of_lookup in Hl' as [k Hk].
    apply (H 0 l) in Hx; [|done].
    apply (H (S k) l') in Hx'; [|done]. lia.
  - apply (IH (S start)). intros k l' Hk.
    destruct (H (S k) l' Hk) as [Hnd Hkey]. split; [done|].
    intros x Hx. rewrite (Hkey x Hx). lia.
Qed.

Lemma NoDup_per_page_keyed {X} (key : X → nat)
    (f : nat → plumber_page → list X) pages :
  (∀ p page, NoDup (f p page) ∧ ∀ x, x ∈ f p page → key x = p) →
  NoDup (per_page f pages).
Proof.
  intros H. unfold per_page. apply (NoDup_concat_keyed key _ 1).
  intros k l Hk. rewrite list_lookup_fmap, enumerate_lookup in Hk.
  destruct (pages !! k) as [page|]; [|done]. injection Hk as <-.
  apply H.
Qed.

(** At most one entry for a page, under the number of the page: the
    entries are in ascending order of their pages. *)
Lemma per_page_sorted {X} (key : X → nat) (f : nat → plumber_page → list X)
    pages :
  (∀ p page, f p page = [] ∨ ∃ x, f p page = [x] ∧ key x = p) →
  StronglySorted lt (key <$> per_page f pages).
Proof.
  intros H. unfold per_page. generalize 1.
  induction pages as [|page pages IH]; intros start; [constructor|].
  cbn [enumerate fmap list_fmap concat fst snd].
  change (list_fmap _ _ ?g ?l) with (g <$> l). rewrite fmap_app.
  apply StronglySorted_app. split_and!; [|..|apply IH].
  - intros p1 p2 H1 H2.
    assert (p1 = start) as ->.
    { destruct (H start page) as [E|(x & E & Hx)]; rewrite E in H1.
      - by apply elem_of_nil in H1.
      - by apply list_elem_of_singleton in H1 as ->. }
    apply list_elem_of_fmap in H2 as (e & -> & He).
    apply elem_of_concat in He as (l & He & Hl).
    apply list_elem_of_fmap in Hl as ([p page'] & -> & Hp).
    apply elem_of_enumerate in Hp as (i & Hpi & _). cbn [fst snd] in He.
    destruct (H p page') as [E|(x & E & Hx)]; rewrite E in He.
    + by apply elem_of_nil in He.
    + apply list_elem_of_singleton in He as ->. lia.
  - destruct (H start page) as [->|(x & -> & Hx)]; repeat constructor.
Qed.

(** *** Tables *)

Lemma elem_of_table_entries pages e :
  pages_return pages →
  e ∈ per_page table_entries pages ↔
  ∃ i page ts j t,
    pages !! i = Some page ∧ page_extract_tables page = Returns ts ∧
    ts !! j = Some t ∧
    e = {| table_page := S i; table_number := S j; table_data := t |}.
Proof.
  intros Hpages. rewrite elem_of_per_page. split.
  - intros (i & page & Hi & He). unfold table_entries in He.
    destruct (page_extract_text page); [|by apply elem_of_nil in He].
    destruct (page_extract_tables page) as [ts|] eqn:Ets;
      [|by apply elem_of_nil in He].
    apply list_elem_of_fmap in He as ([n t] & -> & Hn).
    apply elem_of_enumerate in Hn as (j & -> & Hj).
    by exists i, page, ts, j, t.
  - intros (i & page & ts & j & t & Hi & Hts & Hj & ->).
    exists i, page. split; [done|]. unfold table_entries.
    unfold pages_return in Hpages. rewrite Forall_lookup in Hpages.
    apply Hpages, text_outcome_returns in Hi as [Htext _].
    destruct (page_extract_text page); [|done]. rewrite Hts.
    apply (list_elem_of_fmap_2
             (λ it, {| table_page := S i; table_number := it.1;
                       table_data := it.2 |}) _ (S j, t)).
    apply elem_of_enumerate. by exists j.
Qed.

Lemma table_entries_NoDup pages :
  NoDup ((λ e, (table_page e, table_number e))
           <$> per_page table_entries pages).
Proof.
  unfold per_page. rewrite fmap_concat, <- list_fmap_compose.
  apply (NoDup_concat_keyed fst _ 1). intros k l Hk.
  rewrite list_lookup_fmap, enumerate_lookup in Hk.
  destruct (pages !! k) as [page|]; [|done]. injection Hk as <-.
  cbn [compose fst snd]. unfold table_entries.
  destruct (page_extract_text page); [|split; [constructor|by intros ? ?%elem_of_nil]].
  destruct (page_extract_tables page) as [ts|];
    [|split; [constructor|by intros ? ?%elem_of_nil]].
  rewrite <- list_fmap_compose. split.
  - apply (NoDup_fmap_1 snd). rewrite <- list_fmap_compose.
    change (snd ∘ _) with (λ it : nat * table, it.1).
    change ((λ it : nat * table, it.1) <$> enumerate 1 ts)
      with ((enumerate 1 ts).*1).
    rewrite enumerate_fst. apply NoDup_seq.
  - by intros x ([n t] & -> & _)%list_elem_of_fmap.
Qed.

(** *** URLs *)

Lemma elem_of_url_entries w pages e :
  set_order_ok w →
  e ∈ per_page (url_entries w) pages ↔
  ∃ i page t,
    pages !! i = Some page ∧ page_text page = Some t ∧
    url_url e ∈ Re.findall url_pattern t ∧ url_page e = S i.
Proof.
  intros Hw. rewrite elem_of_per_page. split.
  - intros (i & page & Hi & He). unfold url_entries in He.
    destruct (page_text page) as [t|] eqn:Et; [|by apply elem_of_nil in He].
    apply list_elem_of_fmap in He as (u & -> & Hu).
    apply elem_of_extract_urls in Hu; [|done]. by exists i, page, t.
  - intros (i & page & t & Hi & Ht & Hu & Hp). exists i, page.
    split; [done|]. unfold url_entries. rewrite Ht.
    destruct e as [p u]. simpl in *. subst p.
    apply (list_elem_of_fmap_2 (λ u, {| url_page := S i; url_url := u |})).
    by apply elem_of_extract_urls.
Qed.

Lemma url_entries_NoDup w pages :
  set_order_ok w → NoDup (per_page (url_entries w) pages).
Proof.
  intros Hw. apply (NoDup_per_page_keyed url_page). intros p page.
  unfold url_entries. destruct (page_text page) as [t|];
    [|split; [constructor|by intros ? ?%elem_of_nil]].
  split.
  - apply NoDup_fmap_2; [by intros u1 u2 [=]|].
    by apply ScanFacts.extract_urls_NoDup.
  - by intros x (u & -> & _)%list_elem_of_fmap.
Qed.

(** *** Numbers *)

Lemma numbers_of_nonempty t :
  nonempty (numbers_of t) = negb (Scan.no_digit t).
Proof.
  pose proof (NumberFacts.extract_numbers_returns t) as H.
  destruct (Scan.no_digit t) eqn:E.
  - rewrite NumberScanFacts.extract_numbers_tokens in H.
    unfold Spec.number_tokens in H.
    rewrite NumberScanFacts.no_digit_tokens in H by done.
    simpl in H. by injection H as <-.
  - rewrite NumberScanFacts.extract_numbers_tokens in H.
    apply NumberScanFacts.comprehension_length in H.
    apply NumberScanFacts.digit_tokens in E.
    destruct (numbers_of t); [|done].
    destruct (Spec.number_tokens t); [done|]. simpl in H. lia.
Qed.

Lemma elem_of_numbers_entries pages e :
  e ∈ per_page numbers_entries pages ↔
  ∃ i page t,
    pages !! i = Some page ∧ page_text page = Some t ∧
    Scan.no_digit t = false ∧
    e = {| numbers_page := S i; numbers_numbers := numbers_of t |}.
Proof.
  rewrite elem_of_per_page. split.
  - intros (i & page & Hi & He). unfold numbers_entries in He.
    destruct (page_text page) as [t|] eqn:Et; [|by apply elem_of_nil in He].
    rewrite numbers_of_nonempty in He.
    destruct (Scan.no_digit t) eqn:E; [by apply elem_of_nil in He|].
    apply list_elem_of_singleton in He as ->. by exists i, page, t.
  - intros (i & page & t & Hi & Ht & Hd & ->). exists i, page.
    split; [done|]. unfold numbers_entries.
    rewrite Ht, numbers_of_nonempty, Hd. apply list_elem_of_here.
Qed.

Lemma numbers_entries_sorted pages :
  StronglySorted lt (numbers_page <$> per_page numbers_entries pages).
Proof.
  apply per_page_sorted. intros p page. unfold numbers_entries.
  destruct (page_text page) as [t|]; [|by left].
  destruct (nonempty (numbers_of t)); [right|by left]. by eexists.
Qed.

(** *** The lists of a run of the lightweight variant *)

Section ProgramLists.
Context (w : world) (self : PDFReader) (save : bool) (out : string).
Context (pages : list plumber_page).
Hypothesis Hplumber : pdfplumber_open w (pdf_path self) = Returns pages.
Hypothesis Hpages : Program.pages_return save pages.

Lemma program_fx_proj {X} (π : effects → list X)
    (f : nat → plumber_page → list X) :
  π fx_empty = [] → (∀ x y, π (x ⊕ y) = π x ++ π y) →
  (∀ dir, π (fx_makedirs dir) = []) → (∀ e, π (fx_event e) = []) →
  (∀ op, π (fx_handle op) = []) →
  (∀ p page, Program.page_outcome save page = Returns tt →
     π (Program.page_fx w out save p page) = f p page) →
  π (Program.run_fx w self save out) = per_page f pages.
Proof.
  intros H0 Happ Hdir Hev Hop Hf. unfold Program.run_fx.
  rewrite Hplumber, program_pages_run_ok by done. cbn [snd].
  rewrite !Happ, !Hev, !Hop.
  assert (π (if save then fx_makedirs out else fx_empty) = []) as ->
    by (destruct save; [apply Hdir|done]).
  rewrite !app_nil_r. cbn [app].
  apply (proj_per_page π f (Program.page_fx w out save)); try done.
  intros p page Hp. apply Hf.
  unfold Program.pages_return in Hpages. rewrite Forall_forall in Hpages.
  by apply Hpages.
Qed.

Lemma program_fx_tables :
  fx_tables (Program.run_fx w self save out) = per_page table_entries pages.
Proof.
  apply program_fx_proj; try done.
  intros p page _. unfold Program.page_fx. proj_chain.
  destruct (text_outcome page), save; proj_chain; by rewrite ?app_nil_r.
Qed.

Lemma program_fx_urls :
  fx_urls (Program.run_fx w self save out) = per_page (url_entries w) pages.
Proof.
  apply program_fx_proj; try done.
  intros p page _. unfold Program.page_fx. proj_chain.
  destruct (text_outcome page), save; proj_chain; by rewrite ?app_nil_r.
Qed.

Lemma program_fx_numbers :
  fx_numbers (Program.run_fx w self save out)
  = per_page numbers_entries pages.
Proof.
  apply program_fx_proj; try done.
  intros p page _. unfold Program.page_fx. proj_chain.
  destruct (text_outcome page), save; proj_chain; by rewrite ?app_nil_r.
Qed.


End ProgramLists.

Lemma pages_return_program save pages :
  Program.pages_return save pages → pages_return pages.
Proof.
  unfold Program.pages_return, pages_return. intros H.
  eapply Forall_impl; [exact H|].
  intros page. apply program_page_outcome_text.
Qed.

End ListFacts.

(** ** Properties of [extract_all] *)

Module RunLists.
Import FxFacts RunFacts ListFacts.

(** A run of either variant that returns: the pages it has read, and what
    it has appended to the lists of the instance. *)
Lemma returning_run w self save out st st' r :
  New.extract_all w self save out st = (Returns r, st') ∨
  Program.extract_all w self save out st = (Returns r, st') →
  ∃ pages fx,
    pdfplumber_open w (pdf_path self) = Returns pages ∧
    pages_return pages ∧ r = data self ∧
    st' = apply_fx (data self) fx st ∧
    fx_text fx = per_page text_entries pages ∧
    fx_tables fx = per_page table_entries pages ∧
    fx_urls fx = per_page (url_entries w) pages ∧
    fx_numbers fx = per_page numbers_entries pages.
Proof.
  intros [Hrun|Hrun].
  - apply (runs_det _ _ _ _ _ _ _ (runs_new_extract_all w self save out))
      in Hrun as [Hr ->].
    symmetry in Hr.
    apply new_run_returns
      in Hr as (doc & pages & Hfitz & Himages & Hopen & Hpages & ->).
    exists pages, (New.run_fx w self save out). split_and!; try done.
    + by apply new_fx_text with doc.
    + by apply new_fx_tables with doc.
    + by apply new_fx_urls with doc.
    + by apply new_fx_numbers with doc.
  - apply (runs_det _ _ _ _ _ _ _ (runs_program_extract_all w self save out))
      in Hrun as [Hr ->].
    symmetry in Hr.
    apply program_run_returns in Hr as (pages & Hopen & Hpages & ->).
    exists pages, (Program.run_fx w self save out). split_and!; try done.
    + by apply pages_return_program with save.
    + by apply program_fx_text.
    + by apply program_fx_tables.
    + by apply program_fx_urls.
    + by apply program_fx_numbers.
Qed.

Lemma apply_fx_heap a fx st d :
  heap st !! a = Some d →
  heap (apply_fx a fx st) !! a = Some (append_data fx d).
Proof. intros Hd. unfold apply_fx. cbn [heap]. by rewrite lookup_alter_eq, Hd. Qed.

Lemma apply_fx_heap_ne a a' fx st :
  a' ≠ a → heap (apply_fx a fx st) !! a' = heap st !! a'.
Proof. intros Hne. unfold apply_fx. cbn [heap]. by rewrite lookup_alter_ne. Qed.

(** A run of either variant, whatever its outcome. *)
Lemma any_run w self save out st st' o :
  New.extract_all w self save out st = (o, st') ∨
  Program.extract_all w self save out st = (o, st') →
  ∃ fx, st' = apply_fx (data self) fx st.
Proof.
  intros [Hrun|Hrun].
  - apply (runs_det _ _ _ _ _ _ _ (runs_new_extract_all w self save out))
      in Hrun as [_ ->]. by eexists.
  - apply (runs_det _ _ _ _ _ _ _ (runs_program_extract_all w self save out))
      in Hrun as [_ ->]. by eexists.
Qed.

End RunLists.

Section RunProperties.
Import FxFacts RunFacts ListFacts RunLists FootprintFacts.





(** X12.  The tables of a run that returns, in either variant: the run
    appends one entry for each table of each page, in page order and in the
    order in which pdfplumber lists the tables of the page; the entry holds
    the number of the page and the position of the table on its page, both
    counted from 1, so that no two entries of the run have the same page and
    table number. *)
Theorem X12_table_entries (w : world) (self : PDFReader) (save_images : bool)
    (output_dir : string) (st st' : state) (r : nat) (d : pdf_data) :
  heap st !! data self = Some d →
  New.extract_all w self save_images output_dir st = (Returns r, st') ∨
  Program.extract_all w self save_images output_dir st = (Returns r, st') →
  ∃ pages d',
    pdfplumber_open w (pdf_path self) = Returns pages ∧
    heap st' !! r = Some d' ∧
    data_tables d' = data_tables d ++ per_page table_entries pages ∧
    (∀ e, e ∈ per_page table_entries pages ↔
          ∃ i page ts j t,
            pages !! i = Some page ∧
            page_extract_tables page = Returns ts ∧ ts !! j = Some t ∧
            e = {| table_page := S i; table_number := S j;
                   table_data := t |}) ∧
    NoDup ((λ e, (table_page e, table_number e))
             <$> per_page table_entries pages).
Proof.
  intros Hd Hrun.
  apply returning_run in Hrun
    as (pages & fx & Hopen & Hpages & -> & -> & _ & Hfx & _).
  exists pages, (append_data fx d). split_and!.
  - done.
  - by apply apply_fx_heap.
  - cbn [append_data data_tables]. by rewrite Hfx.
  - intros e. by apply elem_of_table_entries.
  - apply table_entries_NoDup.
Qed.

Lemma X12_table_entries_witness :
  heap Examples.fresh !! 0 = Some empty_data ∧
  Program.extract_all Examples.sample (Examples.reader "report.pdf") true "out"
    Examples.fresh
  = (Returns 0,
     (Program.extract_all Examples.sample (Examples.reader "report.pdf") true
        "out" Examples.fresh).2) ∧
  ∃ pages d',
    pdfplumber_open Examples.sample "report.pdf" = Returns pages ∧
    heap (Program.extract_all Examples.sample (Examples.reader "report.pdf")
            true "out" Examples.fresh).2 !! 0 = Some d' ∧
    data_tables d' = [] ++ per_page table_entries pages.
Proof.
  assert (H1 : heap Examples.fresh !! 0 = Some empty_data) by (by vm_compute).
  assert (H2 : Program.extract_all Examples.sample
                 (Examples.reader "report.pdf") true "out" Examples.fresh
               = (Returns 0,
                  (Program.extract_all Examples.sample
                     (Examples.reader "report.pdf") true "out"
                     Examples.fresh).2))
    by (by vm_compute).
  split; [exact H1|]. split; [exact H2|].
  destruct (X12_table_entries Examples.sample (Examples.reader "report.pdf")
              true "out" Examples.fresh _ 0 empty_data H1 (or_intror H2))
    as (pages & d' & Hopen & Hd' & Htables & _).
  exists pages, d'. split_and!; [exact Hopen|exact Hd'|exact Htables].
Defined.

(** X13.  The URL entries of a run that returns, in either variant: one
    entry for each page and each distinct URL found in the text of that
    page.  Duplicates are removed within a page only: a URL that stands on
    two pages has an entry for each, and no entry is there twice. *)
Theorem X13_url_entries (w : world) (self : PDFReader) (save_images : bool)
    (output_dir : string) (st st' : state) (r : nat) (d : pdf_data) :
  set_order_ok w →
  heap st !! data self = Some d →
  New.extract_all w self save_images output_dir st = (Returns r, st') ∨
  Program.extract_all w self save_images output_dir st = (Returns r, st') →
  ∃ pages d',
    pdfplumber_open w (pdf_path self) = Returns pages ∧
    heap st' !! r = Some d' ∧
    data_urls d' = data_urls d ++ per_page (url_entries w) pages ∧
    (∀ e, e ∈ per_page (url_entries w) pages ↔
          ∃ i page t,
            pages !! i = Some page ∧ page_text page = Some t ∧
            url_url e ∈ Re.findall url_pattern t ∧ url_page e = S i) ∧
    NoDup (per_page (url_entries w) pages).
Proof.
  intros Hw Hd Hrun.
  apply returning_run in Hrun
    as (pages & fx & Hopen & Hpages & -> & -> & _ & _ & Hfx & _).
  exists pages, (append_data fx d). split_and!.
  - done.
  - by apply apply_fx_heap.
  - cbn [append_data data_urls]. by rewrite Hfx.
  - intros e. by apply elem_of_url_entries.
  - by apply url_entries_NoDup.
Qed.

Lemma X13_url_entries_witness :
  set_order_ok Examples.sample ∧
  heap Examples.fresh !! 0 = Some empty_data ∧
  New.extract_all Examples.sample (Examples.reader "report.pdf") true "out"
    Examples.fresh
  = (Returns 0,
     (New.extract_all Examples.sample (Examples.reader "report.pdf") true
        "out" Examples.fresh).2) ∧
  ∃ pages d',
    pdfplumber_open Examples.sample "report.pdf" = Returns pages ∧
    heap (New.extract_all Examples.sample (Examples.reader "report.pdf")
            true "out" Examples.fresh).2 !! 0 = Some d' ∧
    data_urls d' = [] ++ per_page (url_entries Examples.sample) pages.
Proof.
  assert (H1 : heap Examples.fresh !! 0 = Some empty_data) by (by vm_compute).
  assert (H2 : New.extract_all Examples.sample
                 (Examples.reader "report.pdf") true "out" Examples.fresh
               = (Returns 0,
                  (New.extract_all Examples.sample
                     (Examples.reader "report.pdf") true "out"
                     Examples.fresh).2))
    by (by vm_compute).
  split; [exact sample_set_order_ok|]. split; [exact H1|]. split; [exact H2|].
  destruct (X13_url_entries Examples.sample (Examples.reader "report.pdf")
              true "out" Examples.fresh _ 0 empty_data sample_set_order_ok H1
              (or_introl H2))
    as (pages & d' & Hopen & Hd' & Hurls & _).
  exists pages, d'. split_and!; [exact Hopen|exact Hd'|exact Hurls].
Defined.

(** X14.  The number entries of a run that returns, in either variant: a
    page has an entry exactly when its text holds a digit, and then one
    entry, with all the numbers of the page; the entries are in ascending
    order of their pages. *)
Theorem X14_numbers_entries (w : world) (self : PDFReader)
    (save_images : bool) (output_dir : string) (st st' : state) (r : nat)
    (d : pdf_data) :
  heap st !! data self = Some d →
  New.extract_all w self save_images output_dir st = (Returns r, st') ∨
  Program.extract_all w self save_images output_dir st = (Returns r, st') →
  ∃ pages d',
    pdfplumber_open w (pdf_path self) = Returns pages ∧
    heap st' !! r = Some d' ∧
    data_numbers d' = data_numbers d ++ per_page numbers_entries pages ∧
    (∀ e, e ∈ per_page numbers_entries pages ↔
          ∃ i page t nums,
            pages !! i = Some page ∧ page_text page = Some t ∧
            Scan.no_digit t = false ∧ _extract_numbers t = Returns nums ∧
            e = {| numbers_page := S i; numbers_numbers := nums |}) ∧
    StronglySorted lt (numbers_page <$> per_page numbers_entries pages).
Proof.
  intros Hd Hrun.
  apply returning_run in Hrun
    as (pages & fx & Hopen & Hpages & -> & -> & _ & _ & _ & Hfx).
  exists pages, (append_data fx d). split_and!.
  - done.
  - by apply apply_fx_heap.
  - cbn [append_data data_numbers]. by rewrite Hfx.
  - intros e. rewrite elem_of_numbers_entries. split.
    + intros (i & page & t & Hi & Ht & Hdig & ->).
      exists i, page, t, (numbers_of t). split_and!; try done.
      apply NumberFacts.extract_numbers_returns.
    + intros (i & page & t & nums & Hi & Ht & Hdig & Hnums & ->).
      exists i, page, t. split_and!; try done.
      rewrite NumberFacts.extract_numbers_returns in Hnums.
      by injection Hnums as <-.
  - apply numbers_entries_sorted.
Qed.

Lemma X14_numbers_entries_witness :
  heap Examples.fresh !! 0 = Some empty_data ∧
  New.extract_all Examples.sample (Examples.reader "report.pdf") true "out"
    Examples.fresh
  = (Returns 0,
     (New.extract_all Examples.sample (Examples.reader "report.pdf") true
        "out" Examples.fresh).2) ∧
  ∃ pages d',
    pdfplumber_open Examples.sample "report.pdf" = Returns pages ∧
    heap (New.extract_all Examples.sample (Examples.reader "report.pdf")
            true "out" Examples.fresh).2 !! 0 = Some d' ∧
    data_numbers d' = [] ++ per_page numbers_entries pages.
Proof.
  assert (H1 : heap Examples.fresh !! 0 = Some empty_data) by (by vm_compute).
  assert (H2 : New.extract_all Examples.sample
                 (Examples.reader "report.pdf") true "out" Examples.fresh
               = (Returns 0,
                  (New.extract_all Examples.sample
                     (Examples.reader "report.pdf") true "out"
                     Examples.fresh).2))
    by (by vm_compute).
  split; [exact H1|]. split; [exact H2|].
  destruct (X14_numbers_entries Examples.sample (Examples.reader "report.pdf")
              true "out" Examples.fresh _ 0 empty_data H1 (or_introl H2))
    as (pages & d' & Hopen & Hd' & Hnums & _).
  exists pages, d'. split_and!; [exact Hopen|exact Hd'|exact Hnums].
Defined.

(** X15.  [extract_all] only appends, and only to its own instance: however
    the run ends, each list of the instance begins with what it held before,
    the dictionaries of all other instances are as they were, and nothing
    that was printed is taken back. *)
Theorem X15_extract_all_only_appends (w : world) (self : PDFReader)
    (save_images : bool) (output_dir : string) (st st' : state)
    (o : outcome nat) (d : pdf_data) :
  heap st !! data self = Some d →
  New.extract_all w self save_images output_dir st = (o, st') ∨
  Program.extract_all w self save_images output_dir st = (o, st') →
  (∃ d', heap st' !! data self = Some d' ∧
         data_text d `prefix_of` data_text d' ∧
         data_tables d `prefix_of` data_tables d' ∧
         data_images d `prefix_of` data_images d' ∧
         data_urls d `prefix_of` data_urls d' ∧
         data_numbers d `prefix_of` data_numbers d') ∧
  (∀ a, a ≠ data self → heap st' !! a = heap st !! a) ∧
  stdout st `prefix_of` stdout st'.
Proof.
  intros Hd Hrun. apply any_run in Hrun as [fx ->]. split_and!.
  - exists (append_data fx d). split; [by apply apply_fx_heap|].
    cbn [append_data data_text data_tables data_images data_urls
         data_numbers].
    split_and!; by apply prefix_app_r.
  - intros a Ha. by apply apply_fx_heap_ne.
  - unfold apply_fx. cbn [stdout]. by apply prefix_app_r.
Qed.

Lemma X15_extract_all_only_appends_witness :
  heap Examples.fresh !! 0 = Some empty_data ∧
  New.extract_all Examples.sample (Examples.reader "damaged.pdf") true "out"
    Examples.fresh
  = (Raises "cannot load page",
     (New.extract_all Examples.sample (Examples.reader "damaged.pdf") true
        "out" Examples.fresh).2) ∧
  stdout Examples.fresh
    `prefix_of` stdout (New.extract_all Examples.sample
                          (Examples.reader "damaged.pdf") true "out"
                          Examples.fresh).2.
Proof.
  assert (H1 : heap Examples.fresh !! 0 = Some empty_data) by (by vm_compute).
  assert (H2 : New.extract_all Examples.sample
                 (Examples.reader "damaged.pdf") true "out" Examples.fresh
               = (Raises "cannot load page",
                  (New.extract_all Examples.sample
                     (Examples.reader "damaged.pdf") true "out"
                     Examples.fresh).2))
    by (by vm_compute).
  split; [exact H1|]. split; [exact H2|].
  exact (proj2 (proj2 (X15_extract_all_only_appends Examples.sample
                         (Examples.reader "damaged.pdf") true "out"
                         Examples.fresh _ _ empty_data H1 (or_introl H2)))).
Defined.

End RunProperties.

(** ** File names, and the files of the images *)

Module NameFacts.
Import StrFacts NumberFacts NumberScanFacts FxFacts RunFacts EntryFacts.

Lemma app_inv_head s t1 t2 : s +:+ t1 = s +:+ t2 → t1 = t2.
Proof.
  induction s as [|a s IH]; [done|]. rewrite !app_cons. intros [=]. auto.
Qed.

(** A numeral ends where the digits end. *)
Lemma digits_split ds1 ds2 rest1 rest2 :
  Str.forallb Num.is_digit ds1 = true → Str.forallb Num.is_digit ds2 = true →
  Num.no_digit_ahead rest1 → Num.no_digit_ahead rest2 →
  ds1 +:+ rest1 = ds2 +:+ rest2 → ds1 = ds2 ∧ rest1 = rest2.
Proof.
  intros H1 H2 Hr1 Hr2 E.
  pose proof (span_digits_exact ds1 rest1 H1 Hr1) as E1.
  pose proof (span_digits_exact ds2 rest2 H2 Hr2) as E2.
  rewrite E in E1. rewrite E1 in E2. by injection E2.
Qed.

Lemma pretty_nat_split (n1 n2 : nat) rest1 rest2 :
  Num.no_digit_ahead rest1 → Num.no_digit_ahead rest2 →
  pretty n1 +:+ rest1 = pretty n2 +:+ rest2 → n1 = n2 ∧ rest1 = rest2.
Proof.
  intros Hr1 Hr2 E.
  destruct (pretty_nat_digits n1) as (_ & Hd1 & Hv1).
  destruct (pretty_nat_digits n2) as (_ & Hd2 & Hv2).
  apply digits_split in E as [E ->]; [|done..]. split; [|done].
  rewrite E in Hv1. lia.
Qed.

(** The name of an image file tells the page, the position and the
    format. *)
Lemma image_filename_inj out p1 n1 ext1 p2 n2 ext2 :
  New.image_filename out p1 n1 ext1 = New.image_filename out p2 n2 ext2 →
  p1 = p2 ∧ n1 = n2 ∧ ext1 = ext2.
Proof.
  unfold New.image_filename. intros E%app_inv_head.
  apply (app_inv_head "/page") in E.
  apply pretty_nat_split in E as [-> E]; [|done..].
  apply (app_inv_head "_img") in E.
  apply pretty_nat_split in E as [-> E]; [|done..].
  by apply (app_inv_head ".") in E.
Qed.


(** Files written one after the other, when all that is written under a
    name is the same: the name holds it in the end. *)
Lemma foldl_insert_functional (l : list (string * list Byte.byte))
    (fs : gmap string (list Byte.byte)) name c :
  (name, c) ∈ l → (∀ c', (name, c') ∈ l → c' = c) →
  foldl (λ fs nc, <[nc.1 := nc.2]> fs) fs l !! name = Some c.
Proof.
  revert fs. induction l as [|[n c0] l IH] using rev_ind; intros fs Hin Hfun.
  - by apply elem_of_nil in Hin.
  - rewrite foldl_app. cbn [foldl fst snd].
    destruct (decide (n = name)) as [->|Hne].
    + rewrite lookup_insert_eq. f_equal. apply Hfun.
      apply elem_of_app. right. apply list_elem_of_here.
    + rewrite lookup_insert_ne by done.
      apply IH.
      * apply elem_of_app in Hin as [Hin|Hin]; [done|].
        apply list_elem_of_singleton in Hin. congruence.
      * intros c' Hc'. apply Hfun. apply elem_of_app. by left.
Qed.

(** The files that the first pass writes for the page at index [page_num]:
    one for each image that is extracted, whether PIL decodes it or not. *)
Lemma new_fx_files w self out doc pages :
  fitz_open w (pdf_path self) = Returns doc →
  Forall returned (fitz_pages doc) →
  pdfplumber_open w (pdf_path self) = Returns pages →
  pages_return pages →
  fx_files (New.run_fx w self true out)
  = New.per_fitz_page
      (λ page_num image_list,
         concat ((λ it,
                    match fitz_extract_image doc it.2 with
                    | Returns bi =>
                        [(New.image_filename out (page_num + 1) it.1
                            (image_ext bi), image_bytes bi)]
                    | Raises _ => []
                    end) <$> enumerate 1 image_list)) doc.
Proof.
  intros Hfitz Himages Hplumber Hpages. unfold New.run_fx.
  rewrite Hfitz, fitz_pages_run_ok, Hplumber, text_pages_run_ok by done.
  proj_chain. rewrite ?List.app_nil_r.
  rewrite (proj_per_page fx_files (λ _ _, [])
             (λ p page, fx_print (New.processing_line p) ⊕ text_fx w p page)),
    per_page_nil, ?List.app_nil_r by done.
  cbn [app]. rewrite ?List.app_nil_r.
  apply proj_per_fitz_page; try done.
  intros page_num image_list.
  apply (fitz_page_fx_proj fx_files []
           (λ img_num xref,
              match fitz_extract_image doc xref with
              | Returns bi =>
                  [(New.image_filename out (page_num + 1) img_num
                      (image_ext bi), image_bytes bi)]
              | Raises _ => []
              end)); try done.
Qed.

Lemma elem_of_new_files w self out doc pages name c :
  fitz_open w (pdf_path self) = Returns doc →
  Forall returned (fitz_pages doc) →
  pdfplumber_open w (pdf_path self) = Returns pages →
  pages_return pages →
  (name, c) ∈ fx_files (New.run_fx w self true out) ↔
  ∃ page_num image_list i xref bi,
    fitz_pages doc !! page_num = Some (Returns image_list) ∧
    image_list !! i = Some xref ∧
    fitz_extract_image doc xref = Returns bi ∧
    name = New.image_filename out (page_num + 1) (S i) (image_ext bi) ∧
    c = image_bytes bi.
Proof.
  intros Hfitz Himages Hplumber Hpages.
  rewrite (new_fx_files w self out doc pages) by done.
  rewrite elem_of_per_fitz_page. split.
  - intros (page_num & image_list & Hpage & Hin).
    apply (elem_of_concat_enumerate
             (λ img_num xref,
                match fitz_extract_image doc xref with
                | Returns bi =>
                    [(New.image_filename out (page_num + 1) img_num
                        (image_ext bi), image_bytes bi)]
                | Raises _ => []
                end)) in Hin as (i & xref & Hi & Hin).
    destruct (fitz_extract_image doc xref) as [bi|] eqn:E;
      [|by apply elem_of_nil in Hin].
    apply list_elem_of_singleton in Hin. injection Hin as -> ->.
    by exists page_num, image_list, i, xref, bi.
  - intros (page_num & image_list & i & xref & bi & Hpage & Hi & Hbi & -> & ->).
    exists page_num, image_list. split; [done|].
    apply (elem_of_concat_enumerate
             (λ img_num xref,
                match fitz_extract_image doc xref with
                | Returns bi =>
                    [(New.image_filename out (page_num + 1) img_num
                        (image_ext bi), image_bytes bi)]
                | Raises _ => []
                end)).
    exists i, xref. split; [done|]. rewrite Hbi. apply list_elem_of_here.
Qed.

End NameFacts.

Section ImageFiles.
Import FxFacts RunFacts EntryFacts RunLists NameFacts.

(** X16.  The image files of a run of the full-fidelity variant that
    returns with [save_images] set.  Every image that PyMuPDF extracts is
    on the disk afterwards, under the name made of its page and its position
    on the page, with the bytes that were extracted: no image of the run
    overwrites another, since the name tells page and position.  Every
    entry that the run records has the keys [format], [size] and
    [file_size], and under [saved_as] the name of a file that holds the
    number of bytes from which [file_size] is made. *)
Theorem X16_saved_images_on_disk (w : world) (self : PDFReader)
    (output_dir : string) (st st' : state) (r : nat) (d : pdf_data) :
  heap st !! data self = Some d →
  New.extract_all w self true output_dir st = (Returns r, st') →
  ∃ doc d',
    fitz_open w (pdf_path self) = Returns doc ∧
    heap st' !! r = Some d' ∧
    data_images d'
    = data_images d ++ New.recorded_images w doc output_dir true ∧
    (∀ page_num image_list i xref bi,
       fitz_pages doc !! page_num = Some (Returns image_list) →
       image_list !! i = Some xref →
       fitz_extract_image doc xref = Returns bi →
       files st' !! New.image_filename output_dir (page_num + 1) (S i)
                      (image_ext bi)
       = Some (image_bytes bi)) ∧
    (∀ entry,
       entry ∈ New.recorded_images w doc output_dir true →
       ∃ name content,
         image_saved_as entry = Some name ∧
         files st' !! name = Some content ∧
         image_file_size entry = Some (length content) ∧
         is_Some (image_format entry) ∧ is_Some (image_size entry)).
Proof.
  intros Hd Hrun.
  apply (runs_det _ _ _ _ _ _ _ (runs_new_extract_all w self true output_dir))
    in Hrun as [Hr ->].
  symmetry in Hr.
  apply new_run_returns
    in Hr as (doc & pages & Hfitz & Himages & Hopen & Hpages & ->).
  assert (Hdisk : ∀ page_num image_list i xref bi,
            fitz_pages doc !! page_num = Some (Returns image_list) →
            image_list !! i = Some xref →
            fitz_extract_image doc xref = Returns bi →
            files (apply_fx (data self) (New.run_fx w self true output_dir) st)
              !! New.image_filename output_dir (page_num + 1) (S i)
                   (image_ext bi)
            = Some (image_bytes bi)).
  { intros page_num image_list i xref bi Hpage Hi Hbi.
    unfold apply_fx. cbn [files]. apply foldl_insert_functional.
    - apply (elem_of_new_files w self output_dir doc pages); [done..|].
      by exists page_num, image_list, i, xref, bi.
    - intros c' Hc'.
      apply (elem_of_new_files w self output_dir doc pages) in Hc'
        as (page_num' & image_list' & i' & xref' & bi' & Hpage' & Hi' & Hbi'
            & Hname & ->); [|done..].
      apply image_filename_inj in Hname as (Hp & Hn & _).
      assert (page_num' = page_num) as -> by lia.
      assert (i' = i) as -> by lia.
      rewrite Hpage in Hpage'. injection Hpage' as <-.
      rewrite Hi in Hi'. injection Hi' as <-.
      rewrite Hbi in Hbi'. by injection Hbi' as <-. }
  exists doc, (append_data (New.run_fx w self true output_dir) d).
  split_and!; [done|by apply apply_fx_heap| |done|].
  - cbn [append_data data_images].
    by rewrite (new_fx_images w self true output_dir doc pages).
  - intros entry
      (page_num & image_list & i & xref & [bi sz] & Hpage & Hi & Hres & ->)
        %elem_of_recorded_images.
    unfold New.image_result in Hres.
    destruct (fitz_extract_image doc xref) as [bi'|] eqn:Hbi; [|done].
    destruct (pil_size w (image_bytes bi')) as [sz'|]; [|done].
    injection Hres as -> ->.
    exists (New.image_filename output_dir (page_num + 1) (S i) (image_ext bi)),
      (image_bytes bi).
    cbn [New.image_entry_of image_saved_as image_file_size image_format
         image_size fst snd].
    split_and!; [done|by eapply Hdisk|done|by eexists|by eexists].
Qed.

Lemma X16_saved_images_on_disk_witness :
  heap Examples.fresh !! 0 = Some empty_data ∧
  New.extract_all Examples.sample (Examples.reader "report.pdf") true "out"
    Examples.fresh
  = (Returns 0,
     (New.extract_all Examples.sample (Examples.reader "report.pdf") true
        "out" Examples.fresh).2) ∧
  ∃ doc d',
    fitz_open Examples.sample "report.pdf" = Returns doc ∧
    heap (New.extract_all Examples.sample (Examples.reader "report.pdf") true
            "out" Examples.fresh).2 !! 0 = Some d' ∧
    data_images d' = [] ++ New.recorded_images Examples.sample doc "out" true.
Proof.
  assert (H1 : heap Examples.fresh !! 0 = Some empty_data) by (by vm_compute).
  assert (H2 : New.extract_all Examples.sample
                 (Examples.reader "report.pdf") true "out" Examples.fresh
               = (Returns 0,
                  (New.extract_all Examples.sample
                     (Examples.reader "report.pdf") true "out"
                     Examples.fresh).2))
    by (by vm_compute).
  split; [exact H1|]. split; [exact H2|].
  destruct (X16_saved_images_on_disk Examples.sample
              (Examples.reader "report.pdf") "out" Examples.fresh _ 0
              empty_data H1 H2)
    as (doc & d' & Hopen & Hd' & Himages & _).
  exists doc, d'. split_and!; [exact Hopen|exact Hd'|exact Himages].
Defined.

End ImageFiles.

(** ** A page that fails *)

Module FailureFacts.
Import FxFacts RunFacts EntryFacts ListFacts RunLists FootprintFacts.





Section ProgramFailure.
Context (w : world) (self : PDFReader) (save : bool) (out : string).
Context (good : list plumber_page) (bad : plumber_page)
  (rest : list plumber_page) (e : exn).
Hypothesis Hplumber :
  pdfplumber_open w (pdf_path self) = Returns (good ++ bad :: rest).
Hypothesis Hgood : Program.pages_return save good.
Hypothesis Hbad : Program.page_outcome save bad = Raises e.



End ProgramFailure.






End FailureFacts.

Section PageFailure.
Import FxFacts RunFacts EntryFacts ListFacts RunLists FailureFacts.



End PageFailure.

(** * Properties of the reports *)

Module ReportFacts.
Import FxFacts RunFacts EntryFacts ListFacts RunLists NameFacts.

Lemma bind_read_data {A} self (k : pdf_data → M A) st d :
  heap st !! data self = Some d → (read_data self ≫= k) st = k d st.
Proof.
  intros Hd. unfold mbind, M_bind, read_data. by rewrite Hd.
Qed.

Lemma append_data_nodata fx d :
  fx_text fx = [] → fx_tables fx = [] → fx_images fx = [] →
  fx_urls fx = [] → fx_numbers fx = [] → append_data fx d = d.
Proof.
  intros H1 H2 H3 H4 H5. destruct d. unfold append_data. cbn.
  by rewrite H1, H2, H3, H4, H5, !List.app_nil_r.
Qed.

Lemma apply_fx_nodata a fx st :
  fx_text fx = [] → fx_tables fx = [] → fx_images fx = [] →
  fx_urls fx = [] → fx_numbers fx = [] →
  heap (apply_fx a fx st) = heap st.
Proof.
  intros H1 H2 H3 H4 H5. unfold apply_fx. cbn [heap].
  apply alter_id. intros d _. by apply append_data_nodata.
Qed.

(** *** Statements that only print *)

Lemma fx_prints_app l1 l2 : fx_prints l1 ⊕ fx_prints l2 = fx_prints (l1 ++ l2).
Proof. done. Qed.

Lemma fx_prints_nil : fx_prints [] = fx_empty.
Proof. done. Qed.

Section Prints.
Context (a : nat).

Lemma runs_print1 line : runs a (print line) (Returns tt) (fx_prints [line]).
Proof. apply runs_print. Qed.

Lemma runs_prints_seq (m k : M unit) l1 l2 :
  runs a m (Returns tt) (fx_prints l1) → runs a k (Returns tt) (fx_prints l2) →
  runs a (m ;; k) (Returns tt) (fx_prints (l1 ++ l2)).
Proof.
  intros Hm Hk. rewrite <- fx_prints_app.
  by apply (runs_bind a m (λ _, k) tt).
Qed.

Lemma runs_prints_each {X} (f : X → string) l :
  runs a (for_each (λ x, print (f x)) l) (Returns tt) (fx_prints (f <$> l)).
Proof.
  induction l as [|x l IH]; [apply runs_ret|].
  apply (runs_prints_seq (print (f x)) _ [f x]); [apply runs_print1|done].
Qed.

Lemma runs_prints_when (b : bool) line :
  runs a (when b (print line)) (Returns tt)
    (fx_prints (if b then [line] else [])).
Proof. destruct b; [apply runs_print1|apply runs_ret]. Qed.

(** What statements that only print do to the state. *)
Lemma apply_fx_prints lines st :
  apply_fx a (fx_prints lines) st = set_stdout (λ o, o ++ lines) st.
Proof.
  unfold apply_fx, set_stdout. cbn [fx_prints fx_dirs fx_files fx_stdout
    fx_handles fx_trace foldl].
  rewrite List.app_nil_r. f_equal.
  apply alter_id. intros d _. by apply append_data_nodata.
Qed.

Ltac prints :=
  first [ apply runs_print1
        | apply runs_prints_each
        | apply runs_prints_when
        | eapply runs_prints_seq; [prints|prints] ].

Lemma runs_summary_head d :
  ∃ lines, runs a (summary_head d) (Returns tt) (fx_prints lines).
Proof.
  unfold summary_head. cbv zeta. eexists. prints.
Qed.

Lemma runs_summary_tail w d :
  ∃ after,
    runs a (summary_tail w d) (Returns tt)
      (fx_prints
         ([nl +:+ "🔗 URLs:";
           "   Total URLs found: " +:+ pretty (length (data_urls d))]
          ++ ((λ url, "   - " +:+ url)
                <$> take 5 (set_order w (unique_urls d)))
          ++ (if bool_decide (5 < size (unique_urls d))
              then ["   ... and " +:+ pretty (size (unique_urls d) - 5)
                      +:+ " more"]
              else [])
          ++ after)).
Proof.
  unfold summary_tail. cbv zeta. eexists.
  eapply (runs_prints_seq _ _ [_]); [apply runs_print1|].
  eapply (runs_prints_seq _ _ [_]); [apply runs_print1|].
  eapply runs_prints_seq; [apply runs_prints_each|].
  eapply runs_prints_seq; [apply runs_prints_when|].
  prints.
Qed.

End Prints.

(** *** The lines about images, full-fidelity variant *)

Lemma runs_image_line a img :
  is_Some (image_size img) → is_Some (image_file_size img) →
  ∃ line, runs a (NewReport.image_line img) (Returns tt) (fx_prints [line]).
Proof.
  intros [size Hsize] [file_size Hfs]. unfold NewReport.image_line.
  rewrite Hsize, Hfs. cbn [getitem].
  destruct (image_saved_as img) as [saved_as|]; eexists;
    apply (runs_print1 a).
Qed.

Lemma runs_image_lines a imgs :
  Forall (λ img, is_Some (image_size img) ∧ is_Some (image_file_size img))
    imgs →
  ∃ lines,
    runs a (for_each NewReport.image_line imgs) (Returns tt) (fx_prints lines).
Proof.
  induction 1 as [|img imgs [Hsize Hfs] _ [lines IH]].
  - exists []. apply runs_ret.
  - destruct (runs_image_line a img Hsize Hfs) as [line Hline].
    exists ([line] ++ lines). by apply runs_prints_seq.
Qed.

Lemma recorded_images_keys w doc out save :
  Forall (λ img, is_Some (image_size img) ∧ is_Some (image_file_size img))
    (New.recorded_images w doc out save).
Proof.
  apply Forall_forall.
  intros img (page_num & image_list & i & xref & res & _ & _ & _ & ->)
    %elem_of_recorded_images.
  split; by eexists.
Qed.

(** *** Writing files *)

Lemma join_app l1 l2 : join (l1 ++ l2) = join l1 +:+ join l2.
Proof.
  induction l1 as [|x l1 IH]; [done|]. simpl. rewrite IH.
  by rewrite StrFacts.app_assoc.
Qed.

Lemma translate_app linesep s t :
  Text.translate linesep (s +:+ t)
  = Text.translate linesep s +:+ Text.translate linesep t.
Proof.
  induction s as [|a s IH]; [done|]. rewrite StrFacts.app_cons. simpl.
  rewrite IH. by rewrite StrFacts.app_assoc.
Qed.

Lemma utf8_app s t : Text.utf8 (s +:+ t) = Text.utf8 s ++ Text.utf8 t.
Proof.
  induction s as [|a s IH]; [done|]. rewrite StrFacts.app_cons. simpl.
  rewrite IH. by rewrite app_assoc.
Qed.

Lemma runs_save_text a linesep output_file items :
  runs a
    (with_open_w linesep output_file (items ≫= text_writes) ;;
     print (text_saved_line output_file))
    (Returns tt)
    (fx_write_file output_file
       (Text.utf8 (Text.translate linesep (join (items ≫= text_writes))))
     ⊕ fx_print (text_saved_line output_file)).
Proof.
  apply (runs_bind a _ (λ _, print _) tt);
    [apply runs_write_file|apply runs_print].
Qed.






Lemma init_fresh path st self st0 :
  __init__ path st = (Returns self, st0) →
  heap st0 !! data self = Some empty_data.
Proof.
  unfold __init__. intros [= <- <-]. cbn [set_heap heap data].
  apply lookup_insert_eq.
Qed.

End ReportFacts.

Section ReportProperties.
Import FxFacts RunFacts EntryFacts ListFacts RunLists NameFacts ReportFacts.

(** X18.  [print_summary] of the lightweight variant never raises and
    changes nothing but the standard output.  Of the URLs it prints the
    number of entries, in which a URL that stands on several pages counts
    once for each page; then the distinct URLs, each on a line, five at
    most; then, when there are more than five distinct URLs, a line with
    the number of those that are not shown. *)
Theorem X18_print_summary_urls (w : world) (self : PDFReader) (st : state)
    (d : pdf_data) :
  set_order_ok w →
  heap st !! data self = Some d →
  ∃ st' before shown after,
    ProgramReport.print_summary w self st = (Returns tt, st') ∧
    heap st' = heap st ∧ files st' = files st ∧ dirs st' = dirs st ∧
    open_handles st' = open_handles st ∧
    stdout st'
    = stdout st ++ before
      ++ ["   Total URLs found: " +:+ pretty (length (data_urls d))]
      ++ ((λ url, "   - " +:+ url) <$> shown)
      ++ (if bool_decide (5 < size (unique_urls d))
          then ["   ... and " +:+ pretty (size (unique_urls d) - 5)
                  +:+ " more"]
          else [])
      ++ after ∧
    NoDup shown ∧
    length shown = 5 `min` size (unique_urls d) ∧
    size (unique_urls d) ≤ length (data_urls d) ∧
    (∀ u, u ∈ shown → ∃ e, e ∈ data_urls d ∧ url_url e = u).
Proof.
  intros Hw Hd.
  destruct (runs_summary_head (data self) d) as [head Hhead].
  destruct (runs_summary_tail (data self) w d) as [after Htail].
  pose proof (runs_prints_seq (data self) _ _ _ _ Hhead
                (runs_prints_seq (data self) _ _ _ _
                   (runs_print1 (data self)
                      ("   Total images found: "
                         +:+ pretty (length (data_images d))))
                   Htail)) as Hrun.
  specialize (Hrun st). rewrite apply_fx_prints in Hrun.
  exists (set_stdout
            (λ o, o ++ head
                    ++ ["   Total images found: "
                          +:+ pretty (length (data_images d))]
                    ++ [nl +:+ "🔗 URLs:";
                        "   Total URLs found: "
                          +:+ pretty (length (data_urls d))]
                    ++ ((λ url, "   - " +:+ url)
                          <$> take 5 (set_order w (unique_urls d)))
                    ++ (if bool_decide (5 < size (unique_urls d))
                        then ["   ... and "
                                +:+ pretty (size (unique_urls d) - 5)
                                +:+ " more"]
                        else [])
                    ++ after) st),
    (head ++ ["   Total images found: " +:+ pretty (length (data_images d));
              nl +:+ "🔗 URLs:"]),
    (take 5 (set_order w (unique_urls d))), after.
  split_and!; try done.
  - unfold ProgramReport.print_summary. by rewrite (bind_read_data _ _ _ d).
  - cbn [set_stdout stdout]. by rewrite <- !app_assoc.
  - eapply sublist_NoDup; [|apply sublist_take].
    rewrite (Hw _). apply NoDup_elements.
  - rewrite length_take. f_equal. rewrite (Hw _). done.
  - unfold unique_urls.
    rewrite <- (length_fmap url_url (data_urls d)).
    generalize (url_url <$> data_urls d). intros l.
    induction l as [|u l IH]; [done|]. cbn [list_to_set length].
    destruct (decide (u ∈ (list_to_set l : gset string))) as [Hin|Hnot].
    + rewrite (subseteq_union_1_L (C:=gset string) {[u]} (list_to_set l))
        by (by apply singleton_subseteq_l). lia.
    + rewrite size_union by set_solver. rewrite size_singleton. lia.
  - intros u Hu%elem_of_take. destruct Hu as (i & Hu & _).
    apply list_elem_of_lookup_2 in Hu. rewrite (Hw _) in Hu.
    apply elem_of_elements in Hu. unfold unique_urls in Hu.
    apply elem_of_list_to_set, list_elem_of_fmap in Hu as (e & -> & He).
    by exists e.
Qed.

Lemma X18_print_summary_urls_witness :
  set_order_ok Examples.sample ∧
  heap Examples.fresh !! 0 = Some empty_data ∧
  ∃ st',
    ProgramReport.print_summary Examples.sample (Examples.reader "report.pdf")
      Examples.fresh = (Returns tt, st') ∧
    heap st' = heap Examples.fresh ∧ files st' = files Examples.fresh.
Proof.
  assert (H1 : heap Examples.fresh !! 0 = Some empty_data) by (by vm_compute).
  split; [exact sample_set_order_ok|]. split; [exact H1|].
  destruct (X18_print_summary_urls Examples.sample
              (Examples.reader "report.pdf") Examples.fresh empty_data
              sample_set_order_ok H1)
    as (st' & before & shown & after & Hrun & Hheap & Hfiles & _).
  exists st'. split_and!; [exact Hrun|exact Hheap|exact Hfiles].
Defined.

End ReportProperties.

Section SavedFiles.
Import FxFacts RunFacts EntryFacts ListFacts RunLists NameFacts ReportFacts.

(** X19.  [save_text_to_file] on any instance: it returns, and the file
    holds the text of the entries of [self.data['text']], whatever it held
    before; nothing is kept of an older file, and a second call leaves the
    disk as the first left it.  The dictionary, the directories and all
    other files are untouched.  When there is no text, the file is written
    all the same, empty, and the line that reports success is printed. *)
Theorem X19_save_text_to_file (linesep : string) (self : PDFReader)
    (output_file : string) (st : state) (d : pdf_data) :
  heap st !! data self = Some d →
  ∃ st',
    save_text_to_file linesep self output_file st = (Returns tt, st') ∧
    files st'
    = <[output_file :=
          Text.utf8 (Text.translate linesep (join (data_text d ≫= text_writes)))]>
        (files st) ∧
    heap st' = heap st ∧ dirs st' = dirs st ∧
    open_handles st' = open_handles st ∧
    stdout st' = stdout st ++ [text_saved_line output_file] ∧
    (data_text d = [] → files st' !! output_file = Some []) ∧
    ∃ st'',
      save_text_to_file linesep self output_file st' = (Returns tt, st'') ∧
      files st'' = files st' ∧ heap st'' = heap st'.
Proof.
  intros Hd.
  assert (Hrun : ∀ st, heap st !! data self = Some d →
            save_text_to_file linesep self output_file st
            = (Returns tt,
               apply_fx (data self)
                 (fx_write_file output_file
                    (Text.utf8 (Text.translate linesep
                                  (join (data_text d ≫= text_writes))))
                  ⊕ fx_print (text_saved_line output_file)) st)).
  { intros st1 Hd1. unfold save_text_to_file.
    rewrite (bind_read_data _ _ _ d) by done. apply runs_save_text. }
  assert (Hheap : ∀ st,
            heap (apply_fx (data self)
                    (fx_write_file output_file
                       (Text.utf8 (Text.translate linesep
                                     (join (data_text d ≫= text_writes))))
                     ⊕ fx_print (text_saved_line output_file)) st)
            = heap st)
    by (intros st1; by apply apply_fx_nodata).
  eexists. split; [by apply Hrun|].
  split_and!; try done.
  - intros Hnil. unfold apply_fx. cbn [files fx_files fx_app fx_write_file
      fx_print app foldl fst snd].
    rewrite lookup_insert_eq, Hnil. done.
  - eexists. split; [apply Hrun; by rewrite Hheap|].
    split; [|by rewrite !Hheap].
    unfold apply_fx. cbn [files fx_files fx_app fx_write_file fx_print app
      foldl fst snd].
    apply insert_insert_eq.
Qed.

Lemma X19_save_text_to_file_witness :
  heap Examples.fresh !! 0 = Some empty_data ∧
  ∃ st',
    save_text_to_file nl (Examples.reader "report.pdf") "text.txt"
      Examples.fresh = (Returns tt, st') ∧
    files st' !! "text.txt" = Some [].
Proof.
  assert (H1 : heap Examples.fresh !! 0 = Some empty_data) by (by vm_compute).
  split; [exact H1|].
  destruct (X19_save_text_to_file nl (Examples.reader "report.pdf")
              "text.txt" Examples.fresh empty_data H1)
    as (st' & Hrun & _ & _ & _ & _ & _ & Hempty & _).
  exists st'. split; [exact Hrun|exact (Hempty eq_refl)].
Defined.

(** X20.  From the document to the text file.  On a new instance, after a
    run of [extract_all] that returns, [save_text_to_file] writes a file
    that holds, for the pages with a non-empty text and in the order of the
    pages, a heading with the number of the page and then the text of the
    page as pdfplumber gave it; a page without text has no part in the
    file. *)
Theorem X20_text_file_of_a_run (w : world) (linesep path : string)
    (self : PDFReader) (save_images : bool) (output_dir output_file : string)
    (st st0 st1 : state) (r : nat) :
  __init__ path st = (Returns self, st0) →
  New.extract_all w self save_images output_dir st0 = (Returns r, st1) ∨
  Program.extract_all w self save_images output_dir st0 = (Returns r, st1) →
  ∃ pages st2 content,
    pdfplumber_open w (pdf_path self) = Returns pages ∧
    save_text_to_file linesep self output_file st1 = (Returns tt, st2) ∧
    files st2 !! output_file = Some content ∧
    content
    = Text.utf8 (Text.translate linesep
                   (join (per_page text_entries pages ≫= text_writes))) ∧
    ∀ i page t,
      pages !! i = Some page → page_text page = Some t →
      ∃ before after,
        content
        = before
          ++ Text.utf8 (Text.translate linesep
                          (join (text_writes {| text_page := S i;
                                                text_content := t |})))
          ++ after.
Proof.
  intros Hinit Hrun. apply init_fresh in Hinit.
  apply returning_run in Hrun
    as (pages & fx & Hopen & Hpages & -> & -> & Hfx & _).
  pose proof (apply_fx_heap _ fx _ _ Hinit) as Hd1.
  unfold save_text_to_file. rewrite (bind_read_data _ _ _ _ Hd1).
  rewrite (runs_save_text (data self)).
  cbn [append_data data_text app]. rewrite Hfx.
  eexists pages, _, _. split_and!; [done|done| |done|].
  - unfold apply_fx at 1. cbn [files fx_files fx_app fx_write_file fx_print
      app foldl fst snd]. apply lookup_insert_eq.
  - intros i page t Hi Ht.
    assert ({| text_page := S i; text_content := t |}
            ∈ per_page text_entries pages) as Hin.
    { apply elem_of_per_page. exists i, page. split; [done|].
      unfold text_entries. rewrite Ht. apply list_elem_of_here. }
    apply list_elem_of_split in Hin as (l1 & l2 & ->).
    rewrite bind_app, bind_cons, !join_app, !translate_app, !utf8_app.
    by eexists _, _.
Qed.

Lemma X20_text_file_of_a_run_witness :
  __init__ "report.pdf" initial_state
  = (Returns (Examples.reader "report.pdf"), Examples.fresh) ∧
  Program.extract_all Examples.sample (Examples.reader "report.pdf") true "out"
    Examples.fresh
  = (Returns 0,
     (Program.extract_all Examples.sample (Examples.reader "report.pdf") true
        "out" Examples.fresh).2) ∧
  ∃ pages st2 content,
    pdfplumber_open Examples.sample "report.pdf" = Returns pages ∧
    save_text_to_file nl (Examples.reader "report.pdf") "text.txt"
      (Program.extract_all Examples.sample (Examples.reader "report.pdf") true
         "out" Examples.fresh).2 = (Returns tt, st2) ∧
    files st2 !! "text.txt" = Some content.
Proof.
  assert (H1 : __init__ "report.pdf" initial_state
               = (Returns (Examples.reader "report.pdf"), Examples.fresh))
    by (by vm_compute).
  assert (H2 : Program.extract_all Examples.sample
                 (Examples.reader "report.pdf") true "out" Examples.fresh
               = (Returns 0,
                  (Program.extract_all Examples.sample
                     (Examples.reader "report.pdf") true "out"
                     Examples.fresh).2))
    by (by vm_compute).
  split; [exact H1|]. split; [exact H2|].
  destruct (X20_text_file_of_a_run Examples.sample nl "report.pdf"
              (Examples.reader "report.pdf") true "out" "text.txt"
              initial_state Examples.fresh _ 0 H1 (or_intror H2))
    as (pages & st2 & content & Hopen & Hrun & Hfile & _).
  exists pages, st2, content. split_and!; [exact Hopen|exact Hrun|exact Hfile].
Defined.





(** X23.  [print_summary] of the full-fidelity variant reads the keys
    [size] and [file_size] of every image entry.  Every entry that
    [extract_all] records has them, so that after a run that returns, on an
    instance whose earlier entries have them too, [print_summary] returns;
    it changes nothing but the standard output, on which it reports the
    number of image entries. *)
Theorem X23_print_summary_after_run (w : world) (self : PDFReader)
    (save_images : bool) (output_dir : string) (st st1 : state) (r : nat)
    (d : pdf_data) :
  heap st !! data self = Some d →
  Forall (λ img, is_Some (image_size img) ∧ is_Some (image_file_size img))
    (data_images d) →
  New.extract_all w self save_images output_dir st = (Returns r, st1) →
  ∃ doc st2,
    fitz_open w (pdf_path self) = Returns doc ∧
    NewReport.print_summary w self st1 = (Returns tt, st2) ∧
    heap st2 = heap st1 ∧ files st2 = files st1 ∧ dirs st2 = dirs st1 ∧
    open_handles st2 = open_handles st1 ∧
    stdout st1 `prefix_of` stdout st2 ∧
    "   Total images extracted: "
      +:+ pretty (length (data_images d)
                  + length (New.recorded_images w doc output_dir save_images))
      ∈ stdout st2.
Proof.
  intros Hd Hkeys Hrun.
  apply (runs_det _ _ _ _ _ _ _
           (runs_new_extract_all w self save_images output_dir))
    in Hrun as [Hr ->].
  symmetry in Hr.
  apply new_run_returns
    in Hr as (doc & pages & Hfitz & Himages & Hopen & Hpages & _).
  pose proof (apply_fx_heap _ (New.run_fx w self save_images output_dir) _ _
                Hd) as Hd1.
  assert (data_images
            (append_data (New.run_fx w self save_images output_dir) d)
          = data_images d
            ++ New.recorded_images w doc output_dir save_images) as Himgs.
  { cbn [append_data data_images].
    by rewrite (new_fx_images w self save_images output_dir doc pages). }
  destruct (runs_summary_head (data self)
              (append_data (New.run_fx w self save_images output_dir) d))
    as [head Hhead].
  destruct (runs_summary_tail (data self) w
              (append_data (New.run_fx w self save_images output_dir) d))
    as [after Htail].
  destruct (runs_image_lines (data self)
              (data_images
                 (append_data (New.run_fx w self save_images output_dir) d)))
    as [lines Hlines].
  { rewrite Himgs. apply Forall_app. split; [done|].
    apply recorded_images_keys. }
  pose proof (runs_prints_seq (data self) _ _ _ _ Hhead
                (runs_prints_seq (data self) _ _ _ _
                   (runs_print1 (data self)
                      ("   Total images extracted: "
                         +:+ pretty (length (data_images
                               (append_data
                                  (New.run_fx w self save_images output_dir)
                                  d)))))
                   (runs_prints_seq (data self) _ _ _ _ Hlines Htail)))
    as Hsum.
  specialize (Hsum (apply_fx (data self)
                      (New.run_fx w self save_images output_dir) st)).
  rewrite apply_fx_prints in Hsum.
  exists doc. eexists. split; [done|].
  split.
  { unfold NewReport.print_summary. rewrite (bind_read_data _ _ _ _ Hd1).
    exact Hsum. }
  split_and!; try done.
  - cbn [set_stdout stdout]. by apply prefix_app_r.
  - cbn [set_stdout stdout]. rewrite Himgs, length_app.
    rewrite !elem_of_app. right. right. left. apply list_elem_of_here.
Qed.

Lemma X23_print_summary_after_run_witness :
  heap Examples.fresh !! 0 = Some empty_data ∧
  New.extract_all Examples.sample (Examples.reader "report.pdf") true "out"
    Examples.fresh
  = (Returns 0,
     (New.extract_all Examples.sample (Examples.reader "report.pdf") true
        "out" Examples.fresh).2) ∧
  ∃ doc st2,
    fitz_open Examples.sample "report.pdf" = Returns doc ∧
    NewReport.print_summary Examples.sample (Examples.reader "report.pdf")
      (New.extract_all Examples.sample (Examples.reader "report.pdf") true
         "out" Examples.fresh).2 = (Returns tt, st2).
Proof.
  assert (H1 : heap Examples.fresh !! 0 = Some empty_data) by (by vm_compute).
  assert (H2 : New.extract_all Examples.sample
                 (Examples.reader "report.pdf") true "out" Examples.fresh
               = (Returns 0,
                  (New.extract_all Examples.sample
                     (Examples.reader "report.pdf") true "out"
                     Examples.fresh).2))
    by (by vm_compute).
  split; [exact H1|]. split; [exact H2|].
  destruct (X23_print_summary_after_run Examples.sample
              (Examples.reader "report.pdf") true "out" Examples.fresh _ 0
              empty_data H1 (Forall_nil_2 _) H2)
    as (doc & st2 & Hopen & Hrun & _).
  exists doc, st2. split; [exact Hopen|exact Hrun].
Defined.

End SavedFiles.

(** ** Instances, and a page that fails after the images *)

Module NewFailureFacts.
Import FxFacts RunFacts EntryFacts ListFacts RunLists FailureFacts.

Section NewFailure.
Context (w : world) (self : PDFReader) (save : bool) (out : string).
Context (doc : fitz_document).
Context (good : list plumber_page) (bad : plumber_page)
  (rest : list plumber_page) (e : exn).
Hypothesis Hfitz : fitz_open w (pdf_path self) = Returns doc.
Hypothesis Himages : Forall returned (fitz_pages doc).
Hypothesis Hplumber :
  pdfplumber_open w (pdf_path self) = Returns (good ++ bad :: rest).
Hypothesis Hgood : pages_return good.
Hypothesis Hbad : text_outcome bad = Raises e.





End NewFailure.

End NewFailureFacts.

Section MoreRunProperties.
Import FxFacts RunFacts EntryFacts ListFacts RunLists FailureFacts
  NewFailureFacts ReportFacts.

(** X24.  Instances do not share their data: [PDFReader(...)] makes a new
    dictionary with five empty lists for every instance, so that whatever a
    run of [extract_all] on one instance does, and however it ends, the
    dictionary of another instance is as it was. *)
Theorem X24_instances_do_not_share (w : world) (path1 path2 : string)
    (self1 self2 : PDFReader) (save_images : bool) (output_dir : string)
    (st st1 st2 st3 : state) (o : outcome nat) :
  __init__ path1 st = (Returns self1, st1) →
  __init__ path2 st1 = (Returns self2, st2) →
  New.extract_all w self1 save_images output_dir st2 = (o, st3) ∨
  Program.extract_all w self1 save_images output_dir st2 = (o, st3) →
  pdf_path self1 = path1 ∧ pdf_path self2 = path2 ∧
  data self1 ≠ data self2 ∧
  heap st2 !! data self1 = Some empty_data ∧
  heap st2 !! data self2 = Some empty_data ∧
  heap st3 !! data self2 = Some empty_data.
Proof.
  intros H1 H2 Hrun.
  pose proof (init_fresh _ _ _ _ H1) as Hd1.
  pose proof (init_fresh _ _ _ _ H2) as Hd2.
  unfold __init__ in H1, H2.
  injection H1 as <- <-. injection H2 as <- <-. cbn [pdf_path data] in *.
  assert (fresh (dom (heap (set_heap
                              (λ h, <[fresh (dom (heap st)) := empty_data]> h)
                              st)))
          ≠ fresh (dom (heap st))) as Hne.
  { intros E.
    apply (is_fresh (dom (heap (set_heap
                                  (λ h, <[fresh (dom (heap st)) := empty_data]> h)
                                  st)))).
    rewrite E. apply elem_of_dom. by eexists. }
  split_and!; try done.
  - cbn [set_heap heap]. rewrite lookup_insert_ne by done.
    cbn [set_heap heap] in Hd1. exact Hd1.
  - apply any_run in Hrun as [fx ->].
    rewrite apply_fx_heap_ne by done. exact Hd2.
Qed.

Lemma X24_instances_do_not_share_witness :
  __init__ "report.pdf" initial_state
  = (Returns (Examples.reader "report.pdf"), Examples.fresh) ∧
  ∃ self2 st2 st3,
    __init__ "damaged.pdf" Examples.fresh = (Returns self2, st2) ∧
    Program.extract_all Examples.sample (Examples.reader "report.pdf") true
      "out" st2 = (Returns 0, st3) ∧
    heap st3 !! data self2 = Some empty_data.
Proof.
  assert (H1 : __init__ "report.pdf" initial_state
               = (Returns (Examples.reader "report.pdf"), Examples.fresh))
    by (by vm_compute).
  split; [exact H1|].
  exists {| pdf_path := "damaged.pdf"; data := 1 |},
    (__init__ "damaged.pdf" Examples.fresh).2,
    (Program.extract_all Examples.sample (Examples.reader "report.pdf") true
       "out" (__init__ "damaged.pdf" Examples.fresh).2).2.
  assert (H3 : __init__ "damaged.pdf" Examples.fresh
               = (Returns {| pdf_path := "damaged.pdf"; data := 1 |},
                  (__init__ "damaged.pdf" Examples.fresh).2))
    by (by vm_compute).
  assert (H4 : Program.extract_all Examples.sample
                 (Examples.reader "report.pdf") true "out"
                 (__init__ "damaged.pdf" Examples.fresh).2
               = (Returns 0,
                  (Program.extract_all Examples.sample
                     (Examples.reader "report.pdf") true "out"
                     (__init__ "damaged.pdf" Examples.fresh).2).2))
    by (by vm_compute).
  split; [exact H3|]. split; [exact H4|].
  exact (proj2 (proj2 (proj2 (proj2 (proj2
           (X24_instances_do_not_share Examples.sample "report.pdf"
              "damaged.pdf" (Examples.reader "report.pdf")
              {| pdf_path := "damaged.pdf"; data := 1 |} true "out"
              initial_state Examples.fresh _ _ (Returns 0) H1 H3
              (or_intror H4))))))).
Defined.



End MoreRunProperties.
